(** * pymoveit2: the MoveIt2Gripper command interface

    A shallow embedding of [pymoveit2/moveit2_gripper.py].  Python floats are
    IEEE 754 binary64 numbers and are embedded as Rocq's primitive floats, so
    every definition below evaluates exactly as the interpreter does.  Python
    lists are [list]s, a subscript out of range raises [IndexError], and
    [list.index] on a missing element raises [ValueError]. *)

From Stdlib Require Import ZArith QArith Qabs List String Bool Lia Floats.
Import ListNotations.

Set Implicit Arguments.
Set Warnings "-inexact-float".

(** ** Exceptions and results *)

Inductive exn : Type :=
| ValueError
| IndexError
| AttributeError
| OverflowError.

Inductive result (A : Type) : Type :=
| Ok (a : A)
| Raise (e : exn).

Arguments Ok {A} a.
Arguments Raise {A} e.

Definition is_ok {A} (r : result A) : bool :=
  match r with Ok _ => true | Raise _ => false end.

Definition map_result {A B} (f : A -> B) (r : result A) : result B :=
  match r with Ok a => Ok (f a) | Raise e => Raise e end.

(** ** Python list primitives *)

(** [l.index(x)]: position of the first occurrence, [None] standing for the
    [ValueError] the interpreter raises. *)
Fixpoint index (x : string) (l : list string) : option nat :=
  match l with
  | [] => None
  | y :: l' => if String.eqb y x then Some 0%nat
               else option_map S (index x l')
  end.

(** [l[i]] with a non-negative subscript. *)
Definition getitem {A} (l : list A) (i : nat) : result A :=
  match nth_error l i with
  | Some a => Ok a
  | None => Raise IndexError
  end.

(** ** Messages *)

(** [sensor_msgs/JointState]: parallel arrays of names and positions. *)
Record JointState : Type := mkJointState {
  name : list string;
  position : list float
}.

(** [builtin_interfaces/Duration] as the trajectory point carries it. *)
Record Duration : Type := mkDuration {
  sec : Z;
  nanosec : Z
}.

(** A single-waypoint [trajectory_msgs/JointTrajectory]. *)
Record JointTrajectory : Type := mkJointTrajectory {
  traj_joint_names : list string;
  traj_positions : list float;
  time_from_start : Duration
}.

(** [control_msgs/FollowJointTrajectory.Goal]. *)
Record FollowJointTrajectoryGoal : Type := mkFollowJointTrajectoryGoal {
  trajectory : JointTrajectory
}.

(** Modelled from the spec: the message builders [init_joint_state],
    [init_dummy_joint_trajectory_from_state] and
    [init_follow_joint_trajectory_goal] come from [moveit2.py], which is not
    part of the sources at hand.  Section 4.2: a fixed goal is a
    single-waypoint trajectory reaching the target positions at the given
    duration, the duration being carried as its two components. *)
Definition init_joint_state (joint_names : list string)
    (joint_positions : list float) : JointState :=
  mkJointState joint_names joint_positions.

Definition init_dummy_joint_trajectory_from_state (js : JointState)
    (duration_sec duration_nanosec : Z) : JointTrajectory :=
  mkJointTrajectory (name js) (position js)
                    (mkDuration duration_sec duration_nanosec).

Definition init_follow_joint_trajectory_goal (t : JointTrajectory)
    : FollowJointTrajectoryGoal :=
  mkFollowJointTrajectoryGoal t.

(** ** Numeric conversions of the interpreter *)

(** [math.floor] and [int] on the unpacked form of a float: infinities
    raise [OverflowError] and NaN raises [ValueError]; [Z.shiftl] by a
    negative amount divides rounding towards minus infinity, so [SF_floor]
    rounds down and [SF_trunc], which shifts the magnitude, towards zero. *)
Definition SF_floor (x : spec_float) : result Z :=
  match x with
  | S754_zero _ => Ok 0%Z
  | S754_infinity _ => Raise OverflowError
  | S754_nan => Raise ValueError
  | S754_finite s m e => Ok (Z.shiftl (cond_Zopp s (Zpos m)) e)
  end.

Definition SF_trunc (x : spec_float) : result Z :=
  match x with
  | S754_zero _ => Ok 0%Z
  | S754_infinity _ => Raise OverflowError
  | S754_nan => Raise ValueError
  | S754_finite s m e => Ok (cond_Zopp s (Z.shiftl (Zpos m) e))
  end.

(** [math.floor(x)] for a float: an [int]. *)
Definition math_floor (x : float) : result Z := SF_floor (Prim2SF x).

(** [int(x)] for a float: truncation towards zero. *)
Definition int_of_float (x : float) : result Z := SF_trunc (Prim2SF x).

(** The coercion of an [int] operand in mixed arithmetic: the nearest
    binary64 number (ties to even), [OverflowError] beyond the range. *)
Definition float_of_int (z : Z) : result float :=
  match binary_normalize prec emax z 0 false with
  | S754_infinity _ => Raise OverflowError
  | f => Ok (SF2Prim f)
  end.

(** Lines 52-55: the two components of the fixed motion duration. *)
Definition split_duration (d : float) : result (Z * Z) :=
  match math_floor d with
  | Raise e => Raise e
  | Ok duration_sec =>
    match float_of_int duration_sec with
    | Raise e => Raise e
    | Ok fsec =>
      match int_of_float (10e8 * (d - fsec))%float with
      | Raise e => Raise e
      | Ok duration_nanosec => Ok (duration_sec, duration_nanosec)
      end
    end
  end.

(** The exact rational value of a binary64 number (0 for the non-finite
    ones), used to state numeric properties. *)
Definition SF_value (x : spec_float) : Q :=
  match x with
  | S754_finite s m (Zneg k) => Qmake (cond_Zopp s (Zpos m)) (2 ^ k)%positive
  | S754_finite s m e => inject_Z (cond_Zopp s (Zpos m) * 2 ^ e)
  | _ => 0%Q
  end.

Definition Qvalue (x : float) : Q := SF_value (Prim2SF x).

(** *** Vocabulary of binary64 rounding *)

Definition b2z (b : bool) : Z := if b then 1%Z else 0%Z.

(** The exponent of the format for a number of magnitude [2^x]. *)
Definition fexp64 (x : Z) : Z := Z.max (x - 53) (-1074).

(** The binary64 number of sign [s] that stands for [r * 2^e1], for a
    rounded mantissa [0 <= r <= 2^53]. *)
Definition encode (s : bool) (r e1 : Z) : spec_float :=
  match r with
  | Z0 => S754_zero s
  | Zpos p =>
    if (r <? 2 ^ 53)%Z then
      if (e1 <=? 971)%Z then S754_finite s p e1 else S754_infinity s
    else
      if (e1 + 1 <=? 971)%Z then S754_finite s (Z.to_pos (2 ^ 52)) (e1 + 1)
      else S754_infinity s
  | Zneg _ => S754_nan
  end.

(** The duration a precomputed goal carries. *)
Definition goal_duration (g : option FollowJointTrajectoryGoal)
    : option Duration :=
  option_map (fun g => time_from_start (trajectory g)) g.

(** ** Tolerance of the open/closed check (lines 78-80) *)

Definition tolerance_of (o c : float) : float := (0.1 * abs (o - c))%float.

(** The list comprehension over [zip(open, closed)]. *)
Definition open_tolerance_of (opens closeds : list float) : list float :=
  map (fun oc => tolerance_of (fst oc) (snd oc)) (combine opens closeds).

(** [abs(p - o) > t] on floats. *)
Definition out_of_tolerance (p o t : float) : bool := (t <? abs (p - o))%float.

(** ** The object *)

(** Modelled from the spec: the execution state the inherited dispatcher
    keeps (section 3); [moveit2.py] is not part of the sources at hand. *)
Inductive ExecutionState : Type :=
| Idle | Dispatching | Executing | Succeeded | Rejected | Aborted | Canceled.

(** What can be handed to the execution backend (section 3, Goal). *)
Inductive Goal : Type :=
| PlannedGoal (target : list float) (group : string)
| FixedTrajectoryGoal (g : FollowJointTrajectoryGoal).

(** The inherited operations the gripper code invokes on [self]. *)
Inductive BaseCall : Type :=
| Call_move_to_configuration (joint_positions : list float)
| Call_send_goal_async_follow_joint_trajectory
    (goal : FollowJointTrajectoryGoal) (wait_until_response : bool)
| Call_reset_controller (joint_state : list float) (sync : bool).

(** The pose and kinematics operations a [MoveIt2] object offers. *)
Inductive PoseOperation : Type :=
| Op_move_to_pose | Op_set_pose_goal | Op_set_position_goal
| Op_set_orientation_goal | Op_compute_fk | Op_compute_ik.

(** The six attributes [__del_redundant_attributes] assigns; [None] is
    Python's [None], [Some op] the inherited bound method. *)
Record PoseAttributes : Type := mkPoseAttributes {
  move_to_pose : option PoseOperation;
  set_pose_goal : option PoseOperation;
  set_position_goal : option PoseOperation;
  set_orientation_goal : option PoseOperation;
  compute_fk : option PoseOperation;
  compute_ik : option PoseOperation
}.

(** The part of [self] that belongs to the base class [MoveIt2]. *)
Record MoveIt2 : Type := mkMoveIt2 {
  joint_names : list string;
  group_name : string;
  execute_via_moveit : bool;
  ignore_new_calls_while_executing : bool;
  joint_state : option JointState;
  execution_state : ExecutionState;
  dispatched : list Goal;          (* goals sent to the backend, newest first *)
  requested : list BaseCall;       (* inherited operations invoked, newest first *)
  pose_attributes : PoseAttributes
}.

(** A [MoveIt2Gripper] instance: the base part and the private attributes
    of lines 47-81.  The two dummy goals exist only after a construction
    with [skip_planning]; [gripper_joint_indices] is the lazily filled
    index cache. *)
Record MoveIt2Gripper : Type := mkMoveIt2Gripper {
  base : MoveIt2;
  open_gripper_joint_positions : list float;
  closed_gripper_joint_positions : list float;
  skip_planning : bool;
  open_dummy_trajectory_goal : option FollowJointTrajectoryGoal;
  close_dummy_trajectory_goal : option FollowJointTrajectoryGoal;
  open_tolerance : list float;
  gripper_joint_indices : option (list nat)
}.

Definition set_base (b : MoveIt2) (self : MoveIt2Gripper) : MoveIt2Gripper :=
  mkMoveIt2Gripper b
    (open_gripper_joint_positions self) (closed_gripper_joint_positions self)
    (skip_planning self) (open_dummy_trajectory_goal self)
    (close_dummy_trajectory_goal self) (open_tolerance self)
    (gripper_joint_indices self).

Definition set_gripper_joint_indices (c : option (list nat))
    (self : MoveIt2Gripper) : MoveIt2Gripper :=
  mkMoveIt2Gripper (base self)
    (open_gripper_joint_positions self) (closed_gripper_joint_positions self)
    (skip_planning self) (open_dummy_trajectory_goal self)
    (close_dummy_trajectory_goal self) (open_tolerance self) c.

Definition set_joint_state (s : option JointState) (b : MoveIt2) : MoveIt2 :=
  mkMoveIt2 (joint_names b) (group_name b) (execute_via_moveit b)
    (ignore_new_calls_while_executing b) s (execution_state b)
    (dispatched b) (requested b) (pose_attributes b).

Definition set_execution_state (e : ExecutionState) (b : MoveIt2) : MoveIt2 :=
  mkMoveIt2 (joint_names b) (group_name b) (execute_via_moveit b)
    (ignore_new_calls_while_executing b) (joint_state b) e
    (dispatched b) (requested b) (pose_attributes b).

Definition set_dispatched (l : list Goal) (b : MoveIt2) : MoveIt2 :=
  mkMoveIt2 (joint_names b) (group_name b) (execute_via_moveit b)
    (ignore_new_calls_while_executing b) (joint_state b) (execution_state b)
    l (requested b) (pose_attributes b).

Definition set_requested (l : list BaseCall) (b : MoveIt2) : MoveIt2 :=
  mkMoveIt2 (joint_names b) (group_name b) (execute_via_moveit b)
    (ignore_new_calls_while_executing b) (joint_state b) (execution_state b)
    (dispatched b) l (pose_attributes b).

Definition set_pose_attributes (p : PoseAttributes) (b : MoveIt2) : MoveIt2 :=
  mkMoveIt2 (joint_names b) (group_name b) (execute_via_moveit b)
    (ignore_new_calls_while_executing b) (joint_state b) (execution_state b)
    (dispatched b) (requested b) p.

(** ** Methods as state transformers

    A method reads and updates [self] and either returns or raises; an
    exception leaves the updates made so far in place. *)

Definition M (A : Type) : Type := MoveIt2Gripper -> result A * MoveIt2Gripper.

Definition ret {A} (a : A) : M A := fun self => (Ok a, self).

Definition bind {A B} (c : M A) (k : A -> M B) : M B :=
  fun self =>
    match c self with
    | (Ok a, self') => k a self'
    | (Raise e, self') => (Raise e, self')
    end.

Declare Scope method_scope.
Delimit Scope method_scope with method.
Notation "x <- c ;; k" := (bind c (fun x => k))
  (at level 100, c at next level, right associativity) : method_scope.
Open Scope method_scope.

Definition update_base (f : MoveIt2 -> MoveIt2) : M unit :=
  fun self => (Ok tt, set_base (f (base self)) self).

(** *** The inherited dispatcher *)

(** Modelled from the spec: the admission gate of section 4.3, which lives in
    [moveit2.py].  A call is dropped when [ignore_new_calls_while_executing]
    is set and the execution state is [Dispatching] or [Executing]. *)
Definition busy (e : ExecutionState) : bool :=
  match e with
  | Dispatching | Executing => true
  | _ => false
  end.

Definition gate_admits (b : MoveIt2) : bool :=
  negb (ignore_new_calls_while_executing b && busy (execution_state b)).

(** Modelled from the spec: [dispatch] of section 4.4 with no wait for
    acceptance: the goal goes to the backend and the execution state becomes
    [Dispatching]. *)
Definition dispatch (goal : Goal) (b : MoveIt2) : MoveIt2 :=
  set_execution_state Dispatching (set_dispatched (goal :: dispatched b) b).

Definition log_call (c : BaseCall) (b : MoveIt2) : MoveIt2 :=
  set_requested (c :: requested b) b.

(** Modelled from the spec: [MoveIt2.move_to_configuration], absent from the
    sources at hand.  Sections 4.2-4.4: the gate is consulted first; a planned
    goal whose length differs from the joint count is a
    [ConfigurationMismatch] (a [ValueError]); an admitted goal is
    dispatched. *)
Definition move_to_configuration (joint_positions : list float) : M unit :=
  fun self =>
    let b := log_call (Call_move_to_configuration joint_positions) (base self) in
    if gate_admits b then
      if Nat.eqb (List.length joint_positions) (List.length (joint_names b)) then
        (Ok tt, set_base (dispatch (PlannedGoal joint_positions (group_name b)) b) self)
      else (Raise ValueError, set_base b self)
    else (Ok tt, set_base b self).

(** Modelled from the spec: [MoveIt2._send_goal_async_follow_joint_trajectory],
    absent from the sources at hand: the gate, then the dispatch of the
    precomputed goal. *)
Definition _send_goal_async_follow_joint_trajectory
    (goal : FollowJointTrajectoryGoal) (wait_until_response : bool) : M unit :=
  fun self =>
    let b := log_call (Call_send_goal_async_follow_joint_trajectory
                         goal wait_until_response) (base self) in
    if gate_admits b then (Ok tt, set_base (dispatch (FixedTrajectoryGoal goal) b) self)
    else (Ok tt, set_base b self).

(** Modelled from the spec: [MoveIt2.reset_controller], absent from the
    sources at hand: the direct reset channel of section 4.6, distinct from
    the execution path. *)
Definition reset_controller (joint_state : list float) (sync : bool) : M unit :=
  update_base (log_call (Call_reset_controller joint_state sync)).

(** Modelled from the spec: the joint feedback callback (section 3): the
    latest snapshot replaces the previous one wholesale. *)
Definition on_joint_state (msg : JointState) : M unit :=
  update_base (set_joint_state (Some msg)).

(** Modelled from the spec: the backend notifications of section 4.4. *)
Inductive BackendEvent : Type :=
| GoalAccepted | GoalRejected | GoalSucceeded | GoalAborted | GoalCanceled.

Definition backend_transition (ev : BackendEvent) (e : ExecutionState)
    : ExecutionState :=
  match ev, e with
  | GoalAccepted, Dispatching => Executing
  | GoalRejected, Dispatching => Rejected
  | GoalSucceeded, Executing => Succeeded
  | GoalAborted, Executing => Aborted
  | GoalCanceled, Executing => Canceled
  | _, _ => e
  end.

Definition on_backend_event (ev : BackendEvent) : M unit :=
  update_base (fun b => set_execution_state
                          (backend_transition ev (execution_state b)) b).

(** *** Construction (lines 16-81) *)

Record InitArgs : Type := mkInitArgs {
  arg_gripper_joint_names : list string;
  arg_open_gripper_joint_positions : list float;
  arg_closed_gripper_joint_positions : list float;
  arg_gripper_group_name : string;
  arg_execute_via_moveit : bool;
  arg_ignore_new_calls_while_executing : bool;
  arg_skip_planning : bool;
  arg_skip_planning_fixed_motion_duration : float
}.

(** The defaults of the signature. *)
Definition default_args (names : list string) (opens closeds : list float)
    : InitArgs :=
  mkInitArgs names opens closeds "LHand" false false false 0.5%float.

Definition inherited_pose_attributes : PoseAttributes :=
  mkPoseAttributes (Some Op_move_to_pose) (Some Op_set_pose_goal)
    (Some Op_set_position_goal) (Some Op_set_orientation_goal)
    (Some Op_compute_fk) (Some Op_compute_ik).

(** Modelled from the spec: [MoveIt2.__init__], absent from the sources at
    hand: it stores the configuration; no snapshot has been received, nothing
    is in flight, and the inherited operations are in place. *)
Definition MoveIt2_init (joint_names : list string) (group_name : string)
    (execute_via_moveit ignore_new_calls_while_executing : bool) : MoveIt2 :=
  mkMoveIt2 joint_names group_name execute_via_moveit
    ignore_new_calls_while_executing None Idle [] []
    inherited_pose_attributes.

(** Lines 167-174. *)
Definition del_redundant_attributes (b : MoveIt2) : MoveIt2 :=
  set_pose_attributes (mkPoseAttributes None None None None None None) b.

(** Lines 56-75: one precomputed goal. *)
Definition dummy_trajectory_goal (names : list string) (positions : list float)
    (duration_sec duration_nanosec : Z) : FollowJointTrajectoryGoal :=
  init_follow_joint_trajectory_goal
    (init_dummy_joint_trajectory_from_state
       (init_joint_state names positions) duration_sec duration_nanosec).

Definition __init__ (a : InitArgs) : result MoveIt2Gripper :=
  let names := arg_gripper_joint_names a in
  let opens := arg_open_gripper_joint_positions a in
  let closeds := arg_closed_gripper_joint_positions a in
  if negb (Nat.eqb (List.length names) (List.length opens))
     || negb (Nat.eqb (List.length names) (List.length closeds))
  then Raise ValueError
  else
    let b := del_redundant_attributes
               (MoveIt2_init names (arg_gripper_group_name a)
                  (arg_execute_via_moveit a)
                  (arg_ignore_new_calls_while_executing a)) in
    let finish og cg :=
      Ok (mkMoveIt2Gripper b opens closeds (arg_skip_planning a) og cg
            (open_tolerance_of opens closeds) None) in
    if arg_skip_planning a then
      match split_duration (arg_skip_planning_fixed_motion_duration a) with
      | Raise e => Raise e
      | Ok (duration_sec, duration_nanosec) =>
        finish
          (Some (dummy_trajectory_goal names opens duration_sec duration_nanosec))
          (Some (dummy_trajectory_goal names closeds duration_sec duration_nanosec))
      end
    else finish None None.

(** *** The classifier (lines 176-215) *)

(** The loop of lines 192-193: each configured name is looked up in the
    snapshot and its index appended to the cache, which was reset to the empty
    list on line 191.  A missing name raises and leaves the indices found so
    far in the cache. *)
Fixpoint find_joint_indices (names : list string) (js : JointState)
    (acc : list nat) : result unit * list nat :=
  match names with
  | [] => (Ok tt, acc)
  | joint_name :: rest =>
    match index joint_name (name js) with
    | Some k => find_joint_indices rest js (acc ++ [k])
    | None => (Raise ValueError, acc)
    end
  end.

(** Lines 190-193: the cache is filled on the first call that sees a
    snapshot and reused afterwards, whatever the later snapshots are. *)
Definition resolve_joint_indices (js : JointState) : M (list nat) :=
  fun self =>
    match gripper_joint_indices self with
    | Some idxs => (Ok idxs, self)
    | None =>
      let '(r, acc) := find_joint_indices (joint_names (base self)) js [] in
      (map_result (fun _ => acc) r, set_gripper_joint_indices (Some acc) self)
    end.

(** The loop of lines 195-205 over [enumerate(indices)], leaving at the first
    joint out of tolerance. *)
Fixpoint within_open_tolerance (local_joint_index : nat) (idxs : list nat)
    (positions opens tolerances : list float) : result bool :=
  match idxs with
  | [] => Ok true
  | joint_state_index :: rest =>
    match getitem positions joint_state_index with
    | Raise e => Raise e
    | Ok p =>
      match getitem opens local_joint_index with
      | Raise e => Raise e
      | Ok o =>
        match getitem tolerances local_joint_index with
        | Raise e => Raise e
        | Ok t =>
          if out_of_tolerance p o t then Ok false
          else within_open_tolerance (S local_joint_index) rest
                 positions opens tolerances
        end
      end
    end
  end.

Definition is_open : M bool :=
  fun self =>
    match joint_state (base self) with
    | None => (Ok true, self)
    | Some js =>
      (idxs <- resolve_joint_indices js ;;
       fun self' =>
         (within_open_tolerance 0 idxs (position js)
            (open_gripper_joint_positions self') (open_tolerance self'),
          self')) self
    end.

Definition is_closed : M bool :=
  b <- is_open ;; ret (negb b).

(** *** Commands (lines 84-165) *)

Definition getattr {A} (field : MoveIt2Gripper -> option A) : M A :=
  fun self =>
    match field self with
    | Some a => (Ok a, self)
    | None => (Raise AttributeError, self)
    end.

Definition open_without_planning : M unit :=
  goal <- getattr open_dummy_trajectory_goal ;;
  _send_goal_async_follow_joint_trajectory goal false.

Definition close_without_planning : M unit :=
  goal <- getattr close_dummy_trajectory_goal ;;
  _send_goal_async_follow_joint_trajectory goal false.

(** The part of [open] after the early return. *)
Definition open_action : M unit :=
  fun self =>
    if skip_planning self then open_without_planning self
    else move_to_configuration (open_gripper_joint_positions self) self.

Definition close_action : M unit :=
  fun self =>
    if skip_planning self then close_without_planning self
    else move_to_configuration (closed_gripper_joint_positions self) self.

(** [skip_if_noop and self.is_open] does not evaluate the property when
    [skip_if_noop] is false. *)
Definition open (skip_if_noop : bool) : M unit :=
  if skip_if_noop then
    already <- is_open ;;
    if already then ret tt else open_action
  else open_action.

Definition close (skip_if_noop : bool) : M unit :=
  if skip_if_noop then
    already <- is_closed ;;
    if already then ret tt else close_action
  else close_action.

Definition toggle : M unit :=
  o <- is_open ;;
  if o then close false else open false.

Definition __call__ : M unit := toggle.

Definition reset_open (sync : bool) : M unit :=
  fun self => reset_controller (open_gripper_joint_positions self) sync self.

Definition reset_closed (sync : bool) : M unit :=
  fun self => reset_controller (closed_gripper_joint_positions self) sync self.

(** ** Lifetime of an instance *)

(** Everything that can happen to an instance once it is built: the public
    operations and properties, and the callbacks of the transport layer. *)
Inductive Event : Type :=
| E_open (skip_if_noop : bool)
| E_close (skip_if_noop : bool)
| E_toggle
| E_call
| E_reset_open (sync : bool)
| E_reset_closed (sync : bool)
| E_is_open
| E_is_closed
| E_joint_state (msg : JointState)
| E_backend (ev : BackendEvent).

Definition discard {A} (c : M A) : M unit := fun self =>
  let '(r, self') := c self in (map_result (fun _ => tt) r, self').

Definition perform (ev : Event) : M unit :=
  match ev with
  | E_open s => open s
  | E_close s => close s
  | E_toggle => toggle
  | E_call => __call__
  | E_reset_open s => reset_open s
  | E_reset_closed s => reset_closed s
  | E_is_open => discard is_open
  | E_is_closed => discard is_closed
  | E_joint_state msg => on_joint_state msg
  | E_backend e => on_backend_event e
  end.

(** A caller that goes on after an exception: the state after a run. *)
Fixpoint run (evs : list Event) (self : MoveIt2Gripper) : MoveIt2Gripper :=
  match evs with
  | [] => self
  | ev :: rest => run rest (snd (perform ev self))
  end.

(** ** Invariants of a constructed instance *)

Definition nulled (p : PoseAttributes) : Prop :=
  move_to_pose p = None /\ set_pose_goal p = None
  /\ set_position_goal p = None /\ set_orientation_goal p = None
  /\ compute_fk p = None /\ compute_ik p = None.

(** What construction establishes and every event preserves. *)
Record well_formed (self : MoveIt2Gripper) : Prop := mk_well_formed {
  wf_open_length :
    List.length (open_gripper_joint_positions self)
    = List.length (joint_names (base self));
  wf_closed_length :
    List.length (closed_gripper_joint_positions self)
    = List.length (joint_names (base self));
  wf_tolerance :
    open_tolerance self
    = open_tolerance_of (open_gripper_joint_positions self)
                        (closed_gripper_joint_positions self);
  wf_open_goal :
    skip_planning self = true ->
    exists s n, open_dummy_trajectory_goal self
      = Some (dummy_trajectory_goal (joint_names (base self))
                (open_gripper_joint_positions self) s n);
  wf_close_goal :
    skip_planning self = true ->
    exists s n, close_dummy_trajectory_goal self
      = Some (dummy_trajectory_goal (joint_names (base self))
                (closed_gripper_joint_positions self) s n)
}.

(** ** Vocabulary of the statements *)

(** The index list [is_open] works with on snapshot [js]: the cached one, or
    else the one the lookup by name produces. *)
Definition index_map (self : MoveIt2Gripper) (js : JointState)
    : option (list nat) :=
  match gripper_joint_indices self with
  | Some idxs => Some idxs
  | None =>
    match find_joint_indices (joint_names (base self)) js [] with
    | (Ok _, idxs) => Some idxs
    | (Raise _, _) => None
    end
  end.

(** [k] is what [name.index(n)] returns on the snapshot. *)
Definition indexed_in (js : JointState) (n : string) (k : nat) : Prop :=
  index n (name js) = Some k.

(** [k] is the first place at which the snapshot names [n]: the subscript the
    index map holds for a joint called [n] once it has been built on [js]. *)
Definition first_place (js : JointState) (n : string) (k : nat) : Prop :=
  nth_error (name js) k = Some n
  /\ forall j, (j < k)%nat -> nth_error (name js) j <> Some n.

(** The index map [is_open] works with on snapshot [js] is the complete map
    of snapshot [built]: the cache holds the first place in [built] of every
    configured joint, or the cache is empty, [built] is [js] itself and names
    every configured joint, so that this call builds the map. *)
Definition map_built_on (self : MoveIt2Gripper) (js built : JointState) : Prop :=
  match gripper_joint_indices self with
  | Some idxs => Forall2 (first_place built) (joint_names (base self)) idxs
  | None => built = js
            /\ forall n, In n (joint_names (base self)) -> In n (name js)
  end.

(** Configured joint [i], whose place in the index map built on [built] is
    [k], is further from its open position than its tolerance in snapshot
    [js]: [|js.position[k] - open_positions[i]| > tolerance[i]]. *)
Definition configured_joint_out_of_tolerance (self : MoveIt2Gripper)
    (built js : JointState) (i : nat) : Prop :=
  exists n k p o t,
    nth_error (joint_names (base self)) i = Some n
    /\ first_place built n k
    /\ nth_error (position js) k = Some p
    /\ nth_error (open_gripper_joint_positions self) i = Some o
    /\ nth_error (open_tolerance self) i = Some t
    /\ (t <? abs (p - o))%float = true.

(** Every subscript of the classification loop is in range. *)
Definition lookups_in_range (self : MoveIt2Gripper) (js : JointState)
    (idxs : list nat) : Prop :=
  forall i k, nth_error idxs i = Some k ->
    (k < List.length (position js))%nat
    /\ (i < List.length (open_gripper_joint_positions self))%nat
    /\ (i < List.length (open_tolerance self))%nat.

(** Joint [i] is further from its open position than its tolerance:
    [|position[index[i]] - open_positions[i]| > tolerance[i]]. *)
Definition joint_out_of_tolerance (self : MoveIt2Gripper) (js : JointState)
    (idxs : list nat) (i : nat) : Prop :=
  exists k p o t,
    nth_error idxs i = Some k
    /\ nth_error (position js) k = Some p
    /\ nth_error (open_gripper_joint_positions self) i = Some o
    /\ nth_error (open_tolerance self) i = Some t
    /\ (t <? abs (p - o))%float = true.

(** The joint positions an inherited call aims at, and whether the call goes
    to the execution path. *)
Definition call_target (c : BaseCall) : list float :=
  match c with
  | Call_move_to_configuration p => p
  | Call_send_goal_async_follow_joint_trajectory g _ =>
      traj_positions (trajectory g)
  | Call_reset_controller p _ => p
  end.

Definition is_dispatch_call (c : BaseCall) : bool :=
  match c with
  | Call_reset_controller _ _ => false
  | _ => true
  end.

Definition goal_target (g : Goal) : list float :=
  match g with
  | PlannedGoal p _ => p
  | FixedTrajectoryGoal g => traj_positions (trajectory g)
  end.

(** A snapshot the classifier can be evaluated on: every configured joint is
    named in it and every name has a position. *)
Definition covers (js : JointState) (self : MoveIt2Gripper) : Prop :=
  (forall n, In n (joint_names (base self)) -> In n (name js))
  /\ (List.length (name js) <= List.length (position js))%nat.

(** The commands among the events. *)
Definition is_command (ev : Event) : bool :=
  match ev with
  | E_open _ | E_close _ | E_toggle | E_call => true
  | _ => false
  end.

(** The commands that evaluate [is_open] before anything else: [open] and
    [close] do so only when [skip_if_noop] is set (lines 107 and 123),
    [toggle] and the call always (line 96). *)
Definition consults_classifier (ev : Event) : bool :=
  match ev with
  | E_open s | E_close s => s
  | E_toggle | E_call => true
  | _ => false
  end.

(** What no event changes: the configuration and the six pose attributes.
    Only the snapshot, the dispatcher's state and the index cache move. *)
Definition framed (self self' : MoveIt2Gripper) : Prop :=
  joint_names (base self') = joint_names (base self)
  /\ group_name (base self') = group_name (base self)
  /\ ignore_new_calls_while_executing (base self')
     = ignore_new_calls_while_executing (base self)
  /\ pose_attributes (base self') = pose_attributes (base self)
  /\ open_gripper_joint_positions self' = open_gripper_joint_positions self
  /\ closed_gripper_joint_positions self' = closed_gripper_joint_positions self
  /\ skip_planning self' = skip_planning self
  /\ open_dummy_trajectory_goal self' = open_dummy_trajectory_goal self
  /\ close_dummy_trajectory_goal self' = close_dummy_trajectory_goal self
  /\ open_tolerance self' = open_tolerance self.

(** The state of the base part after an inherited execution call: the call
    is logged, and the goal is dispatched if the gate admits it. *)
Definition after_call (call : BaseCall) (goal : Goal) (b : MoveIt2) : MoveIt2 :=
  if gate_admits b then dispatch goal (log_call call b) else log_call call b.

(** A command that takes [self] to [self'] dispatched a goal for [target]:
    it invoked an inherited execution operation aimed at [target]; the goal
    reached the backend, which is now [Dispatching], if the gate admitted it,
    and was dropped otherwise. *)
Definition dispatches (target : list float) (self self' : MoveIt2Gripper)
    : Prop :=
  exists call goal,
    is_dispatch_call call = true
    /\ call_target call = target
    /\ goal_target goal = target
    /\ requested (base self') = call :: requested (base self)
    /\ (gate_admits (base self) = true ->
        dispatched (base self') = goal :: dispatched (base self)
        /\ execution_state (base self') = Dispatching)
    /\ (gate_admits (base self) = false ->
        dispatched (base self') = dispatched (base self)
        /\ execution_state (base self') = execution_state (base self)).

(** What a dropped command leaves behind: nothing but the record that the
    inherited operation was invoked. *)
Definition dropped (b b' : MoveIt2) : Prop :=
  set_requested (requested b) b' = b.

(** ** Scenarios *)

Definition blank_gripper : MoveIt2Gripper :=
  mkMoveIt2Gripper (MoveIt2_init [] "" false false) [] [] false None None [] None.

Definition constructed (a : InitArgs) : MoveIt2Gripper :=
  match __init__ a with
  | Ok self => self
  | Raise _ => blank_gripper
  end.

(** The state after the feedback callback delivered [js]. *)
Definition with_snapshot (js : JointState) (self : MoveIt2Gripper)
    : MoveIt2Gripper :=
  snd (on_joint_state js self).

(** The state in which the dispatcher reports execution state [e]. *)
Definition in_execution_state (e : ExecutionState) (self : MoveIt2Gripper)
    : MoveIt2Gripper :=
  set_base (set_execution_state e (base self)) self.

(** One joint, open at 0 and closed at 1 (section 8 of the specification). *)
Definition scenario_args : InitArgs :=
  default_args ["j1"%string] [0%float] [1%float].

Definition scenario : MoveIt2Gripper := constructed scenario_args.

Definition snapshot_near : JointState := mkJointState ["j1"%string] [0.05%float].
Definition snapshot_far : JointState := mkJointState ["j1"%string] [0.5%float].

(** A snapshot that does not name the joint. *)
Definition snapshot_other : JointState := mkJointState ["j2"%string] [0.5%float].

(** Two joints; a first snapshot that lacks the second one, then a complete
    snapshot in which the second joint is far from open. *)
Definition two_joints : MoveIt2Gripper :=
  constructed (default_args ["j1"%string; "j2"%string]
                 [0%float; 0%float] [1%float; 1%float]).

Definition snapshot_first_only : JointState :=
  mkJointState ["j1"%string] [0%float].

Definition snapshot_both : JointState :=
  mkJointState ["j1"%string; "j2"%string] [0%float; 0.5%float].

(** The same joint with precomputed goals of 1.5 seconds, dropping
    overlapping calls. *)
Definition scenario_fixed_args : InitArgs :=
  mkInitArgs ["j1"%string] [0%float] [1%float] "LHand" false true true 1.5%float.

Definition scenario_fixed : MoveIt2Gripper := constructed scenario_fixed_args.

(** ** Vocabulary of the further properties *)

(** Joint [i] can be read and is within its tolerance. *)
Definition joint_within_tolerance (self : MoveIt2Gripper) (js : JointState)
    (idxs : list nat) (i : nat) : Prop :=
  exists k p o t,
    nth_error idxs i = Some k
    /\ nth_error (position js) k = Some p
    /\ nth_error (open_gripper_joint_positions self) i = Some o
    /\ nth_error (open_tolerance self) i = Some t
    /\ (t <? abs (p - o))%float = false.

(** Joint [i] has an index that the snapshot's positions do not reach. *)
Definition joint_unreadable (js : JointState) (idxs : list nat) (i : nat)
    : Prop :=
  exists k, nth_error idxs i = Some k
            /\ (List.length (position js) <= k)%nat.

(** The feedback callback, as opposed to everything a caller does. *)
Definition is_feedback (ev : Event) : bool :=
  match ev with
  | E_joint_state _ => true
  | _ => false
  end.

(** Two instances the classifier cannot tell apart. *)
Definition same_view (self self' : MoveIt2Gripper) : Prop :=
  joint_state (base self') = joint_state (base self)
  /\ joint_names (base self') = joint_names (base self)
  /\ gripper_joint_indices self' = gripper_joint_indices self
  /\ open_gripper_joint_positions self' = open_gripper_joint_positions self
  /\ open_tolerance self' = open_tolerance self.

(** The inherited call [open] or [close] makes for [target], as the
    construction arguments fix it (lines 110-115, 126-131, 153-165). *)
Definition planned_call (a : InitArgs) (target : list float) : result BaseCall :=
  if arg_skip_planning a then
    match split_duration (arg_skip_planning_fixed_motion_duration a) with
    | Ok (duration_sec, duration_nanosec) =>
      Ok (Call_send_goal_async_follow_joint_trajectory
            (dummy_trajectory_goal (arg_gripper_joint_names a) target
               duration_sec duration_nanosec) false)
    | Raise e => Raise e
    end
  else Ok (Call_move_to_configuration target).

(** A snapshot for the two-joint instance with the names the other way
    round, and one that is too short. *)
Definition snapshot_swapped : JointState :=
  mkJointState ["j2"%string; "j1"%string] [0%float; 0.5%float].

Definition snapshot_short : JointState :=
  mkJointState ["j1"%string; "j2"%string] [0.5%float].

Definition snapshot_duplicated : JointState :=
  mkJointState ["j2"%string; "j1"%string; "j1"%string]
               [0%float; 0%float; 0.5%float].

(** A gripper without joints. *)
Definition no_joints_args : InitArgs := default_args [] [] [].

(** The single joint reported at its closed position, and as NaN. *)
Definition snapshot_closed : JointState := mkJointState ["j1"%string] [1%float].

Definition snapshot_nan : JointState := mkJointState ["j1"%string] [nan].

(** The two-joint instance after a first snapshot that lacks the second
    joint, a classification (whose lookup raises), and a complete snapshot in
    which the second joint is far from open. *)
Definition after_failed_lookup : MoveIt2Gripper :=
  run [E_joint_state snapshot_first_only; E_is_open; E_joint_state snapshot_both]
      two_joints.

(** A snapshot that names both joints but carries one position only. *)
Definition snapshot_truncated : JointState :=
  mkJointState ["j1"%string; "j2"%string] [0%float].

(** The instance that drops overlapping calls, executing a goal while its
    snapshot does not name the joint. *)
Definition busy_without_joint : MoveIt2Gripper :=
  run [E_joint_state snapshot_other; E_open false; E_backend GoalAccepted]
      scenario_fixed.

(** * Properties *)

Unset Implicit Arguments.

(** ** Lists *)

Lemma index_Some x l k :
  index x l = Some k -> nth_error l k = Some x /\ (k < List.length l)%nat.
Proof.
  revert k; induction l as [|y l IH]; simpl; intros k H; [discriminate|].
  destruct (String.eqb y x) eqn:E.
  - injection H as <-. apply String.eqb_eq in E. subst. simpl. split; [reflexivity|lia].
  - destruct (index x l) as [j|] eqn:Ej; [|discriminate].
    injection H as <-. destruct (IH j eq_refl) as [H1 H2]. simpl. split; [assumption|lia].
Qed.

Lemma index_None x l : index x l = None <-> ~ In x l.
Proof.
  induction l as [|y l IH]; simpl.
  - split; [intros _ []|reflexivity].
  - destruct (String.eqb y x) eqn:E.
    + apply String.eqb_eq in E. split; [discriminate|]. intros H. exfalso. apply H. now left.
    + apply String.eqb_neq in E. destruct (index x l); simpl.
      * split; [discriminate|]. intros H. exfalso.
        assert (Hn : ~ In x l) by (intros Hi; apply H; now right).
        apply IH in Hn. discriminate.
      * split; [|reflexivity]. intros _ [H|H]; [congruence|].
        now apply (proj1 IH).
Qed.

Lemma index_In x l : In x l -> exists k, index x l = Some k.
Proof.
  intros H. destruct (index x l) as [k|] eqn:E; [eauto|].
  apply index_None in E. contradiction.
Qed.

Lemma index_first x l : forall k,
  index x l = Some k -> forall j, (j < k)%nat -> nth_error l j <> Some x.
Proof.
  induction l as [|y l IH]; simpl; intros k H j Hj; [discriminate|].
  destruct (String.eqb y x) eqn:E.
  - injection H as <-. lia.
  - destruct (index x l) as [k'|] eqn:Ek; [|discriminate].
    injection H as <-. destruct j as [|j]; simpl.
    + intros Hy. injection Hy as ->. rewrite String.eqb_refl in E. discriminate.
    + apply (IH k' eq_refl). lia.
Qed.

(** ** The index lookup *)

Lemma find_joint_indices_ok names js : forall acc r u,
  find_joint_indices names js acc = (Ok u, r) ->
  exists idxs, r = acc ++ idxs /\ Forall2 (indexed_in js) names idxs.
Proof.
  induction names as [|n names IH]; simpl; intros acc r u H.
  - injection H as _ <-. exists []. rewrite app_nil_r. split; [reflexivity|constructor].
  - destruct (index n (name js)) as [k|] eqn:E; [|discriminate].
    destruct (IH _ _ _ H) as (idxs & -> & HF).
    exists (k :: idxs). rewrite <- app_assoc. split; [reflexivity|].
    constructor; assumption.
Qed.

Lemma find_joint_indices_raise names js : forall acc r e,
  find_joint_indices names js acc = (Raise e, r) ->
  e = ValueError /\ exists n, In n names /\ ~ In n (name js).
Proof.
  induction names as [|n names IH]; simpl; intros acc r e H; [discriminate|].
  destruct (index n (name js)) as [k|] eqn:E.
  - destruct (IH _ _ _ H) as (-> & m & Hm & Hn).
    split; [reflexivity|]. exists m. split; [now right|assumption].
  - injection H as <- _. split; [reflexivity|].
    exists n. split; [now left|]. now apply index_None.
Qed.

Lemma find_joint_indices_covered names js : forall acc,
  (forall n, In n names -> In n (name js)) ->
  exists idxs, find_joint_indices names js acc = (Ok tt, acc ++ idxs)
               /\ Forall2 (indexed_in js) names idxs.
Proof.
  induction names as [|n names IH]; simpl; intros acc H.
  - exists []. rewrite app_nil_r. split; [reflexivity|constructor].
  - destruct (index_In n (name js)) as [k E]; [apply H; now left|].
    rewrite E. destruct (IH (acc ++ [k])) as (idxs & Hf & HF).
    { intros m Hm. apply H. now right. }
    exists (k :: idxs). rewrite Hf, <- app_assoc. split; [reflexivity|].
    constructor; assumption.
Qed.

Lemma find_joint_indices_missing names js : forall acc,
  (exists n, In n names /\ ~ In n (name js)) ->
  exists r, find_joint_indices names js acc = (Raise ValueError, r).
Proof.
  intros acc H.
  destruct (find_joint_indices names js acc) as [[u|e] r] eqn:E.
  - exfalso. destruct (find_joint_indices_ok _ _ _ _ _ E) as (idxs & _ & HF).
    destruct H as (n & Hn & Hnot).
    clear E. induction HF as [|m k ns ks Hmk HF IH]; [contradiction|].
    destruct Hn as [->|Hn]; [|now apply IH].
    apply Hnot. unfold indexed_in in Hmk.
    destruct (index_Some _ _ _ Hmk) as [Hnth _]. eapply nth_error_In; eassumption.
  - destruct (find_joint_indices_raise _ _ _ _ _ E) as [-> _]. eauto.
Qed.

Lemma Forall2_indexed_in_nth js names idxs :
  Forall2 (indexed_in js) names idxs ->
  List.length idxs = List.length names
  /\ forall i k, nth_error idxs i = Some k ->
       exists n, nth_error names i = Some n /\ nth_error (name js) k = Some n
                 /\ (k < List.length (name js))%nat.
Proof.
  induction 1 as [|n k names idxs Hnk HF [IHl IHn]]; simpl.
  - split; [reflexivity|]. intros [|i] k H; discriminate.
  - split; [now f_equal|]. intros [|i] k' H; simpl in *.
    + injection H as <-. exists n. destruct (index_Some _ _ _ Hnk). auto.
    + now apply IHn.
Qed.

(** ** The classification loop *)

Lemma getitem_lt {A} (l : list A) i :
  (i < List.length l)%nat -> exists a, getitem l i = Ok a /\ nth_error l i = Some a.
Proof.
  intros H. unfold getitem. destruct (nth_error l i) as [a|] eqn:E; [eauto|].
  apply nth_error_None in E. lia.
Qed.

Lemma within_open_tolerance_spec positions opens tolerances idxs : forall i0,
  (forall j k, nth_error idxs j = Some k ->
     (k < List.length positions)%nat /\ (i0 + j < List.length opens)%nat
     /\ (i0 + j < List.length tolerances)%nat) ->
  exists b, within_open_tolerance i0 idxs positions opens tolerances = Ok b
    /\ (b = false <->
        exists j k p o t,
          nth_error idxs j = Some k /\ nth_error positions k = Some p
          /\ nth_error opens (i0 + j) = Some o
          /\ nth_error tolerances (i0 + j) = Some t
          /\ (t <? abs (p - o))%float = true).
Proof.
  induction idxs as [|k idxs IH]; intros i0 H.
  - exists true. split; [reflexivity|]. split; [discriminate|].
    intros (j & k & _ & _ & _ & Hj & _). destruct j; discriminate.
  - destruct (H 0%nat k eq_refl) as (Hk & Ho & Ht).
    rewrite Nat.add_0_r in Ho, Ht.
    destruct (getitem_lt positions _ Hk) as (p & Gp & Np).
    destruct (getitem_lt opens _ Ho) as (o & Go & No).
    destruct (getitem_lt tolerances _ Ht) as (t & Gt & Nt).
    simpl. rewrite Gp, Go, Gt.
    destruct (out_of_tolerance p o t) eqn:E.
    + exists false. split; [reflexivity|]. split; [|reflexivity]. intros _.
      exists 0%nat, k, p, o, t. rewrite Nat.add_0_r. auto.
    + destruct (IH (S i0)) as (b & Hb & Hiff).
      { intros j k' Hj. specialize (H (S j) k' Hj).
        rewrite Nat.add_succ_r in H. exact H. }
      exists b. split; [exact Hb|]. rewrite Hiff. split.
      * intros (j & k' & p' & o' & t' & H1 & H2 & H3 & H4 & H5).
        exists (S j), k', p', o', t'. rewrite Nat.add_succ_r. auto.
      * intros (j & k' & p' & o' & t' & H1 & H2 & H3 & H4 & H5).
        destruct j as [|j].
        -- simpl in H1. injection H1 as <-. rewrite Nat.add_0_r in H3, H4.
           unfold out_of_tolerance in E. congruence.
        -- exists j, k', p', o', t'. rewrite Nat.add_succ_r in H3, H4. auto.
Qed.

Lemma within_open_tolerance_raise positions opens tolerances idxs : forall i0 e,
  within_open_tolerance i0 idxs positions opens tolerances = Raise e ->
  e = IndexError.
Proof.
  induction idxs as [|k idxs IH]; simpl; intros i0 e H; [discriminate|].
  unfold getitem in H.
  destruct (nth_error positions k); [|congruence].
  destruct (nth_error opens i0); [|congruence].
  destruct (nth_error tolerances i0); [|congruence].
  destruct (out_of_tolerance _ _ _); [discriminate|]. eapply IH; eassumption.
Qed.

(** ** The classifier *)

Lemma is_open_no_snapshot self :
  joint_state (base self) = None -> is_open self = (Ok true, self).
Proof. intros H. unfold is_open. now rewrite H. Qed.

Lemma is_open_unfold self js :
  joint_state (base self) = Some js ->
  is_open self =
  match index_map self js with
  | Some idxs =>
      (within_open_tolerance 0 idxs (position js)
         (open_gripper_joint_positions self) (open_tolerance self),
       set_gripper_joint_indices (Some idxs) self)
  | None =>
      (Raise ValueError,
       set_gripper_joint_indices
         (Some (snd (find_joint_indices (joint_names (base self)) js []))) self)
  end.
Proof.
  intros H. unfold is_open, bind, resolve_joint_indices, index_map. rewrite H.
  destruct (gripper_joint_indices self) as [idxs|] eqn:C.
  - simpl. destruct self; simpl in *. now subst.
  - destruct (find_joint_indices _ js []) as [[u|e] acc] eqn:F; simpl.
    + reflexivity.
    + destruct (find_joint_indices_raise _ _ _ _ _ F) as [-> _]. reflexivity.
Qed.

Lemma is_open_base self : base (snd (is_open self)) = base self.
Proof.
  destruct (joint_state (base self)) as [js|] eqn:J.
  - rewrite (is_open_unfold _ _ J). now destruct (index_map self js).
  - now rewrite is_open_no_snapshot.
Qed.

Lemma is_open_private self :
  let self' := snd (is_open self) in
  open_gripper_joint_positions self' = open_gripper_joint_positions self
  /\ closed_gripper_joint_positions self' = closed_gripper_joint_positions self
  /\ skip_planning self' = skip_planning self
  /\ open_dummy_trajectory_goal self' = open_dummy_trajectory_goal self
  /\ close_dummy_trajectory_goal self' = close_dummy_trajectory_goal self
  /\ open_tolerance self' = open_tolerance self.
Proof.
  destruct (joint_state (base self)) as [js|] eqn:J.
  - rewrite (is_open_unfold _ _ J). destruct (index_map self js); simpl; repeat split.
  - rewrite is_open_no_snapshot by assumption. simpl. repeat split.
Qed.

(** Once [is_open] has returned, asking again on the same snapshot gives the
    same answer and changes nothing. *)
Lemma is_open_again self b self' :
  is_open self = (Ok b, self') -> is_open self' = (Ok b, self').
Proof.
  intros H. destruct (joint_state (base self)) as [js|] eqn:J.
  - rewrite (is_open_unfold _ _ J) in H.
    destruct (index_map self js) as [idxs|]; [|discriminate].
    injection H as Hb <-.
    rewrite (is_open_unfold (set_gripper_joint_indices (Some idxs) self) _ J).
    unfold index_map. simpl. now rewrite Hb.
  - rewrite is_open_no_snapshot in H by assumption. injection H as <- <-.
    now apply is_open_no_snapshot.
Qed.

(** C9.  On the first call that sees a snapshot (empty cache), [is_open]
    raises the lookup's [ValueError] exactly when some configured joint name
    is missing from the snapshot's names; when every configured name is
    present (and every name has a position, on a constructed instance) it
    returns a classification. *)
Theorem is_open_lookup_precondition self js :
  joint_state (base self) = Some js ->
  gripper_joint_indices self = None ->
  (fst (is_open self) = Raise ValueError
   <-> exists n, In n (joint_names (base self)) /\ ~ In n (name js))
  /\ ((forall n, In n (joint_names (base self)) -> In n (name js)) ->
      fst (is_open self) <> Raise ValueError)
  /\ (well_formed self -> covers js self -> exists b, fst (is_open self) = Ok b).
Proof.
  intros J C.
  assert (U := is_open_unfold self js J). unfold index_map in U. rewrite C in U.
  assert (Hiff : fst (is_open self) = Raise ValueError
                 <-> exists n, In n (joint_names (base self)) /\ ~ In n (name js)).
  { split.
    - intros H.
      destruct (find_joint_indices (joint_names (base self)) js []) as [[u|e] r] eqn:F.
      + rewrite U in H. simpl in H.
        apply within_open_tolerance_raise in H. discriminate.
      + now destruct (find_joint_indices_raise _ _ _ _ _ F).
    - intros H. destruct (find_joint_indices_missing _ js [] H) as [r F].
      rewrite U, F. reflexivity. }
  split; [exact Hiff|]. split.
  - intros Hall H. apply Hiff in H. destruct H as (n & Hn & Hnot).
    apply Hnot, Hall, Hn.
  - intros WF [Hall Hlen].
    destruct (find_joint_indices_covered _ js [] Hall) as (idxs & F & HF).
    rewrite U, F. simpl.
    destruct (Forall2_indexed_in_nth _ _ _ HF) as [Hl Hn].
    destruct (within_open_tolerance_spec (position js)
                (open_gripper_joint_positions self) (open_tolerance self) idxs 0)
      as (b & Hb & _).
    { intros j k Hj. simpl. destruct (Hn j k Hj) as (n & _ & _ & Hk).
      assert (Hj' : (j < List.length idxs)%nat)
        by (apply nth_error_Some; congruence).
      rewrite (wf_tolerance WF). unfold open_tolerance_of.
      rewrite length_map, length_combine, (wf_open_length WF), (wf_closed_length WF).
      lia. }
    exists b. exact Hb.
Qed.

Lemma is_open_lookup_precondition_witness :
  (fst (is_open (with_snapshot snapshot_other scenario)) = Raise ValueError
   <-> exists n, In n ["j1"%string] /\ ~ In n ["j2"%string])
  /\ ((forall n, In n ["j1"%string] -> In n ["j2"%string]) ->
      fst (is_open (with_snapshot snapshot_other scenario)) <> Raise ValueError)
  /\ (well_formed (with_snapshot snapshot_other scenario) ->
      covers snapshot_other (with_snapshot snapshot_other scenario) ->
      exists b, fst (is_open (with_snapshot snapshot_other scenario)) = Ok b).
Proof.
  apply (is_open_lookup_precondition (with_snapshot snapshot_other scenario)
           snapshot_other); reflexivity.
Defined.

(** A lookup that failed leaves the indices found so far in the cache, and
    later calls use that shorter list: here the second joint is out of
    tolerance in the complete snapshot, yet the classifier, which now looks
    at the first joint only, says open. *)
Example cache_after_failed_lookup :
  let s1 := with_snapshot snapshot_first_only two_joints in
  let s2 := with_snapshot snapshot_both (snd (is_open s1)) in
  fst (is_open s1) = Raise ValueError
  /\ gripper_joint_indices (snd (is_open s1)) = Some [0%nat]
  /\ fst (is_open s2) = Ok true
  /\ fst (is_open (with_snapshot snapshot_both two_joints)) = Ok false.
Proof. repeat split; reflexivity. Qed.

(** C4.  In every state, with or without a snapshot, [is_closed] ends in the
    same state as [is_open] and returns the negation of what [is_open]
    returns (raising when it raises); asked one after the other on the same
    snapshot, the two properties return opposite booleans. *)
Theorem is_closed_negates_is_open self :
  is_closed self = (map_result negb (fst (is_open self)), snd (is_open self))
  /\ (joint_state (base self) = None -> fst (is_closed self) = Ok false)
  /\ (forall b self', is_open self = (Ok b, self') ->
        is_closed self' = (Ok (negb b), self')).
Proof.
  assert (H : forall s, is_closed s
                = (map_result negb (fst (is_open s)), snd (is_open s))).
  { intros s. unfold is_closed, bind, ret.
    destruct (is_open s) as [[b|e] s']; reflexivity. }
  split; [apply H|]. split.
  - intros J. rewrite H, (is_open_no_snapshot _ J). reflexivity.
  - intros b self' E. rewrite H, (is_open_again _ _ _ E). reflexivity.
Qed.

Lemma is_closed_negates_is_open_witness :
  is_closed (with_snapshot snapshot_far scenario)
  = (map_result negb (fst (is_open (with_snapshot snapshot_far scenario))),
     snd (is_open (with_snapshot snapshot_far scenario)))
  /\ fst (is_closed scenario) = Ok false
  /\ is_closed (snd (is_open (with_snapshot snapshot_far scenario)))
     = (Ok true, snd (is_open (with_snapshot snapshot_far scenario))).
Proof.
  split; [|split].
  - apply (proj1 (is_closed_negates_is_open _)).
  - apply (proj1 (proj2 (is_closed_negates_is_open scenario))). reflexivity.
  - apply (proj2 (proj2 (is_closed_negates_is_open
                           (with_snapshot snapshot_far scenario))) false).
    reflexivity.
Defined.

(** ** Construction *)

Lemma init_ok_inv a self :
  __init__ a = Ok self ->
  List.length (arg_gripper_joint_names a)
  = List.length (arg_open_gripper_joint_positions a)
  /\ List.length (arg_gripper_joint_names a)
     = List.length (arg_closed_gripper_joint_positions a)
  /\ base self = del_redundant_attributes
                   (MoveIt2_init (arg_gripper_joint_names a)
                      (arg_gripper_group_name a) (arg_execute_via_moveit a)
                      (arg_ignore_new_calls_while_executing a))
  /\ open_gripper_joint_positions self = arg_open_gripper_joint_positions a
  /\ closed_gripper_joint_positions self = arg_closed_gripper_joint_positions a
  /\ skip_planning self = arg_skip_planning a
  /\ open_tolerance self
     = open_tolerance_of (arg_open_gripper_joint_positions a)
                         (arg_closed_gripper_joint_positions a)
  /\ gripper_joint_indices self = None
  /\ (arg_skip_planning a = true ->
      exists s n,
        split_duration (arg_skip_planning_fixed_motion_duration a) = Ok (s, n)
        /\ open_dummy_trajectory_goal self
           = Some (dummy_trajectory_goal (arg_gripper_joint_names a)
                     (arg_open_gripper_joint_positions a) s n)
        /\ close_dummy_trajectory_goal self
           = Some (dummy_trajectory_goal (arg_gripper_joint_names a)
                     (arg_closed_gripper_joint_positions a) s n)).
Proof.
  unfold __init__. intros H.
  destruct (Nat.eqb _ _) eqn:E1; [|discriminate].
  destruct (Nat.eqb (List.length (arg_gripper_joint_names a))
              (List.length (arg_closed_gripper_joint_positions a))) eqn:E2;
    [|discriminate].
  apply Nat.eqb_eq in E1, E2. simpl in H.
  destruct (arg_skip_planning a) eqn:S.
  - destruct (split_duration _) as [[s n]|e] eqn:D; [|discriminate].
    injection H as <-. simpl. repeat (split; [first [assumption|reflexivity]|]).
    intros _. exists s, n. auto.
  - injection H as <-. simpl. repeat (split; [first [assumption|reflexivity]|]).
    discriminate.
Qed.

Lemma init_well_formed a self : __init__ a = Ok self -> well_formed self.
Proof.
  intros H. destruct (init_ok_inv _ _ H)
    as (L1 & L2 & B & O & C & S & T & _ & G).
  constructor.
  - rewrite O, B. simpl. now symmetry.
  - rewrite C, B. simpl. now symmetry.
  - now rewrite T, O, C.
  - rewrite S. intros Hs. destruct (G Hs) as (s & n & _ & Ho & _).
    exists s, n. rewrite Ho, O, B. reflexivity.
  - rewrite S. intros Hs. destruct (G Hs) as (s & n & _ & _ & Hc).
    exists s, n. rewrite Hc, C, B. reflexivity.
Qed.

(** C2.  Construction returns an instance only when the three lists have the
    same length; with any length mismatch it raises [ValueError] and no
    instance exists.  (With equal lengths and planning enabled it does
    return one.) *)
Theorem init_length_validation a :
  (forall self, __init__ a = Ok self ->
     List.length (arg_gripper_joint_names a)
     = List.length (arg_open_gripper_joint_positions a)
     /\ List.length (arg_gripper_joint_names a)
        = List.length (arg_closed_gripper_joint_positions a))
  /\ (List.length (arg_gripper_joint_names a)
      <> List.length (arg_open_gripper_joint_positions a)
      \/ List.length (arg_gripper_joint_names a)
         <> List.length (arg_closed_gripper_joint_positions a) ->
      __init__ a = Raise ValueError)
  /\ (List.length (arg_gripper_joint_names a)
      = List.length (arg_open_gripper_joint_positions a) ->
      List.length (arg_gripper_joint_names a)
      = List.length (arg_closed_gripper_joint_positions a) ->
      arg_skip_planning a = false ->
      exists self, __init__ a = Ok self).
Proof.
  split; [|split].
  - intros self H. destruct (init_ok_inv _ _ H) as (L1 & L2 & _). now split.
  - intros H. unfold __init__.
    destruct (Nat.eqb _ _) eqn:E1; [|reflexivity].
    destruct (Nat.eqb (List.length (arg_gripper_joint_names a))
                (List.length (arg_closed_gripper_joint_positions a))) eqn:E2;
      [|reflexivity].
    apply Nat.eqb_eq in E1, E2. destruct H; contradiction.
  - intros L1 L2 S. unfold __init__.
    rewrite <- L1, <- L2, !Nat.eqb_refl, S. simpl. eauto.
Qed.

Lemma init_length_validation_witness :
  __init__ (default_args ["j1"%string; "j2"%string] [0%float] [1%float; 1%float])
  = Raise ValueError
  /\ exists self, __init__ scenario_args = Ok self.
Proof.
  split.
  - apply (proj1 (proj2 (init_length_validation
             (default_args ["j1"%string; "j2"%string] [0%float] [1%float; 1%float])))).
    left. simpl. lia.
  - apply (proj2 (proj2 (init_length_validation scenario_args))); reflexivity.
Defined.

Lemma open_tolerance_of_nth opens closeds : forall i o c,
  nth_error opens i = Some o -> nth_error closeds i = Some c ->
  nth_error (open_tolerance_of opens closeds) i = Some (0.1 * abs (o - c))%float.
Proof.
  unfold open_tolerance_of.
  revert closeds; induction opens as [|o' opens IH]; intros [|c' closeds] [|i] o c Ho Hc;
    simpl in *; try discriminate.
  - injection Ho as <-. injection Hc as <-. reflexivity.
  - now apply IH.
Qed.

(** C3.  On a constructed instance the tolerance list has one entry per
    joint and entry [i] is [0.1 * |open[i] - closed[i]|].  For the joint
    ["j1"] with open 0.0 and closed 1.0 the tolerance is [0.1]; at position
    0.05 [is_open] is true; at position 0.5 [is_open] is false and
    [is_closed] is true. *)
Theorem open_tolerance_derived :
  (forall a self, __init__ a = Ok self ->
     List.length (open_tolerance self) = List.length (joint_names (base self))
     /\ forall i o c,
          nth_error (open_gripper_joint_positions self) i = Some o ->
          nth_error (closed_gripper_joint_positions self) i = Some c ->
          nth_error (open_tolerance self) i = Some (0.1 * abs (o - c))%float)
  /\ __init__ scenario_args = Ok scenario
  /\ open_tolerance scenario = [0.1%float]
  /\ fst (is_open (with_snapshot snapshot_near scenario)) = Ok true
  /\ fst (is_open (with_snapshot snapshot_far scenario)) = Ok false
  /\ fst (is_closed (with_snapshot snapshot_far scenario)) = Ok true.
Proof.
  split.
  - intros a self H. assert (WF := init_well_formed _ _ H). split.
    + rewrite (wf_tolerance WF). unfold open_tolerance_of.
      rewrite length_map, length_combine, (wf_open_length WF), (wf_closed_length WF).
      apply Nat.min_id.
    + intros i o c Ho Hc. rewrite (wf_tolerance WF).
      now apply open_tolerance_of_nth.
  - repeat split; reflexivity.
Qed.

Lemma open_tolerance_derived_witness :
  List.length (open_tolerance scenario) = List.length (joint_names (base scenario))
  /\ nth_error (open_tolerance scenario) 0 = Some (0.1 * abs (0 - 1))%float.
Proof.
  destruct (proj1 open_tolerance_derived scenario_args scenario eq_refl) as [L N].
  split; [exact L|]. apply N; reflexivity.
Defined.

(** ** Commands *)

Lemma framed_refl self : framed self self.
Proof. unfold framed. repeat split. Qed.

Lemma framed_trans s1 s2 s3 : framed s1 s2 -> framed s2 s3 -> framed s1 s3.
Proof. unfold framed. intros H1 H2. intuition congruence. Qed.

Lemma framed_well_formed self self' :
  framed self self' -> well_formed self -> well_formed self'.
Proof.
  intros (N & _ & _ & _ & O & C & S & OG & CG & T) [L1 L2 HT H1 H2].
  constructor; rewrite ?N, ?O, ?C, ?S, ?OG, ?CG, ?T; assumption.
Qed.

Lemma is_open_framed self : framed self (snd (is_open self)).
Proof.
  unfold framed. rewrite is_open_base.
  destruct (is_open_private self) as (H1 & H2 & H3 & H4 & H5 & H6).
  repeat split; assumption.
Qed.

Lemma is_closed_eq self :
  is_closed self = (map_result negb (fst (is_open self)), snd (is_open self)).
Proof.
  unfold is_closed, bind, ret. destruct (is_open self) as [[b|e] s']; reflexivity.
Qed.

Lemma gate_admits_log_call c b : gate_admits (log_call c b) = gate_admits b.
Proof. reflexivity. Qed.

Ltac frame_tac :=
  unfold framed, after_call, dispatch, log_call, set_base; simpl; repeat split.

Lemma open_action_spec self :
  well_formed self ->
  exists call goal,
    is_dispatch_call call = true
    /\ call_target call = open_gripper_joint_positions self
    /\ goal_target goal = open_gripper_joint_positions self
    /\ open_action self = (Ok tt, set_base (after_call call goal (base self)) self).
Proof.
  intros WF. unfold open_action. destruct (skip_planning self) eqn:S.
  - destruct (wf_open_goal WF S) as (s & n & G).
    exists (Call_send_goal_async_follow_joint_trajectory
              (dummy_trajectory_goal (joint_names (base self))
                 (open_gripper_joint_positions self) s n) false),
           (FixedTrajectoryGoal
              (dummy_trajectory_goal (joint_names (base self))
                 (open_gripper_joint_positions self) s n)).
    unfold open_without_planning, bind, getattr,
      _send_goal_async_follow_joint_trajectory, after_call. rewrite G.
    rewrite gate_admits_log_call. repeat split.
    destruct (gate_admits (base self)); reflexivity.
  - exists (Call_move_to_configuration (open_gripper_joint_positions self)),
           (PlannedGoal (open_gripper_joint_positions self) (group_name (base self))).
    unfold move_to_configuration, after_call.
    rewrite gate_admits_log_call. change (joint_names (log_call _ ?b)) with (joint_names b).
    rewrite (wf_open_length WF), Nat.eqb_refl. repeat split.
    destruct (gate_admits (base self)); reflexivity.
Qed.

Lemma close_action_spec self :
  well_formed self ->
  exists call goal,
    is_dispatch_call call = true
    /\ call_target call = closed_gripper_joint_positions self
    /\ goal_target goal = closed_gripper_joint_positions self
    /\ close_action self = (Ok tt, set_base (after_call call goal (base self)) self).
Proof.
  intros WF. unfold close_action. destruct (skip_planning self) eqn:S.
  - destruct (wf_close_goal WF S) as (s & n & G).
    exists (Call_send_goal_async_follow_joint_trajectory
              (dummy_trajectory_goal (joint_names (base self))
                 (closed_gripper_joint_positions self) s n) false),
           (FixedTrajectoryGoal
              (dummy_trajectory_goal (joint_names (base self))
                 (closed_gripper_joint_positions self) s n)).
    unfold close_without_planning, bind, getattr,
      _send_goal_async_follow_joint_trajectory, after_call. rewrite G.
    rewrite gate_admits_log_call. repeat split.
    destruct (gate_admits (base self)); reflexivity.
  - exists (Call_move_to_configuration (closed_gripper_joint_positions self)),
           (PlannedGoal (closed_gripper_joint_positions self) (group_name (base self))).
    unfold move_to_configuration, after_call.
    rewrite gate_admits_log_call. change (joint_names (log_call _ ?b)) with (joint_names b).
    rewrite (wf_closed_length WF), Nat.eqb_refl. repeat split.
    destruct (gate_admits (base self)); reflexivity.
Qed.

(** Without the invariant the two actions may raise, but they still touch
    nothing outside the dispatcher. *)
Lemma open_action_framed self : framed self (snd (open_action self)).
Proof.
  unfold open_action, open_without_planning, bind, getattr,
    _send_goal_async_follow_joint_trajectory, move_to_configuration.
  destruct (skip_planning self).
  - destruct (open_dummy_trajectory_goal self); simpl; [|apply framed_refl].
    destruct (gate_admits _); frame_tac.
  - destruct (gate_admits _); [destruct (Nat.eqb _ _)|]; frame_tac.
Qed.

Lemma close_action_framed self : framed self (snd (close_action self)).
Proof.
  unfold close_action, close_without_planning, bind, getattr,
    _send_goal_async_follow_joint_trajectory, move_to_configuration.
  destruct (skip_planning self).
  - destruct (close_dummy_trajectory_goal self); simpl; [|apply framed_refl].
    destruct (gate_admits _); frame_tac.
  - destruct (gate_admits _); [destruct (Nat.eqb _ _)|]; frame_tac.
Qed.

Lemma open_framed s self : framed self (snd (open s self)).
Proof.
  destruct s; simpl; [|apply open_action_framed].
  unfold bind. assert (F := is_open_framed self).
  destruct (is_open self) as [[[|]|e] self']; simpl in *; try assumption.
  eapply framed_trans; [exact F|apply open_action_framed].
Qed.

Lemma close_framed s self : framed self (snd (close s self)).
Proof.
  destruct s; simpl; [|apply close_action_framed].
  unfold bind. rewrite is_closed_eq. assert (F := is_open_framed self).
  destruct (is_open self) as [[[|]|e] self']; simpl in *; try assumption.
  eapply framed_trans; [exact F|apply close_action_framed].
Qed.

Lemma toggle_framed self : framed self (snd (toggle self)).
Proof.
  unfold toggle, bind. assert (F := is_open_framed self).
  destruct (is_open self) as [[[|]|e] self']; simpl in *; try assumption;
    (eapply framed_trans; [exact F|]).
  - apply (close_framed false).
  - apply (open_framed false).
Qed.

Lemma perform_framed ev self : framed self (snd (perform ev self)).
Proof.
  destruct ev; simpl.
  - apply open_framed.
  - apply close_framed.
  - apply toggle_framed.
  - apply toggle_framed.
  - frame_tac.
  - frame_tac.
  - unfold discard. assert (F := is_open_framed self).
    destruct (is_open self); exact F.
  - unfold discard. rewrite is_closed_eq. apply is_open_framed.
  - frame_tac.
  - frame_tac.
Qed.

Lemma run_framed evs : forall self, framed self (run evs self).
Proof.
  induction evs as [|ev evs IH]; intros self; simpl.
  - apply framed_refl.
  - eapply framed_trans; [apply perform_framed|apply IH].
Qed.

Lemma run_well_formed a self evs :
  __init__ a = Ok self -> well_formed (run evs self).
Proof.
  intros H. eapply framed_well_formed; [apply run_framed|].
  eapply init_well_formed; eassumption.
Qed.

Lemma after_call_dispatches target call goal self :
  is_dispatch_call call = true ->
  call_target call = target ->
  goal_target goal = target ->
  forall self0, base self0 = base self ->
  dispatches target self0 (set_base (after_call call goal (base self)) self).
Proof.
  intros H1 H2 H3 self0 E. exists call, goal. rewrite E.
  unfold after_call. repeat split; try assumption.
  - destruct (gate_admits (base self)); reflexivity.
  - rewrite H. reflexivity.
  - rewrite H. reflexivity.
  - rewrite H. reflexivity.
  - rewrite H. reflexivity.
Qed.

Lemma open_action_dispatches self self0 :
  well_formed self -> base self0 = base self ->
  fst (open_action self) = Ok tt
  /\ dispatches (open_gripper_joint_positions self) self0 (snd (open_action self)).
Proof.
  intros WF E. destruct (open_action_spec self WF) as (call & goal & H1 & H2 & H3 & H4).
  rewrite H4. split; [reflexivity|]. now apply after_call_dispatches.
Qed.

Lemma close_action_dispatches self self0 :
  well_formed self -> base self0 = base self ->
  fst (close_action self) = Ok tt
  /\ dispatches (closed_gripper_joint_positions self) self0 (snd (close_action self)).
Proof.
  intros WF E. destruct (close_action_spec self WF) as (call & goal & H1 & H2 & H3 & H4).
  rewrite H4. split; [reflexivity|]. now apply after_call_dispatches.
Qed.

Lemma is_open_well_formed self : well_formed self -> well_formed (snd (is_open self)).
Proof. apply framed_well_formed, is_open_framed. Qed.

(** C5.  On an instance whose classifier says open, [open(skip_if_noop=True)]
    returns without invoking anything: the base part is untouched.  When the
    classifier says not open it dispatches the open goal.
    [open(skip_if_noop=False)] does not consult the classifier and dispatches
    the open goal in every state.  [close] is the same with [is_closed] and
    the closed positions. *)
Theorem skip_if_noop_gates_open_and_close self :
  well_formed self ->
  (fst (is_open self) = Ok true ->
     open true self = (Ok tt, snd (is_open self))
     /\ base (snd (open true self)) = base self)
  /\ (fst (is_open self) = Ok false ->
      fst (open true self) = Ok tt
      /\ dispatches (open_gripper_joint_positions self) self (snd (open true self)))
  /\ (fst (open false self) = Ok tt
      /\ gripper_joint_indices (snd (open false self)) = gripper_joint_indices self
      /\ dispatches (open_gripper_joint_positions self) self (snd (open false self)))
  /\ (fst (is_closed self) = Ok true ->
      close true self = (Ok tt, snd (is_closed self))
      /\ base (snd (close true self)) = base self)
  /\ (fst (is_closed self) = Ok false ->
      fst (close true self) = Ok tt
      /\ dispatches (closed_gripper_joint_positions self) self (snd (close true self)))
  /\ (fst (close false self) = Ok tt
      /\ gripper_joint_indices (snd (close false self)) = gripper_joint_indices self
      /\ dispatches (closed_gripper_joint_positions self) self (snd (close false self))).
Proof.
  intros WF.
  assert (WF' := is_open_well_formed self WF).
  assert (B := is_open_base self).
  destruct (is_open_private self) as (PO & PC & _).
  refine (conj _ (conj _ (conj _ (conj _ (conj _ _))))).
  - intros H. simpl. unfold bind. destruct (is_open self) as [[b|e] s'];
      simpl in *; [|discriminate]. injection H as ->. simpl. auto.
  - intros H. simpl. unfold bind. destruct (is_open self) as [[b|e] s'];
      simpl in *; [|discriminate]. injection H as ->.
    rewrite <- PO. apply open_action_dispatches; [assumption|now symmetry].
  - destruct (open_action_spec self WF) as (c & g & _ & _ & _ & E).
    split; [|split].
    + exact (proj1 (open_action_dispatches self self WF eq_refl)).
    + simpl. rewrite E. reflexivity.
    + exact (proj2 (open_action_dispatches self self WF eq_refl)).
  - rewrite is_closed_eq. intros H. simpl. unfold bind. rewrite is_closed_eq.
    destruct (is_open self) as [[b|e] s']; simpl in *; [|discriminate].
    injection H as H. destruct b; [discriminate|]. simpl. auto.
  - rewrite is_closed_eq. intros H. simpl. unfold bind. rewrite is_closed_eq.
    destruct (is_open self) as [[b|e] s']; simpl in *; [|discriminate].
    injection H as H. destruct b; [|discriminate]. simpl.
    rewrite <- PC. apply close_action_dispatches; [assumption|now symmetry].
  - destruct (close_action_spec self WF) as (c & g & _ & _ & _ & E).
    split; [|split].
    + exact (proj1 (close_action_dispatches self self WF eq_refl)).
    + simpl. rewrite E. reflexivity.
    + exact (proj2 (close_action_dispatches self self WF eq_refl)).
Qed.

Lemma scenario_well_formed : well_formed scenario.
Proof. apply (init_well_formed scenario_args). reflexivity. Qed.

Lemma scenario_fixed_well_formed : well_formed scenario_fixed.
Proof. apply (init_well_formed scenario_fixed_args). reflexivity. Qed.

Lemma with_snapshot_well_formed js self :
  well_formed self -> well_formed (with_snapshot js self).
Proof. apply framed_well_formed. unfold with_snapshot. frame_tac. Qed.

Lemma in_execution_state_well_formed e self :
  well_formed self -> well_formed (in_execution_state e self).
Proof. apply framed_well_formed. unfold in_execution_state. frame_tac. Qed.

Lemma skip_if_noop_gates_open_and_close_witness :
  (open true scenario = (Ok tt, snd (is_open scenario))
   /\ base (snd (open true scenario)) = base scenario)
  /\ (fst (open true (with_snapshot snapshot_far scenario)) = Ok tt
      /\ dispatches [0%float] (with_snapshot snapshot_far scenario)
           (snd (open true (with_snapshot snapshot_far scenario))))
  /\ (close true (with_snapshot snapshot_far scenario)
      = (Ok tt, snd (is_closed (with_snapshot snapshot_far scenario)))
      /\ base (snd (close true (with_snapshot snapshot_far scenario)))
         = base (with_snapshot snapshot_far scenario)).
Proof.
  split; [|split].
  - apply (proj1 (skip_if_noop_gates_open_and_close scenario scenario_well_formed)).
    reflexivity.
  - apply (proj1 (proj2 (skip_if_noop_gates_open_and_close
                           (with_snapshot snapshot_far scenario)
                           (with_snapshot_well_formed _ _ scenario_well_formed)))).
    reflexivity.
  - apply (proj1 (proj2 (proj2 (proj2 (skip_if_noop_gates_open_and_close
                           (with_snapshot snapshot_far scenario)
                           (with_snapshot_well_formed _ _ scenario_well_formed)))))).
    reflexivity.
Defined.

(** C6.  [toggle] dispatches the closed goal when [is_open] returns true
    and the open goal when it returns false; no skip-if-noop test stands in
    the way, so the call returns normally with the goal handed over.
    Calling the instance is [toggle]. *)
Theorem toggle_dispatches_the_opposite self :
  well_formed self ->
  (fst (is_open self) = Ok true ->
     fst (toggle self) = Ok tt
     /\ dispatches (closed_gripper_joint_positions self) self (snd (toggle self)))
  /\ (fst (is_open self) = Ok false ->
      fst (toggle self) = Ok tt
      /\ dispatches (open_gripper_joint_positions self) self (snd (toggle self)))
  /\ __call__ self = toggle self.
Proof.
  intros WF.
  assert (WF' := is_open_well_formed self WF).
  assert (B := is_open_base self).
  destruct (is_open_private self) as (PO & PC & _).
  refine (conj _ (conj _ eq_refl)).
  - intros H. unfold toggle, bind. destruct (is_open self) as [[b|e] s'];
      simpl in *; [|discriminate]. injection H as ->.
    rewrite <- PC. apply close_action_dispatches; [assumption|now symmetry].
  - intros H. unfold toggle, bind. destruct (is_open self) as [[b|e] s'];
      simpl in *; [|discriminate]. injection H as ->.
    rewrite <- PO. apply open_action_dispatches; [assumption|now symmetry].
Qed.

Lemma toggle_dispatches_the_opposite_witness :
  (fst (toggle scenario) = Ok tt
   /\ dispatches [1%float] scenario (snd (toggle scenario)))
  /\ (fst (toggle (with_snapshot snapshot_far scenario)) = Ok tt
      /\ dispatches [0%float] (with_snapshot snapshot_far scenario)
           (snd (toggle (with_snapshot snapshot_far scenario))))
  /\ __call__ scenario = toggle scenario.
Proof.
  split; [|split].
  - apply (proj1 (toggle_dispatches_the_opposite scenario scenario_well_formed)).
    reflexivity.
  - apply (proj1 (proj2 (toggle_dispatches_the_opposite
                           (with_snapshot snapshot_far scenario)
                           (with_snapshot_well_formed _ _ scenario_well_formed)))).
    reflexivity.
  - apply (proj2 (proj2 (toggle_dispatches_the_opposite scenario
                           scenario_well_formed))).
Defined.

(** ** The classification over the configured joints *)

Lemma first_place_unique js n k k' :
  first_place js n k -> first_place js n k' -> k = k'.
Proof.
  intros [H1 L1] [H2 L2].
  destruct (Nat.lt_trichotomy k k') as [H|[H|H]]; [|exact H|].
  - exfalso. exact (L2 k H H1).
  - exfalso. exact (L1 k' H H2).
Qed.

(** What [list.index] returns is the first place of the name. *)
Lemma indexed_in_first_place js n k : indexed_in js n k -> first_place js n k.
Proof.
  unfold indexed_in. intros H. split.
  - exact (proj1 (index_Some _ _ _ H)).
  - exact (index_first _ _ _ H).
Qed.

Lemma Forall2_first_place js names idxs :
  Forall2 (indexed_in js) names idxs -> Forall2 (first_place js) names idxs.
Proof. induction 1; constructor; auto using indexed_in_first_place. Qed.

Lemma Forall2_nth_error_both {A B} (R : A -> B -> Prop) l l' :
  Forall2 R l l' ->
  (forall i b, nth_error l' i = Some b ->
     exists a, nth_error l i = Some a /\ R a b)
  /\ (forall i a, nth_error l i = Some a ->
        exists b, nth_error l' i = Some b /\ R a b).
Proof.
  induction 1 as [|a b l l' HR HF [IH1 IH2]]; split; intros [|i] x H;
    simpl in *; try discriminate.
  - injection H as <-. eauto.
  - now apply IH1.
  - injection H as <-. eauto.
  - now apply IH2.
Qed.

Lemma open_tolerance_length self :
  well_formed self ->
  List.length (open_tolerance self) = List.length (joint_names (base self)).
Proof.
  intros WF. rewrite (wf_tolerance WF). unfold open_tolerance_of.
  rewrite length_map, length_combine, (wf_open_length WF), (wf_closed_length WF).
  apply Nat.min_id.
Qed.

(** The loop over a complete index map examines every configured joint at
    the first place of its name. *)
Lemma within_open_tolerance_configured self built js idxs :
  well_formed self ->
  Forall2 (first_place built) (joint_names (base self)) idxs ->
  (forall n k, In n (joint_names (base self)) -> first_place built n k ->
               (k < List.length (position js))%nat) ->
  exists b,
    within_open_tolerance 0 idxs (position js)
      (open_gripper_joint_positions self) (open_tolerance self) = Ok b
    /\ (b = false <-> exists i, configured_joint_out_of_tolerance self built js i).
Proof.
  intros WF HF R.
  destruct (Forall2_nth_error_both _ _ _ HF) as [Hl Hr].
  destruct (within_open_tolerance_spec (position js)
              (open_gripper_joint_positions self) (open_tolerance self) idxs 0)
    as (b & Hb & Hiff).
  { intros j k Hj. destruct (Hl j k Hj) as (n & Hn & Hp).
    assert (Hlt : (j < List.length (joint_names (base self)))%nat)
      by (apply nth_error_Some; congruence).
    rewrite (wf_open_length WF), (open_tolerance_length self WF).
    cbn [Nat.add]. split; [|split; exact Hlt].
    apply (R n k); [eapply nth_error_In; eassumption|exact Hp]. }
  exists b. split; [exact Hb|]. rewrite Hiff. split.
  - intros (j & k & p & o & t & H1 & H2 & H3 & H4 & H5).
    destruct (Hl j k H1) as (n & Hn & Hp).
    exists j, n, k, p, o, t. cbn [Nat.add] in H3, H4. auto 10.
  - intros (i & n & k & p & o & t & H1 & H2 & H3 & H4 & H5 & H6).
    destruct (Hr i n H1) as (k' & Hk' & Hp').
    assert (k' = k) by (eapply first_place_unique; eassumption). subst k'.
    exists i, k, p, o, t. cbn [Nat.add]. auto 10.
Qed.

(** C1.  With no snapshot [is_open] returns true.  With a snapshot [js], on
    an instance whose index map is complete (cached from a snapshot [built]
    that named every configured joint, or built on this call from [js], which
    names them all) and whose mapped places all have a position in [js],
    [is_open] returns a boolean and leaves the complete map in the cache; the
    boolean is false exactly when some configured joint [i] has
    [|js.position[index[i]] - open_positions[i]| > tolerance[i]], where
    [index[i]] is the first place of joint [i]'s name in [built], and true
    exactly when no configured joint has.  A first call that returns leaves
    the map of its own snapshot in the cache for every later call. *)
Theorem is_open_classifies self :
  (joint_state (base self) = None -> is_open self = (Ok true, self))
  /\ (forall js built,
        well_formed self ->
        joint_state (base self) = Some js ->
        map_built_on self js built ->
        (forall n k, In n (joint_names (base self)) -> first_place built n k ->
                     (k < List.length (position js))%nat) ->
        exists b idxs,
          is_open self = (Ok b, set_gripper_joint_indices (Some idxs) self)
          /\ Forall2 (first_place built) (joint_names (base self)) idxs
          /\ (b = false <->
              exists i, configured_joint_out_of_tolerance self built js i)
          /\ (b = true <->
              forall i, ~ configured_joint_out_of_tolerance self built js i))
  /\ (forall js b self',
        joint_state (base self) = Some js ->
        gripper_joint_indices self = None ->
        is_open self = (Ok b, self') ->
        forall js', map_built_on self' js' js).
Proof.
  split; [apply is_open_no_snapshot|]. split.
  - intros js built WF J B R.
    assert (I : exists idxs,
               index_map self js = Some idxs
               /\ Forall2 (first_place built) (joint_names (base self)) idxs).
    { unfold map_built_on in B. unfold index_map.
      destruct (gripper_joint_indices self) as [idxs|].
      - exists idxs. split; [reflexivity|exact B].
      - destruct B as [-> P].
        destruct (find_joint_indices_covered _ js [] P) as (idxs & F & HF).
        rewrite F. exists idxs. split; [reflexivity|].
        now apply Forall2_first_place. }
    destruct I as (idxs & I & HF).
    destruct (within_open_tolerance_configured self built js idxs WF HF R)
      as (b & Hb & Hiff).
    exists b, idxs. rewrite (is_open_unfold _ _ J), I, Hb.
    split; [reflexivity|]. split; [exact HF|]. split; [exact Hiff|]. split.
    + intros -> i Hi. assert (true = false) by (apply Hiff; eauto). discriminate.
    + intros H. destruct b; [reflexivity|]. exfalso.
      destruct (proj1 Hiff eq_refl) as [i Hi]. exact (H i Hi).
  - intros js b self' J C H js'.
    rewrite (is_open_unfold _ _ J) in H. unfold index_map in H. rewrite C in H.
    destruct (find_joint_indices (joint_names (base self)) js [])
      as [[u|e] r] eqn:F; [|discriminate].
    injection H as _ <-. unfold map_built_on. cbn.
    destruct (find_joint_indices_ok _ _ _ _ _ F) as (l & -> & HF).
    now apply Forall2_first_place.
Qed.

Lemma two_joints_well_formed : well_formed two_joints.
Proof.
  apply (init_well_formed
           (default_args ["j1"%string; "j2"%string]
              [0%float; 0%float] [1%float; 1%float])).
  reflexivity.
Qed.

Lemma is_open_classifies_witness :
  exists b idxs,
    is_open (with_snapshot snapshot_swapped two_joints)
    = (Ok b, set_gripper_joint_indices (Some idxs)
               (with_snapshot snapshot_swapped two_joints))
    /\ Forall2 (first_place snapshot_swapped)
         (joint_names (base (with_snapshot snapshot_swapped two_joints))) idxs
    /\ (b = false <->
        exists i, configured_joint_out_of_tolerance
                    (with_snapshot snapshot_swapped two_joints)
                    snapshot_swapped snapshot_swapped i)
    /\ (b = true <->
        forall i, ~ configured_joint_out_of_tolerance
                      (with_snapshot snapshot_swapped two_joints)
                      snapshot_swapped snapshot_swapped i).
Proof.
  apply (proj1 (proj2 (is_open_classifies
                         (with_snapshot snapshot_swapped two_joints)))
           snapshot_swapped snapshot_swapped).
  - apply with_snapshot_well_formed, two_joints_well_formed.
  - reflexivity.
  - split; [reflexivity|]. intros n [<-|[<-|[]]]; simpl; auto.
  - intros n k _ [H _].
    assert (Hk : (k < List.length (name snapshot_swapped))%nat)
      by (apply nth_error_Some; congruence).
    exact Hk.
Defined.

(** The swapped snapshot reports the first joint, at place 1, far from open:
    the classifier reads that place and says closed. *)
Example swapped_snapshot_is_read_by_name :
  is_open (with_snapshot snapshot_swapped two_joints)
  = (Ok false, set_gripper_joint_indices (Some [1%nat; 0%nat])
                 (with_snapshot snapshot_swapped two_joints))
  /\ configured_joint_out_of_tolerance (with_snapshot snapshot_swapped two_joints)
       snapshot_swapped snapshot_swapped 0.
Proof.
  split; [reflexivity|].
  exists "j1"%string, 1%nat, 0.5%float, 0%float, (tolerance_of 0 1).
  repeat split; try reflexivity.
  intros [|j] Hj; [cbn; discriminate|lia].
Qed.

(** Where the classification as the specification words it fails.  After a
    lookup that raised, the cache maps the first joint only: the second
    joint, which the present snapshot reports at place 1 and half a unit
    from open, is out of tolerance, yet [is_open] returns true.  On a first
    snapshot that does not name the joint, and on one that has no position
    at a joint's place, [is_open] returns neither boolean. *)
Lemma is_open_overlooks_an_unmapped_joint :
  (joint_state (base after_failed_lookup) = Some snapshot_both
   /\ gripper_joint_indices after_failed_lookup = Some [0%nat]
   /\ configured_joint_out_of_tolerance after_failed_lookup
        snapshot_both snapshot_both 1
   /\ fst (is_open after_failed_lookup) = Ok true)
  /\ fst (is_open (with_snapshot snapshot_other scenario)) = Raise ValueError
  /\ fst (is_open (with_snapshot snapshot_truncated two_joints)) = Raise IndexError.
Proof.
  split; [|split; reflexivity].
  split; [reflexivity|]. split; [reflexivity|]. split; [|reflexivity].
  exists "j2"%string, 1%nat, 0.5%float, 0%float, (tolerance_of 0 1).
  repeat split; try reflexivity.
  intros [|j] Hj; [cbn; discriminate|lia].
Qed.

(** ** The admission gate *)

Lemma set_requested_same b : set_requested (requested b) b = b.
Proof. destruct b; reflexivity. Qed.

Lemma set_requested_log_call c b :
  set_requested (requested b) (log_call c b) = b.
Proof. destruct b; reflexivity. Qed.

Lemma gate_drops_when_busy b :
  ignore_new_calls_while_executing b = true ->
  busy (execution_state b) = true -> gate_admits b = false.
Proof. intros H1 H2. unfold gate_admits. now rewrite H1, H2. Qed.

Lemma dropped_facts b b' :
  dropped b b' ->
  execution_state b' = execution_state b
  /\ dispatched b' = dispatched b
  /\ joint_state b' = joint_state b.
Proof. intros <-. destruct b'; simpl. repeat split. Qed.

Lemma open_action_dropped self :
  well_formed self -> gate_admits (base self) = false ->
  fst (open_action self) = Ok tt
  /\ dropped (base self) (base (snd (open_action self))).
Proof.
  intros WF A. destruct (open_action_spec self WF) as (c & g & _ & _ & _ & E).
  rewrite E. unfold after_call. rewrite A. simpl.
  split; [reflexivity|apply set_requested_log_call].
Qed.

Lemma close_action_dropped self :
  well_formed self -> gate_admits (base self) = false ->
  fst (close_action self) = Ok tt
  /\ dropped (base self) (base (snd (close_action self))).
Proof.
  intros WF A. destruct (close_action_spec self WF) as (c & g & _ & _ & _ & E).
  rewrite E. unfold after_call. rewrite A. simpl.
  split; [reflexivity|apply set_requested_log_call].
Qed.

(** A command is the classifier, possibly, followed by an action,
    possibly. *)
Lemma command_shape ev self :
  is_command ev = true ->
  perform ev self = open_action self
  \/ perform ev self = close_action self
  \/ (exists e, is_open self = (Raise e, snd (is_open self))
                /\ perform ev self = (Raise e, snd (is_open self)))
  \/ (exists b, is_open self = (Ok b, snd (is_open self))
                /\ (perform ev self = (Ok tt, snd (is_open self))
                    \/ perform ev self = open_action (snd (is_open self))
                    \/ perform ev self = close_action (snd (is_open self)))).
Proof.
  intros C.
  assert (HT :
    (exists e, is_open self = (Raise e, snd (is_open self))
               /\ toggle self = (Raise e, snd (is_open self)))
    \/ (exists b, is_open self = (Ok b, snd (is_open self))
                  /\ (toggle self = (Ok tt, snd (is_open self))
                      \/ toggle self = open_action (snd (is_open self))
                      \/ toggle self = close_action (snd (is_open self))))).
  { unfold toggle, bind. destruct (is_open self) as [[[|]|e] s']; simpl.
    - right. exists true. auto.
    - right. exists false. auto.
    - left. exists e. auto. }
  destruct ev as [[|]|[|]| | | | | | | | ]; try discriminate; simpl.
  - right. right. unfold bind.
    destruct (is_open self) as [[[|]|e] s']; simpl.
    + right. exists true. auto.
    + right. exists false. auto.
    + left. exists e. auto.
  - now left.
  - right. right. unfold bind. rewrite is_closed_eq.
    destruct (is_open self) as [[[|]|e] s']; simpl.
    + right. exists true. auto.
    + right. exists false. auto.
    + left. exists e. auto.
  - right. now left.
  - right. right. exact HT.
  - right. right. exact HT.
Qed.

(** An action returns normally on a constructed instance, so a command
    returns what the classifier it consults returns, or normally when it
    consults none. *)
Lemma command_result self ev :
  well_formed self ->
  is_command ev = true ->
  fst (perform ev self)
  = if consults_classifier ev
    then map_result (fun _ => tt) (fst (is_open self))
    else Ok tt.
Proof.
  intros WF C.
  assert (WF' := is_open_well_formed self WF).
  assert (O : forall s, well_formed s -> fst (open_action s) = Ok tt).
  { intros s W. destruct (open_action_spec s W) as (c & g & _ & _ & _ & E).
    now rewrite E. }
  assert (K : forall s, well_formed s -> fst (close_action s) = Ok tt).
  { intros s W. destruct (close_action_spec s W) as (c & g & _ & _ & _ & E).
    now rewrite E. }
  assert (T : fst (toggle self) = map_result (fun _ => tt) (fst (is_open self))).
  { unfold toggle, bind. destruct (is_open self) as [[[|]|e] s']; cbn [fst snd] in *.
    - now apply K.
    - now apply O.
    - reflexivity. }
  destruct ev as [[|]|[|]| | | | | | | | ]; try discriminate;
    cbn [perform consults_classifier].
  - cbn [open]. unfold bind.
    destruct (is_open self) as [[[|]|e] s']; cbn [fst snd] in *;
      [reflexivity|now apply O|reflexivity].
  - now apply O.
  - cbn [close]. unfold bind. rewrite is_closed_eq.
    destruct (is_open self) as [[[|]|e] s']; cbn [fst snd map_result negb] in *;
      [now apply K|reflexivity|reflexivity].
  - now apply K.
  - exact T.
  - exact T.
Qed.

(** C8.  With [ignore_new_calls_while_executing] set and the execution state
    [Dispatching] or [Executing], a command ([open], [close], [toggle] or the
    call, with either value of [skip_if_noop]) leaves the execution state as
    it is, dispatches no goal and changes nothing else in the dispatcher
    (there is no queue: only the invocation is on record).  The drop raises
    nothing: [open(skip_if_noop=False)] and [close(skip_if_noop=False)]
    return normally, and a command that evaluates [is_open] first returns
    normally exactly when [is_open] returns and otherwise raises what
    [is_open] raised. *)
Theorem busy_commands_are_dropped self ev :
  well_formed self ->
  ignore_new_calls_while_executing (base self) = true ->
  busy (execution_state (base self)) = true ->
  is_command ev = true ->
  execution_state (base (snd (perform ev self))) = execution_state (base self)
  /\ dispatched (base (snd (perform ev self))) = dispatched (base self)
  /\ dropped (base self) (base (snd (perform ev self)))
  /\ (consults_classifier ev = false -> fst (perform ev self) = Ok tt)
  /\ (consults_classifier ev = true ->
      fst (perform ev self) = map_result (fun _ => tt) (fst (is_open self))).
Proof.
  intros WF I Bz C.
  assert (A := gate_drops_when_busy _ I Bz).
  assert (B := is_open_base self).
  assert (A' : gate_admits (base (snd (is_open self))) = false) by now rewrite B.
  assert (WF' := is_open_well_formed self WF).
  assert (D : dropped (base self) (base (snd (perform ev self)))).
  { destruct (command_shape ev self C)
      as [E|[E|[(e & E1 & E2)|(b & E1 & [E2|[E2|E2]])]]]; rewrite E2 || rewrite E.
    - exact (proj2 (open_action_dropped self WF A)).
    - exact (proj2 (close_action_dropped self WF A)).
    - cbn [snd]. rewrite B. apply set_requested_same.
    - cbn [snd]. rewrite B. apply set_requested_same.
    - rewrite <- B. exact (proj2 (open_action_dropped _ WF' A')).
    - rewrite <- B. exact (proj2 (close_action_dropped _ WF' A')). }
  destruct (dropped_facts _ _ D) as (F1 & F2 & _).
  assert (R := command_result self ev WF C).
  split; [exact F1|]. split; [exact F2|]. split; [exact D|].
  split; intros Q; rewrite Q in R; exact R.
Qed.

Lemma busy_commands_are_dropped_witness :
  let self := in_execution_state Executing
                (with_snapshot snapshot_far scenario_fixed) in
  execution_state (base (snd (perform (E_open true) self))) = Executing
  /\ dispatched (base (snd (perform (E_open true) self))) = []
  /\ fst (perform (E_open true) self)
     = map_result (fun _ => tt) (fst (is_open self)).
Proof.
  intros self.
  destruct (busy_commands_are_dropped self (E_open true)) as (H1 & H2 & _ & _ & H3).
  - apply in_execution_state_well_formed, with_snapshot_well_formed,
      scenario_fixed_well_formed.
  - reflexivity.
  - reflexivity.
  - reflexivity.
  - split; [exact H1|]. split; [exact H2|]. apply H3. reflexivity.
Defined.

(** The far snapshot makes the dropped [open()] return normally; the
    always-acting forms return normally whatever the snapshot. *)
Example busy_open_returns :
  fst (perform (E_open true)
         (in_execution_state Executing (with_snapshot snapshot_far scenario_fixed)))
  = Ok tt
  /\ fst (perform (E_open false) busy_without_joint) = Ok tt
  /\ fst (perform (E_close false) busy_without_joint) = Ok tt.
Proof. repeat split; reflexivity. Qed.

(** Where "no exception is raised" fails: the instance is executing a goal
    with the flag set, its snapshot does not name the joint, and the commands
    that evaluate [is_open] raise the lookup's [ValueError] before the gate is
    reached.  Nothing is dispatched all the same. *)
Lemma busy_open_raises :
  ignore_new_calls_while_executing (base busy_without_joint) = true
  /\ execution_state (base busy_without_joint) = Executing
  /\ fst (perform (E_open true) busy_without_joint) = Raise ValueError
  /\ fst (perform E_toggle busy_without_joint) = Raise ValueError
  /\ fst (perform E_call busy_without_joint) = Raise ValueError
  /\ dispatched (base (snd (perform (E_open true) busy_without_joint)))
     = dispatched (base busy_without_joint).
Proof. repeat split; reflexivity. Qed.

(** ** The nulled pose operations *)

Lemma init_nulled a self :
  __init__ a = Ok self -> nulled (pose_attributes (base self)).
Proof.
  intros H. destruct (init_ok_inv _ _ H) as (_ & _ & B & _).
  rewrite B. unfold nulled. simpl. repeat split.
Qed.

(** C10.  Right after construction the six attributes [move_to_pose],
    [set_pose_goal], [set_position_goal], [set_orientation_goal],
    [compute_fk] and [compute_ik] are [None], and they are still [None]
    after any sequence of public operations ([open], [close], [toggle], the
    call, [reset_open], [reset_closed], the two properties) and callbacks. *)
Theorem pose_operations_stay_nulled a self :
  __init__ a = Ok self ->
  nulled (pose_attributes (base self))
  /\ forall evs, nulled (pose_attributes (base (run evs self))).
Proof.
  intros H. assert (N := init_nulled _ _ H). split; [exact N|].
  intros evs. destruct (run_framed evs self) as (_ & _ & _ & P & _).
  rewrite P. exact N.
Qed.

Lemma pose_operations_stay_nulled_witness :
  nulled (pose_attributes (base scenario))
  /\ nulled (pose_attributes
               (base (run [E_joint_state snapshot_far; E_toggle; E_call;
                           E_reset_open true; E_open false; E_close true]
                          scenario))).
Proof.
  destruct (pose_operations_stay_nulled scenario_args scenario eq_refl) as [N R].
  split; [exact N|apply R].
Defined.

(** ** Binary64 arithmetic

    What the duration split needs from IEEE 754: a right shift of the
    mantissa keeps track of the bits it drops, rounding to nearest even moves
    to one of the two neighbours, and a number that fits the format comes
    out unchanged. *)

Section Binary64.

Local Open Scope Z_scope.

Lemma iter_pos_nat {A} (f : A -> A) p : forall x,
  iter_pos f p x = Nat.iter (Pos.to_nat p) f x.
Proof.
  induction p as [p IH|p IH|]; intros x; cbn [iter_pos].
  - rewrite !IH, Pos2Nat.inj_xI, <- Nat.iter_add.
    replace (Pos.to_nat p + Pos.to_nat p)%nat with (2 * Pos.to_nat p)%nat by lia.
    rewrite Nat.iter_succ_r. reflexivity.
  - rewrite !IH, Pos2Nat.inj_xO, <- Nat.iter_add.
    replace (Pos.to_nat p + Pos.to_nat p)%nat with (2 * Pos.to_nat p)%nat by lia.
    reflexivity.
  - reflexivity.
Qed.

Lemma shr_1_nonneg mrs :
  0 <= shr_m mrs ->
  shr_m (shr_1 mrs) = shr_m mrs / 2
  /\ shr_r (shr_1 mrs) = Z.odd (shr_m mrs)
  /\ shr_s (shr_1 mrs) = shr_r mrs || shr_s mrs.
Proof.
  destruct mrs as [m r s]. simpl. intros H.
  destruct m as [|[p|p|]|p]; try lia; simpl; repeat split.
  - apply Z.div_unique with 1; lia.
  - apply Z.div_unique with 0; lia.
Qed.

Lemma shr_iter M n :
  0 <= M ->
  let R := Nat.iter n shr_1 (Build_shr_record M false false) in
  shr_m R = M / 2 ^ Z.of_nat n
  /\ exists u, 2 * (M mod 2 ^ Z.of_nat n) = b2z (shr_r R) * 2 ^ Z.of_nat n + u
               /\ 0 <= u < 2 ^ Z.of_nat n
               /\ (shr_s R = false <-> u = 0).
Proof.
  intros HM. induction n as [|n IH].
  - simpl. split; [now rewrite Z.div_1_r|]. exists 0. rewrite Z.mod_1_r. simpl. lia.
  - cbv zeta in *. rewrite Nat.iter_succ. 
    set (R := Nat.iter n shr_1 _) in *.
    destruct IH as (Hm & u & Hu & Hr & Hs).
    assert (P : 0 < 2 ^ Z.of_nat n) by (apply Z.pow_pos_nonneg; lia).
    assert (Hq : 0 <= shr_m R) by (rewrite Hm; apply Z.div_pos; lia).
    destruct (shr_1_nonneg R Hq) as (E1 & E2 & E3).
    rewrite Nat2Z.inj_succ, Z.pow_succ_r by lia.
    split.
    + rewrite E1, Hm, Z.div_div by lia. f_equal. lia.
    + exists (2 * (M mod 2 ^ Z.of_nat n)).
      rewrite E2, E3, Hm.
      assert (Hmod : M mod (2 * 2 ^ Z.of_nat n)
                     = 2 ^ Z.of_nat n * ((M / 2 ^ Z.of_nat n) mod 2) + M mod 2 ^ Z.of_nat n).
      { rewrite (Z.mul_comm 2), Z.rem_mul_r by lia. lia. }
      assert (Hodd : (M / 2 ^ Z.of_nat n) mod 2 = b2z (Z.odd (M / 2 ^ Z.of_nat n))).
      { rewrite Zmod_odd. reflexivity. }
      assert (Hb : 0 <= M mod 2 ^ Z.of_nat n < 2 ^ Z.of_nat n) by (apply Z.mod_pos_bound; lia).
      split; [rewrite Hmod, Hodd; lia|]. split; [lia|].
      rewrite Hu. destruct (shr_r R), (shr_s R); simpl b2z; simpl orb; split; intros H; try discriminate; try reflexivity; try lia.
Qed.

(** *** Number of binary digits *)
Lemma digits2_bounds p :
  2 ^ (Zpos (digits2_pos p) - 1) <= Zpos p < 2 ^ (Zpos (digits2_pos p)).
Proof.
  induction p as [p IH|p IH|]; cbn [digits2_pos].
  - rewrite Pos2Z.inj_succ.
    set (D := Z.pos (digits2_pos p)) in *.
    assert (HD : 0 < D) by (unfold D; lia).
    replace (Z.succ D - 1) with (Z.succ (D - 1)) by lia.
    rewrite !Z.pow_succ_r by lia. lia.
  - rewrite Pos2Z.inj_succ.
    set (D := Z.pos (digits2_pos p)) in *.
    assert (HD : 0 < D) by (unfold D; lia).
    replace (Z.succ D - 1) with (Z.succ (D - 1)) by lia.
    rewrite !Z.pow_succ_r by lia. lia.
  - simpl. lia.
Qed.

Lemma digits2_unique p k :
  2 ^ (k - 1) <= Zpos p < 2 ^ k -> Zpos (digits2_pos p) = k.
Proof.
  intros [H1 H2]. destruct (digits2_bounds p) as [B1 B2].
  set (D := Zpos (digits2_pos p)) in *.
  assert (HD : 0 < D) by (unfold D; lia).
  assert (Hk : 0 < k).
  { destruct (Z_lt_le_dec 0 k); [assumption|]. exfalso.
    assert (2 ^ k <= 1).
    { destruct (Z.eq_dec k 0); [subst; simpl; lia|]. rewrite Z.pow_neg_r; lia. }
    lia. }
  destruct (Z_lt_le_dec D k).
  - exfalso. assert (2 ^ D <= 2 ^ (k - 1)) by (apply Z.pow_le_mono_r; lia). lia.
  - destruct (Z_lt_le_dec k D); [|lia].
    exfalso. assert (2 ^ k <= 2 ^ (D - 1)) by (apply Z.pow_le_mono_r; lia). lia.
Qed.

Lemma iter_xO p d : Zpos (Pos.iter xO p d) = Zpos p * 2 ^ Zpos d.
Proof.
  change (Pos.iter xO p d) with (shift_pos d p).
  rewrite shift_pos_correct, Z.pow_pos_fold. lia.
Qed.

Lemma fexp64_eq x : fexp prec emax x = fexp64 x.
Proof. reflexivity. Qed.

Lemma shr_spec M e n :
  0 <= M -> 0 <= n ->
  let R := fst (shr (Build_shr_record M false false) e n) in
  snd (shr (Build_shr_record M false false) e n) = e + n
  /\ shr_m R = M / 2 ^ n
  /\ exists u, 2 * (M mod 2 ^ n) = b2z (shr_r R) * 2 ^ n + u
               /\ 0 <= u < 2 ^ n
               /\ (shr_s R = false <-> u = 0).
Proof.
  intros HM Hn. destruct n as [|p|p]; [| |lia].
  - simpl. rewrite Z.add_0_r, Z.div_1_r, Z.mod_1_r. repeat split.
    exists 0. simpl. lia.
  - cbn [shr fst snd]. rewrite iter_pos_nat.
    destruct (shr_iter M (Pos.to_nat p) HM) as (H1 & H2).
    rewrite positive_nat_Z in H1, H2. auto.
Qed.

Lemma round_nearest_even_spec M n :
  0 <= M -> 0 <= n ->
  let R := fst (shr (Build_shr_record M false false) 0 n) in
  let r := round_nearest_even (shr_m R) (loc_of_shr_record R) in
  (r = M / 2 ^ n \/ r = M / 2 ^ n + 1)
  /\ (M mod 2 ^ n = 0 -> r = M / 2 ^ n)
  /\ (r = M / 2 ^ n + 1 -> 2 ^ n <= 2 * (M mod 2 ^ n))
  /\ (r = M / 2 ^ n -> 2 * (M mod 2 ^ n) <= 2 ^ n).
Proof.
  intros HM Hn R r.
  destruct (shr_spec M 0 n HM Hn) as (_ & Hm & u & Hu & Hub & Hs).
  fold R in Hm, Hu, Hs. subst r. rewrite Hm.
  assert (P : 0 < 2 ^ n) by (apply Z.pow_pos_nonneg; lia).
  assert (Hb : 0 <= M mod 2 ^ n < 2 ^ n) by (apply Z.mod_pos_bound; lia).
  set (q := M / 2 ^ n) in *.
  destruct R as [m rb sb]. cbn [shr_m shr_r shr_s] in *. subst m.
  destruct rb, sb; cbn [loc_of_shr_record round_nearest_even b2z] in *.
  - assert (u <> 0) by (intros ->; destruct Hs as [_ Hs]; now specialize (Hs eq_refl)).
    repeat split; try lia.
  - assert (u = 0) by (now apply Hs).
    destruct (Z.even q); repeat split; try lia.
  - assert (u <> 0) by (intros ->; destruct Hs as [_ Hs]; now specialize (Hs eq_refl)).
    repeat split; try lia.
  - assert (u = 0) by (now apply Hs).
    repeat split; try lia.
Qed.

Lemma shr_clamp mrs e n : shr mrs e n = shr mrs e (Z.max 0 n).
Proof. destruct n; reflexivity. Qed.

Lemma shr_fst mrs e n : fst (shr mrs e n) = fst (shr mrs 0 n).
Proof. destruct n; reflexivity. Qed.

Lemma shr_snd mrs e n : snd (shr mrs e (Z.max 0 n)) = e + Z.max 0 n.
Proof. destruct n; simpl; lia. Qed.

Lemma digits2_le p k : Zpos p < 2 ^ k -> Zpos (digits2_pos p) <= k.
Proof.
  intros H. destruct (digits2_bounds p) as [B _].
  destruct (Z_le_gt_dec (Zpos (digits2_pos p)) k) as [L|G]; [exact L|exfalso].
  assert (0 <= k).
  { destruct (Z_lt_le_dec k 0); [|assumption]. rewrite Z.pow_neg_r in H; lia. }
  assert (2 ^ k <= 2 ^ (Zpos (digits2_pos p) - 1)) by (apply Z.pow_le_mono_r; lia).
  lia.
Qed.

Lemma binary_round_aux_spec s m e :
  let d := Zpos (digits2_pos m) in
  let e1 := Z.max e (fexp64 (d + e)) in
  let n := e1 - e in
  exists r,
    (r = Zpos m / 2 ^ n \/ r = Zpos m / 2 ^ n + 1)
    /\ (Zpos m mod 2 ^ n = 0 -> r = Zpos m / 2 ^ n)
    /\ (r = Zpos m / 2 ^ n + 1 -> 2 ^ n <= 2 * (Zpos m mod 2 ^ n))
    /\ (r = Zpos m / 2 ^ n -> 2 * (Zpos m mod 2 ^ n) <= 2 ^ n)
    /\ 0 <= r <= 2 ^ 53
    /\ binary_round_aux prec emax s (Zpos m) e loc_Exact = encode s r e1.
Proof.
  intros d e1 n.
  assert (Hn : 0 <= n) by (unfold n, e1; lia).
  assert (Hn' : n = Z.max 0 (fexp prec emax (Zdigits2 (Zpos m) + e) - e)).
  { rewrite fexp64_eq. cbn [Zdigits2]. unfold n, e1. fold d. lia. }
  assert (He1 : -1074 <= e1) by (unfold e1, fexp64; lia).
  destruct (round_nearest_even_spec (Zpos m) n ltac:(lia) Hn) as (R1 & R2 & R3 & R4).
  set (R := fst (shr (Build_shr_record (Zpos m) false false) 0 n)) in *.
  set (r := round_nearest_even (shr_m R) (loc_of_shr_record R)) in *.
  assert (P : 0 < 2 ^ n) by (apply Z.pow_pos_nonneg; lia).
  assert (Hq : 0 <= Zpos m / 2 ^ n) by (apply Z.div_pos; lia).
  assert (Hq53 : Zpos m / 2 ^ n < 2 ^ 53).
  { apply Z.div_lt_upper_bound; [lia|].
    rewrite <- Z.pow_add_r by lia.
    destruct (digits2_bounds m) as [_ B]. fold d in B.
    assert (2 ^ d <= 2 ^ (n + 53)).
    { apply Z.pow_le_mono_r; [lia|]. unfold n, e1, fexp64. lia. }
    lia. }
  exists r. repeat (split; [assumption|]).
  split; [lia|].
  unfold binary_round_aux, shr_fexp. cbn [shr_record_of_loc].
  rewrite (shr_clamp _ e), <- Hn'.
  rewrite (surjective_pairing (shr _ e n)), shr_fst. fold R.
  replace (snd (shr {| shr_m := Z.pos m; shr_r := false; shr_s := false |} e n)) with e1.
  2:{ rewrite Hn', shr_snd, <- Hn'. unfold n. lia. }
  fold r. rewrite fexp64_eq.
  destruct r as [|p|p] eqn:Er; [| |lia].
  - cbn [Zdigits2]. rewrite shr_clamp.
    replace (Z.max 0 (fexp64 (0 + e1) - e1)) with 0 by (unfold fexp64; lia).
    reflexivity.
  - cbn [Zdigits2 encode].
    destruct (Z.ltb_spec (Zpos p) (2 ^ 53)) as [L|G].
    + assert (Hd := digits2_le p 53 L).
      rewrite shr_clamp.
      replace (Z.max 0 (fexp64 (Z.pos (digits2_pos p) + e1) - e1)) with 0
        by (unfold fexp64; lia).
      reflexivity.
    + assert (E : Zpos p = 2 ^ 53) by lia.
      injection E as ->.
      replace (fexp64 (Z.pos (digits2_pos _) + e1) - e1) with 1
        by (cbn [digits2_pos Pos.succ]; unfold fexp64; lia).
      cbn [shr]. replace (e1 + 1 <=? emax - prec) with (e1 + 1 <=? 971) by reflexivity.
      reflexivity.
Qed.

Lemma encode_small s p e1 :
  Zpos p < 2 ^ 53 -> e1 <= 971 -> encode s (Zpos p) e1 = S754_finite s p e1.
Proof.
  intros H1 H2. cbn [encode].
  destruct (Z.ltb_spec (Zpos p) (2 ^ 53)); [|lia].
  destruct (Z.leb_spec e1 971); [reflexivity|lia].
Qed.

(** A mantissa that already fits is left alone. *)
Lemma binary_round_aux_exact s m e :
  fexp64 (Zpos (digits2_pos m) + e) <= e -> e <= 971 ->
  binary_round_aux prec emax s (Zpos m) e loc_Exact = S754_finite s m e.
Proof.
  intros H1 H2.
  destruct (binary_round_aux_spec s m e) as (r & _ & Hr & _ & _ & _ & E).
  rewrite E. clear E.
  replace (Z.max e (fexp64 (Z.pos (digits2_pos m) + e))) with e in * by lia.
  rewrite Z.sub_diag in Hr. rewrite Z.pow_0_r, Z.mod_1_r, Z.div_1_r in Hr.
  rewrite (Hr eq_refl). apply encode_small; [|assumption].
  destruct (digits2_bounds m) as [_ B].
  assert (2 ^ Zpos (digits2_pos m) <= 2 ^ 53).
  { apply Z.pow_le_mono_r; [lia|]. unfold fexp64 in H1. lia. }
  lia.
Qed.

Lemma digits2_shift p j :
  0 <= j -> 
  Zpos (digits2_pos (Z.to_pos (Zpos p * 2 ^ j))) = Zpos (digits2_pos p) + j.
Proof.
  intros Hj. assert (P : 0 < 2 ^ j) by (apply Z.pow_pos_nonneg; lia).
  apply digits2_unique. rewrite Z2Pos.id by lia.
  destruct (digits2_bounds p) as [B1 B2].
  replace (Zpos (digits2_pos p) + j - 1) with (Zpos (digits2_pos p) - 1 + j) by lia.
  rewrite !Z.pow_add_r by lia. nia.
Qed.

(** Normalising a mantissa that is too short shifts it left, exactly. *)
Lemma binary_round_shl s m e et :
  fexp64 (Zpos (digits2_pos m) + e) = et -> et < e -> et <= 971 ->
  binary_round prec emax s m e
  = S754_finite s (Z.to_pos (Zpos m * 2 ^ (e - et))) et.
Proof.
  intros H1 H2 H3. unfold binary_round, shl_align. rewrite fexp64_eq, H1.
  destruct (et - e) as [|j|j] eqn:Ej; try lia.
  assert (Hj : e - et = Zpos j) by lia.
  rewrite Hj.
  assert (Hm : Pos.iter xO m j = Z.to_pos (Zpos m * 2 ^ Zpos j)).
  { apply Pos2Z.inj. rewrite iter_xO, Z2Pos.id; [reflexivity|].
    assert (0 < 2 ^ Zpos j) by (apply Z.pow_pos_nonneg; lia). lia. }
  rewrite Hm. apply binary_round_aux_exact; [|assumption].
  rewrite digits2_shift by lia. 
  replace (Z.pos (digits2_pos m) + Z.pos j + et) with (Z.pos (digits2_pos m) + e) by lia.
  lia.
Qed.

Lemma Prim2SF_1e9 : Prim2SF 10e8 = S754_finite false 8388608000000000 (-23).
Proof. reflexivity. Qed.

Lemma Prim2SF_zero : Prim2SF 0 = S754_zero false.
Proof. reflexivity. Qed.

Lemma shiftl_neg a e : e <= 0 -> Z.shiftl a e = a / 2 ^ (- e).
Proof.
  intros H. rewrite <- (Z.shiftr_div_pow2 a (- e)) by lia.
  unfold Z.shiftr. now rewrite Z.opp_involutive.
Qed.

Lemma SF_trunc_encode r e1 :
  0 <= r <= 2 ^ 53 -> e1 < 0 ->
  SF_trunc (encode false r e1) = Ok (r / 2 ^ (- e1)).
Proof.
  intros Hr He. destruct r as [|p|p]; [| |lia].
  - reflexivity.
  - cbn [encode]. destruct (Z.ltb_spec (Zpos p) (2 ^ 53)) as [L|G].
    + destruct (Z.leb_spec e1 971); [|lia]. cbn [SF_trunc cond_Zopp].
      now rewrite shiftl_neg by lia.
    + destruct (Z.leb_spec (e1 + 1) 971); [|lia]. cbn [SF_trunc cond_Zopp].
      rewrite shiftl_neg by lia. f_equal.
      assert (E : Zpos p = 2 ^ 53) by lia. rewrite E.
      rewrite Z2Pos.id by reflexivity.
      replace (- e1) with (1 + (- (e1 + 1))) by lia.
      rewrite Z.pow_add_r, <- Z.div_div by lia. reflexivity.
Qed.

Lemma nanosec_of_fraction mf ef :
  -1074 <= ef < 0 -> Zpos mf < 2 ^ (- ef) -> Zpos mf < 2 ^ 53 ->
  exists ns,
    SF_trunc (SFmul prec emax (S754_finite false 8388608000000000 (-23))
                (S754_finite false mf ef)) = Ok ns
    /\ 0 <= ns < 1000000000
    /\ (ns - 1) * 2 ^ (- ef) < 1000000000 * Zpos mf < (ns + 1) * 2 ^ (- ef).
Proof.
  intros [Hemin Hef] HF H53. cbn [SFmul xorb].
  set (m' := (8388608000000000 * mf)%positive).
  assert (Em : Zpos m' = 1000000000 * 2 ^ 23 * Zpos mf) by (unfold m'; lia).
  destruct (binary_round_aux_spec false m' (-23 + ef))
    as (r & R1 & R2 & R3 & _ & Rb & E).
  assert (Hd106 : Zpos (digits2_pos m') <= 106).
  { apply digits2_le. rewrite Em.
    assert (1000000000 * 2 ^ 23 < 2 ^ 53) by reflexivity.
    change (2 ^ 106) with (2 ^ 53 * 2 ^ 53). nia. }
  rewrite E. clear E.
  set (d' := Zpos (digits2_pos m')) in *.
  set (e1 := Z.max (-23 + ef) (fexp64 (d' + (-23 + ef)))) in *.
  set (n := e1 - (-23 + ef)) in *.
  assert (PF : 0 < 2 ^ (- ef)) by (apply Z.pow_pos_nonneg; lia).
  assert (Hd : d' + ef <= 53).
  { assert (Zpos m' < 2 ^ (53 + - ef)).
    { rewrite Z.pow_add_r by lia. rewrite Em.
      assert (1000000000 * 2 ^ 23 < 2 ^ 53) by reflexivity. nia. }
    assert (d' <= 53 + - ef) by (apply digits2_le; assumption). lia. }
  assert (He1 : e1 <= -23) by (unfold e1, fexp64; lia).
  assert (Hn : 0 <= n) by (unfold n, e1; lia).
  rewrite SF_trunc_encode by lia.
  set (K := - e1) in *.
  assert (PA : 0 < 2 ^ n) by (apply Z.pow_pos_nonneg; lia).
  assert (PB : 0 < 2 ^ K) by (apply Z.pow_pos_nonneg; unfold K; lia).
  assert (EAB : 2 ^ (- ef) * 2 ^ 23 = 2 ^ n * 2 ^ K).
  { rewrite <- !Z.pow_add_r by (unfold K; lia). f_equal. unfold n, K. lia. }
  set (A := 2 ^ n) in *. set (B := 2 ^ K) in *. set (X := 2 ^ (- ef)) in *.
  set (q := Zpos m' / A) in *. set (rem := Zpos m' mod A) in *.
  assert (Hdiv : Zpos m' = A * q + rem) by (apply Z.div_mod; lia).
  assert (Hrem : 0 <= rem < A) by (apply Z.mod_pos_bound; lia).
  set (ns := r / B).
  assert (Hns : r = B * ns + r mod B) by (apply Z.div_mod; lia).
  assert (Hrb : 0 <= r mod B < B) by (apply Z.mod_pos_bound; lia).
  assert (Hns0 : 0 <= ns) by (apply Z.div_pos; lia).
  exists ns. split; [reflexivity|].
  assert (Hq0 : 0 <= q) by (apply Z.div_pos; lia).
  assert (Hn53 : A <= 2 ^ 53).
  { apply Z.pow_le_mono_r; [lia|]. unfold n, e1, fexp64. lia. }
  assert (Hm' : Zpos m' + 1000000000 * 2 ^ 23 <= 1000000000 * (A * B)).
  { rewrite <- EAB, Em. nia. }
  split.
  { split; [assumption|].
    destruct (Z_lt_le_dec ns 1000000000) as [L|G]; [exact L|exfalso].
    assert (Hqr : q < 1000000000 * B) by nia.
    assert (Hr : r = q + 1) by (destruct R1; [nia|assumption]).
    specialize (R3 Hr). fold A rem in R3.
    assert (2 * (1000000000 * 2 ^ 23) <= A) by nia.
    change (2 ^ 53) with 9007199254740992 in Hn53.
    change (2 ^ 23) with 8388608 in *. lia. }
  assert (KEY : (ns - 1) * (A * B) < Zpos m' < (ns + 1) * (A * B)).
  { split.
    - destruct R1 as [R1|R1].
      + (* r = q *) nia.
      + (* r = q + 1, inexact *)
        assert (rem <> 0) by (intros Z0; specialize (R2 Z0); lia).
        nia.
    - nia. }
  rewrite <- EAB in KEY. rewrite Em in KEY.
  change (2 ^ 23) with 8388608 in KEY. lia.
Qed.

Lemma nonneg_finite_cases d :
  (0 <=? d)%float = true -> (d <? infinity)%float = true ->
  (exists s, Prim2SF d = S754_zero s)
  \/ (exists m e, Prim2SF d = S754_finite false m e).
Proof.
  rewrite leb_spec, ltb_spec. change (Prim2SF 0) with (S754_zero false).
  change (Prim2SF infinity) with (S754_infinity false).
  destruct (Prim2SF d) as [s|s| |s m e]; intros H1 H2.
  - left. eauto.
  - destruct s; discriminate.
  - discriminate.
  - destruct s; [discriminate|]. right. eauto.
Qed.

Lemma finite_valid d s m e :
  Prim2SF d = S754_finite s m e ->
  fexp64 (Zpos (digits2_pos m) + e) = e /\ e <= 971.
Proof.
  intros E. assert (V := Prim2SF_valid d). rewrite E in V.
  cbn [SpecFloat.valid_binary] in V. unfold bounded, canonical_mantissa in V.
  apply andb_prop in V. destruct V as [V1 V2].
  apply Z.eqb_eq in V1. apply Z.leb_le in V2. rewrite fexp64_eq in V1.
  split; [exact V1|exact V2].
Qed.

(** The last two steps on a fraction given as a spec float. *)
Lemma nanosec_step (frac : float) mf ef :
  Prim2SF frac = S754_finite false mf ef ->
  ef < 0 -> Zpos mf < 2 ^ (- ef) ->
  exists ns, int_of_float (10e8 * frac) = Ok ns
    /\ 0 <= ns < 1000000000
    /\ (ns - 1) * 2 ^ (- ef) < 1000000000 * Zpos mf < (ns + 1) * 2 ^ (- ef).
Proof.
  intros E Hef HF. unfold int_of_float. rewrite mul_spec, E, Prim2SF_1e9.
  destruct (finite_valid _ _ _ _ E) as [V _].
  apply nanosec_of_fraction; try assumption.
  - unfold fexp64 in V. lia.
  - destruct (digits2_bounds mf) as [_ B].
    assert (2 ^ Zpos (digits2_pos mf) <= 2 ^ 53).
    { apply Z.pow_le_mono_r; [lia|]. unfold fexp64 in V. lia. }
    lia.
Qed.

Lemma nanosec_step_zero (frac : float) s :
  Prim2SF frac = S754_zero s -> int_of_float (10e8 * frac) = Ok 0.
Proof.
  intros E. unfold int_of_float. rewrite mul_spec, E, Prim2SF_1e9. reflexivity.
Qed.

Lemma SF64sub_aligned m1 m2 e :
  SF64sub (S754_finite false m1 e) (S754_finite false m2 e)
  = binary_normalize prec emax (Zpos m1 - Zpos m2) e false.
Proof.
  unfold SF64sub. cbn [SFsub]. unfold shl_align.
  rewrite Z.min_id, Z.sub_diag. reflexivity.
Qed.

Lemma SF64sub_same m e :
  SF64sub (S754_finite false m e) (S754_finite false m e) = S754_zero false.
Proof. rewrite SF64sub_aligned, Z.sub_diag. reflexivity. Qed.

(** A float with a non-negative exponent is an integer, and converting
    that integer back gives the float. *)
Lemma float_of_int_integral d m e :
  Prim2SF d = S754_finite false m e -> 0 <= e ->
  float_of_int (Zpos m * 2 ^ e) = Ok d.
Proof.
  intros E He. destruct (finite_valid _ _ _ _ E) as [V1 V2].
  assert (P : 0 < 2 ^ e) by (apply Z.pow_pos_nonneg; lia).
  set (p' := Z.to_pos (Zpos m * 2 ^ e)).
  assert (Ep : Zpos m * 2 ^ e = Zpos p') by (unfold p'; rewrite Z2Pos.id; lia).
  assert (Dp : Zpos (digits2_pos p') = Zpos (digits2_pos m) + e)
    by (apply digits2_shift; lia).
  unfold float_of_int. rewrite Ep. cbn [binary_normalize].
  assert (R : binary_round prec emax false p' 0 = S754_finite false m e).
  { unfold binary_round, shl_align. rewrite fexp64_eq, Dp, Z.add_0_r, V1, Z.sub_0_r.
    replace (match e with Z.neg d0 => (Pos.iter xO p' d0, e) | _ => (p', 0) end)
      with (p', 0) by (destruct e; [reflexivity|reflexivity|lia]).
    destruct (binary_round_aux_spec false p' 0) as (r & _ & Hr & _ & _ & _ & Er).
    rewrite Er. clear Er. rewrite Dp, Z.add_0_r, V1 in *.
    replace (Z.max 0 e) with e in * by lia. rewrite Z.sub_0_r in Hr.
    rewrite <- Ep in Hr. rewrite Z.mod_mul, Z.div_mul in Hr by lia.
    rewrite (Hr eq_refl). apply encode_small; [|assumption].
    destruct (digits2_bounds m) as [_ B].
    assert (2 ^ Zpos (digits2_pos m) <= 2 ^ 53).
    { apply Z.pow_le_mono_r; [lia|]. unfold fexp64 in V1. lia. }
    lia. }
  rewrite R, <- E, SF2Prim_Prim2SF. reflexivity.
Qed.

(** The integer part of a float at least 1 with a fraction, as a float. *)
Lemma float_of_int_floor d m e p :
  Prim2SF d = S754_finite false m e -> e < 0 ->
  Zpos m / 2 ^ (- e) = Zpos p ->
  exists fsec,
    float_of_int (Zpos p) = Ok fsec
    /\ Prim2SF fsec = S754_finite false (Z.to_pos (Zpos p * 2 ^ (- e))) e.
Proof.
  intros E He Hp. destruct (finite_valid _ _ _ _ E) as [V1 V2].
  set (k := - e) in *. assert (Hk : 0 < k) by (unfold k; lia).
  assert (PK : 0 < 2 ^ k) by (apply Z.pow_pos_nonneg; lia).
  assert (Hdiv : Zpos m = 2 ^ k * Zpos p + Zpos m mod 2 ^ k)
    by (rewrite <- Hp; apply Z.div_mod; lia).
  assert (Hrem : 0 <= Zpos m mod 2 ^ k < 2 ^ k) by (apply Z.mod_pos_bound; lia).
  destruct (digits2_bounds m) as [B1 B2].
  set (D := Zpos (digits2_pos m)) in *.
  assert (HDk : k < D).
  { destruct (Z_lt_le_dec k D); [assumption|exfalso].
    assert (2 ^ D <= 2 ^ k) by (apply Z.pow_le_mono_r; lia). nia. }
  assert (HD : D = 53) by (unfold fexp64 in V1; lia).
  rewrite HD in *.
  assert (Hk52 : k <= 52) by lia.
  assert (Dp : Zpos (digits2_pos p) = 53 - k).
  { apply digits2_unique.
    assert (E52 : 2 ^ (53 - 1) = 2 ^ (53 - k - 1) * 2 ^ k)
      by (rewrite <- Z.pow_add_r by lia; f_equal; lia).
    assert (E53 : 2 ^ 53 = 2 ^ (53 - k) * 2 ^ k)
      by (rewrite <- Z.pow_add_r by lia; f_equal; lia).
    assert (0 < 2 ^ (53 - k - 1)) by (apply Z.pow_pos_nonneg; lia).
    assert (0 < 2 ^ (53 - k)) by (apply Z.pow_pos_nonneg; lia).
    split; nia. }
  assert (R : binary_round prec emax false p 0
              = S754_finite false (Z.to_pos (Zpos p * 2 ^ k)) e).
  { replace k with (0 - e) by (unfold k; lia).
    apply binary_round_shl; [|lia|lia].
    rewrite Dp. unfold fexp64. unfold k. lia. }
  unfold float_of_int. cbn [binary_normalize]. rewrite R.
  eexists. split; [reflexivity|].
  apply Prim2SF_SF2Prim. cbn [SpecFloat.valid_binary].
  unfold bounded, canonical_mantissa. rewrite fexp64_eq.
  rewrite digits2_shift, Dp by lia.
  apply andb_true_intro. split; [apply Z.eqb_eq|apply Z.leb_le].
  - unfold fexp64, k. lia.
  - exact V2.
Qed.

(** A float that is at least 1 has at most 52 fractional bits. *)
Lemma fraction_bits d m e :
  Prim2SF d = S754_finite false m e -> e < 0 -> 2 ^ (- e) <= Zpos m -> -52 <= e.
Proof.
  intros E He Hm. destruct (finite_valid _ _ _ _ E) as [V1 _].
  destruct (digits2_bounds m) as [_ B2].
  set (D := Zpos (digits2_pos m)) in *.
  assert (- e < D).
  { destruct (Z_lt_le_dec (- e) D); [assumption|exfalso].
    assert (2 ^ D <= 2 ^ (- e)) by (apply Z.pow_le_mono_r; lia). lia. }
  unfold fexp64 in V1. lia.
Qed.

(** Subtracting the integer part is exact. *)
Lemma fraction_step d fsec m e p :
  Prim2SF d = S754_finite false m e -> e < 0 ->
  Zpos m / 2 ^ (- e) = Zpos p ->
  Prim2SF fsec = S754_finite false (Z.to_pos (Zpos p * 2 ^ (- e))) e ->
  (Prim2SF (d - fsec) = S754_zero false /\ Zpos m mod 2 ^ (- e) = 0)
  \/ exists mf ef,
       Prim2SF (d - fsec) = S754_finite false mf ef
       /\ ef < 0
       /\ Zpos mf * 2 ^ (- e) = (Zpos m mod 2 ^ (- e)) * 2 ^ (- ef)
       /\ Zpos mf < 2 ^ (- ef).
Proof.
  intros E He Hp Ef.
  set (k := - e) in *. assert (Hk : 0 < k) by (unfold k; lia).
  assert (PK : 0 < 2 ^ k) by (apply Z.pow_pos_nonneg; lia).
  assert (Hdiv : Zpos m = 2 ^ k * Zpos p + Zpos m mod 2 ^ k)
    by (rewrite <- Hp; apply Z.div_mod; lia).
  assert (Hrem : 0 <= Zpos m mod 2 ^ k < 2 ^ k) by (apply Z.mod_pos_bound; lia).
  assert (Hk52 : -52 <= e).
  { apply (fraction_bits d m e E He). fold k. nia. }
  rewrite sub_spec, E, Ef, SF64sub_aligned.
  rewrite Z2Pos.id by lia.
  replace (Zpos m - Zpos p * 2 ^ k) with (Zpos m mod 2 ^ k) by lia.
  destruct (Zpos m mod 2 ^ k) as [|pf|pf] eqn:F; [left; split; reflexivity| |lia].
  right. cbn [binary_normalize].
  set (et := fexp64 (Zpos (digits2_pos pf) + e)).
  assert (Hdf : Zpos (digits2_pos pf) <= k) by (apply digits2_le; lia).
  assert (Het : et = Zpos (digits2_pos pf) + e - 53) by (unfold et, fexp64, k in *; lia).
  assert (Het' : et < e) by (unfold k in *; lia).
  rewrite (binary_round_shl false pf e et eq_refl Het') by lia.
  assert (PE : 0 < 2 ^ (e - et)) by (apply Z.pow_pos_nonneg; lia).
  exists (Z.to_pos (Zpos pf * 2 ^ (e - et))), et.
  split; [reflexivity|]. split; [lia|].
  rewrite Z2Pos.id by lia.
  assert (Epow : 2 ^ (- et) = 2 ^ (e - et) * 2 ^ k).
  { rewrite <- Z.pow_add_r by lia. f_equal. unfold k. lia. }
  rewrite Epow. split; [lia|nia].
Qed.

Lemma shiftl_nonneg_exp a e : 0 <= e -> Z.shiftl a e = a * 2 ^ e.
Proof. intros H. apply Z.shiftl_mul_pow2. exact H. Qed.

(** The two components, over the integers. *)
Lemma split_duration_finite d m e :
  Prim2SF d = S754_finite false m e ->
  exists s n,
    split_duration d = Ok (s, n)
    /\ 0 <= s /\ 0 <= n < 1000000000
    /\ (0 <= e -> s = Zpos m * 2 ^ e /\ n = 0)
    /\ (e < 0 ->
        s * 2 ^ (- e) <= Zpos m < (s + 1) * 2 ^ (- e)
        /\ (n - 1) * 2 ^ (- e) < 1000000000 * (Zpos m - s * 2 ^ (- e))
           < (n + 1) * 2 ^ (- e)).
Proof.
  intros E. unfold split_duration, math_floor. rewrite E. cbn [SF_floor cond_Zopp].
  destruct (Z_le_gt_dec 0 e) as [He|He].
  - (* an integer *)
    assert (P : 0 < 2 ^ e) by (apply Z.pow_pos_nonneg; lia).
    rewrite shiftl_nonneg_exp by assumption.
    rewrite (float_of_int_integral d m e E He).
    rewrite (nanosec_step_zero (d - d) false)
      by (rewrite sub_spec, E; apply SF64sub_same).
    exists (Zpos m * 2 ^ e), 0. repeat split; lia.
  - assert (He' : e < 0) by lia.
    rewrite shiftl_neg by lia.
    set (k := - e) in *. assert (Hk : 0 < k) by (unfold k; lia).
    assert (PK : 0 < 2 ^ k) by (apply Z.pow_pos_nonneg; lia).
    assert (Hdiv : Zpos m = 2 ^ k * (Zpos m / 2 ^ k) + Zpos m mod 2 ^ k)
      by (apply Z.div_mod; lia).
    assert (Hrem : 0 <= Zpos m mod 2 ^ k < 2 ^ k) by (apply Z.mod_pos_bound; lia).
    assert (Hq : 0 <= Zpos m / 2 ^ k) by (apply Z.div_pos; lia).
    destruct (Zpos m / 2 ^ k) as [|p|p] eqn:Q; [| |lia].
    + (* below one: the fraction is the number itself *)
      change (float_of_int 0) with (Ok 0%float).
      assert (Ed : Prim2SF (d - 0) = S754_finite false m e).
      { rewrite sub_spec, E. reflexivity. }
      destruct (nanosec_step (d - 0) m e Ed He') as (ns & Hns & H0 & Hb);
        [fold k; lia|].
      rewrite Hns. exists 0, ns. fold k in Hb.
      repeat split; try lia.
    + destruct (float_of_int_floor d m e p E He' Q) as (fsec & Hf & Ef).
      rewrite Hf.
      destruct (fraction_step d fsec m e p E He' Q Ef)
        as [[Z0 R0]|(mf & ef & Efr & Hef & Hval & Hlt)].
      * rewrite (nanosec_step_zero _ _ Z0).
        exists (Zpos p), 0. fold k in R0. repeat split; try lia.
      * destruct (nanosec_step _ mf ef Efr Hef Hlt) as (ns & Hns & H0 & Hb).
        rewrite Hns. exists (Zpos p), ns. fold k in Hval.
        assert (PE : 0 < 2 ^ (- ef)) by (apply Z.pow_pos_nonneg; lia).
        repeat split; try lia; nia.
Qed.

Lemma split_duration_zero d s :
  Prim2SF d = S754_zero s -> split_duration d = Ok (0, 0).
Proof.
  intros E. unfold split_duration, math_floor. rewrite E. cbn [SF_floor].
  change (float_of_int 0) with (Ok 0%float). cbv iota beta.
  rewrite (nanosec_step_zero (d - 0) (if s then true else false)).
  - reflexivity.
  - rewrite sub_spec, E. destruct s; reflexivity.
Qed.

Local Open Scope Q_scope.

Lemma Q_bounds_of_Z (a s n : Z) (b : positive) :
  (s * Zpos b <= a < (s + 1) * Zpos b)%Z ->
  ((n - 1) * Zpos b < 1000000000 * (a - s * Zpos b) < (n + 1) * Zpos b)%Z ->
  (inject_Z s <= a # b /\ a # b < inject_Z s + 1)
  /\ (inject_Z n - 1 < 1000000000 * ((a # b) - inject_Z s)
      /\ 1000000000 * ((a # b) - inject_Z s) < inject_Z n + 1).
Proof.
  intros H1 H2.
  unfold Qle, Qlt, Qminus, Qplus, Qmult, Qopp, inject_Z. cbn [Qnum Qden].
  rewrite ?Pos.mul_1_r, ?Pos.mul_1_l, ?Z.mul_1_r. 
  repeat split; try lia.
Qed.

Theorem duration_components d :
  (0 <=? d)%float = true -> (d <? infinity)%float = true ->
  exists s n,
    split_duration d = Ok (s, n)
    /\ (inject_Z s <= Qvalue d /\ Qvalue d < inject_Z s + 1)
    /\ (0 <= n < 1000000000)%Z
    /\ (inject_Z n - 1 < 1000000000 * (Qvalue d - inject_Z s)
        /\ 1000000000 * (Qvalue d - inject_Z s) < inject_Z n + 1).
Proof.
  intros H1 H2.
  destruct (nonneg_finite_cases d H1 H2) as [[s E]|(m & e & E)].
  - exists 0%Z, 0%Z. rewrite (split_duration_zero d s E). unfold Qvalue. rewrite E.
    cbn [SF_value]. repeat split; try reflexivity; try discriminate.
  - destruct (split_duration_finite d m e E) as (s & n & Hs & Hs0 & Hn0 & Hp & Hf).
    exists s, n. split; [exact Hs|]. unfold Qvalue. rewrite E.
    destruct e as [|pe|k].
    + destruct (Hp ltac:(lia)) as [-> ->]. cbn [SF_value cond_Zopp].
      rewrite Z.pow_0_r, Z.mul_1_r.
      unfold Qle, Qlt, Qminus, Qplus, Qmult, Qopp, inject_Z. cbn [Qnum Qden].
      repeat split; try lia.
    + destruct (Hp ltac:(lia)) as [-> ->]. cbn [SF_value cond_Zopp].
      unfold Qle, Qlt, Qminus, Qplus, Qmult, Qopp, inject_Z. cbn [Qnum Qden].
      repeat split; try lia.
    + destruct (Hf ltac:(lia)) as [F1 F2]. cbn [SF_value cond_Zopp].
      change (- Z.neg k)%Z with (Zpos k) in F1, F2.
      rewrite <- Pos2Z.inj_pow in F1, F2.
      destruct (Q_bounds_of_Z (Zpos m) s n (2 ^ k)%positive F1 F2) as [Q1 Q2].
      split; [exact Q1|]. split; [exact Hn0|exact Q2].
Qed.

End Binary64.

(** ** The fixed motion duration *)

Example split_duration_1_5 : split_duration 1.5 = Ok (1%Z, 500000000%Z).
Proof. reflexivity. Qed.

Example split_duration_0_3 : split_duration 0.3 = Ok (0%Z, 300000000%Z).
Proof. reflexivity. Qed.

Example split_duration_2_3 : split_duration 2.3 = Ok (2%Z, 299999999%Z).
Proof. reflexivity. Qed.

(** C7.  With [skip_planning] and a finite non-negative duration [d],
    construction succeeds and both precomputed goals carry the duration as
    [(sec, nanosec)], where [sec] is the floor of [d] ([sec <= d < sec + 1]
    exactly) and [nanosec], a whole number of nanoseconds in [0, 10^9), is
    within one nanosecond of [10^9 * (d - sec)].  For [d = 1.5] the
    components are 1 and 500000000, i.e. 0.5 s. *)
Theorem fixed_goal_duration_split :
  (forall a,
     List.length (arg_gripper_joint_names a)
     = List.length (arg_open_gripper_joint_positions a) ->
     List.length (arg_gripper_joint_names a)
     = List.length (arg_closed_gripper_joint_positions a) ->
     arg_skip_planning a = true ->
     (0 <=? arg_skip_planning_fixed_motion_duration a)%float = true ->
     (arg_skip_planning_fixed_motion_duration a <? infinity)%float = true ->
     exists self s n,
       __init__ a = Ok self
       /\ goal_duration (open_dummy_trajectory_goal self) = Some (mkDuration s n)
       /\ goal_duration (close_dummy_trajectory_goal self) = Some (mkDuration s n)
       /\ (inject_Z s <= Qvalue (arg_skip_planning_fixed_motion_duration a)
           /\ Qvalue (arg_skip_planning_fixed_motion_duration a) < inject_Z s + 1)%Q
       /\ (0 <= n < 1000000000)%Z
       /\ (inject_Z n - 1
           < 1000000000 * (Qvalue (arg_skip_planning_fixed_motion_duration a)
                           - inject_Z s)
           /\ 1000000000 * (Qvalue (arg_skip_planning_fixed_motion_duration a)
                            - inject_Z s)
              < inject_Z n + 1)%Q)
  /\ split_duration 1.5 = Ok (1%Z, 500000000%Z)
  /\ goal_duration (open_dummy_trajectory_goal scenario_fixed)
     = Some (mkDuration 1 500000000)
  /\ goal_duration (close_dummy_trajectory_goal scenario_fixed)
     = Some (mkDuration 1 500000000).
Proof.
  split; [|repeat split; reflexivity].
  intros a L1 L2 S H0 Hfin.
  destruct (duration_components _ H0 Hfin) as (s & n & D & Q1 & N & Q2).
  unfold __init__. rewrite <- L1, <- L2, !Nat.eqb_refl, S, D. cbn [negb orb].
  eexists. exists s, n. split; [reflexivity|].
  cbn [open_dummy_trajectory_goal close_dummy_trajectory_goal goal_duration
       option_map]. 
  repeat split; first [reflexivity | apply Q1 | apply Q2 | apply N].
Qed.

Lemma fixed_goal_duration_split_witness :
  exists self s n,
    __init__ scenario_fixed_args = Ok self
    /\ goal_duration (open_dummy_trajectory_goal self) = Some (mkDuration s n)
    /\ goal_duration (close_dummy_trajectory_goal self) = Some (mkDuration s n)
    /\ (inject_Z s <= Qvalue 1.5 /\ Qvalue 1.5 < inject_Z s + 1)%Q
    /\ (0 <= n < 1000000000)%Z
    /\ (inject_Z n - 1 < 1000000000 * (Qvalue 1.5 - inject_Z s)
        /\ 1000000000 * (Qvalue 1.5 - inject_Z s) < inject_Z n + 1)%Q.
Proof.
  apply (proj1 fixed_goal_duration_split scenario_fixed_args); reflexivity.
Defined.

(** * Further properties of the code *)

(** ** The index cache *)

Lemma set_gripper_joint_indices_same self l :
  gripper_joint_indices self = Some l ->
  set_gripper_joint_indices (Some l) self = self.
Proof. destruct self; simpl. now intros ->. Qed.

Lemma is_open_cached self l :
  gripper_joint_indices self = Some l -> snd (is_open self) = self.
Proof.
  intros C. destruct (joint_state (base self)) as [js|] eqn:J.
  - rewrite (is_open_unfold _ _ J). unfold index_map. rewrite C. simpl.
    now apply set_gripper_joint_indices_same.
  - now rewrite is_open_no_snapshot.
Qed.

Lemma is_open_sets_cache self js :
  joint_state (base self) = Some js ->
  exists l, gripper_joint_indices (snd (is_open self)) = Some l.
Proof.
  intros J. rewrite (is_open_unfold _ _ J).
  destruct (index_map self js); simpl; eauto.
Qed.

Lemma open_action_cache self :
  gripper_joint_indices (snd (open_action self)) = gripper_joint_indices self.
Proof.
  unfold open_action, open_without_planning, bind, getattr,
    _send_goal_async_follow_joint_trajectory, move_to_configuration.
  destruct (skip_planning self).
  - destruct (open_dummy_trajectory_goal self); simpl; [|reflexivity].
    destruct (gate_admits _); reflexivity.
  - destruct (gate_admits _); [destruct (Nat.eqb _ _)|]; reflexivity.
Qed.

Lemma close_action_cache self :
  gripper_joint_indices (snd (close_action self)) = gripper_joint_indices self.
Proof.
  unfold close_action, close_without_planning, bind, getattr,
    _send_goal_async_follow_joint_trajectory, move_to_configuration.
  destruct (skip_planning self).
  - destruct (close_dummy_trajectory_goal self); simpl; [|reflexivity].
    destruct (gate_admits _); reflexivity.
  - destruct (gate_admits _); [destruct (Nat.eqb _ _)|]; reflexivity.
Qed.

Lemma open_action_joint_state self :
  joint_state (base (snd (open_action self))) = joint_state (base self).
Proof.
  unfold open_action, open_without_planning, bind, getattr,
    _send_goal_async_follow_joint_trajectory, move_to_configuration.
  destruct (skip_planning self).
  - destruct (open_dummy_trajectory_goal self); simpl; [|reflexivity].
    destruct (gate_admits _); reflexivity.
  - destruct (gate_admits _); [destruct (Nat.eqb _ _)|]; reflexivity.
Qed.

Lemma close_action_joint_state self :
  joint_state (base (snd (close_action self))) = joint_state (base self).
Proof.
  unfold close_action, close_without_planning, bind, getattr,
    _send_goal_async_follow_joint_trajectory, move_to_configuration.
  destruct (skip_planning self).
  - destruct (close_dummy_trajectory_goal self); simpl; [|reflexivity].
    destruct (gate_admits _); reflexivity.
  - destruct (gate_admits _); [destruct (Nat.eqb _ _)|]; reflexivity.
Qed.

(** Every event takes a state to one reached by: the classifier or nothing,
    then an action or nothing, or else a callback. *)
Lemma perform_shape ev self :
  let mid := snd (perform ev self) in
  (is_feedback ev = false ->
   mid = self \/ mid = snd (is_open self)
   \/ mid = snd (open_action self) \/ mid = snd (close_action self)
   \/ mid = snd (open_action (snd (is_open self)))
   \/ mid = snd (close_action (snd (is_open self)))
   \/ (exists f, mid = set_base (f (base self)) self
                 /\ joint_state (f (base self)) = joint_state (base self))).
Proof.
  intros mid Hf. subst mid.
  assert (HT : snd (toggle self) = snd (is_open self)
               \/ snd (toggle self) = snd (open_action (snd (is_open self)))
               \/ snd (toggle self) = snd (close_action (snd (is_open self)))).
  { unfold toggle, bind. destruct (is_open self) as [[[|]|e] s']; simpl; auto. }
  destruct ev as [[|]|[|]| | |s|s| | |msg|be]; try discriminate;
    cbn [perform].
  - cbn [open]. unfold bind.
    destruct (is_open self) as [[[|]|e] s']; simpl; auto 10.
  - cbn [open]. auto.
  - cbn [close]. unfold bind. rewrite is_closed_eq.
    destruct (is_open self) as [[[|]|e] s']; simpl; auto 10.
  - cbn [close]. auto 10.
  - destruct HT as [H|[H|H]]; rewrite H; auto 10.
  - unfold __call__. destruct HT as [H|[H|H]]; rewrite H; auto 10.
  - do 6 right. eexists (log_call _). split; reflexivity.
  - do 6 right. eexists (log_call _). split; reflexivity.
  - unfold discard. destruct (is_open self); auto.
  - unfold discard. rewrite is_closed_eq. auto.
  - do 6 right.
    exists (fun b => set_execution_state (backend_transition be (execution_state b)) b).
    split; reflexivity.
Qed.

Lemma perform_keeps_cache ev self l :
  gripper_joint_indices self = Some l ->
  gripper_joint_indices (snd (perform ev self)) = Some l.
Proof.
  intros C. destruct (is_feedback ev) eqn:F.
  - destruct ev; try discriminate. exact C.
  - assert (I := is_open_cached self l C).
    destruct (perform_shape ev self F) as [H|[H|[H|[H|[H|[H|(f & H & _)]]]]]];
      rewrite H, ?I, ?open_action_cache, ?close_action_cache; assumption.
Qed.

Lemma run_keeps_cache evs : forall self l,
  gripper_joint_indices self = Some l ->
  gripper_joint_indices (run evs self) = Some l.
Proof.
  induction evs as [|ev evs IH]; intros self l C; simpl; [exact C|].
  apply IH, perform_keeps_cache, C.
Qed.

(** X1.  Once the index cache holds a list, no operation, property or
    callback replaces or clears it: it holds the same list in every later
    state, whatever snapshots arrive. *)
Theorem index_cache_is_never_recomputed self l evs :
  gripper_joint_indices self = Some l ->
  gripper_joint_indices (run evs self) = Some l.
Proof. apply run_keeps_cache. Qed.

Lemma index_cache_is_never_recomputed_witness :
  gripper_joint_indices
    (run [E_joint_state snapshot_swapped; E_is_open; E_toggle; E_open true]
         (snd (is_open (with_snapshot snapshot_both two_joints))))
  = Some [0%nat; 1%nat].
Proof.
  apply (index_cache_is_never_recomputed
           (snd (is_open (with_snapshot snapshot_both two_joints)))).
  reflexivity.
Defined.

Lemma find_joint_indices_prefix names js : forall acc e r,
  find_joint_indices names js acc = (Raise e, r) ->
  exists l n,
    r = acc ++ l
    /\ (List.length l < List.length names)%nat
    /\ Forall2 (indexed_in js) (firstn (List.length l) names) l
    /\ nth_error names (List.length l) = Some n
    /\ ~ In n (name js).
Proof.
  induction names as [|m names IH]; simpl; intros acc e r H; [discriminate|].
  destruct (index m (name js)) as [k|] eqn:E.
  - destruct (IH _ _ _ H) as (l & n & -> & Hl & HF & Hn & Hnot).
    exists (k :: l), n. rewrite <- app_assoc. simpl.
    repeat split; try assumption; try lia.
    constructor; assumption.
  - injection H as _ <-. exists [], m. rewrite app_nil_r. simpl.
    repeat split; try lia; try constructor. now apply index_None.
Qed.

(** X2.  When the first lookup fails on a missing name, the cache is left
    holding exactly the indices of the joints that come before the first
    missing one, so it is shorter than the joint list; that shorter list is
    the index map of every later call. *)
Theorem failed_lookup_leaves_partial_cache self js :
  joint_state (base self) = Some js ->
  gripper_joint_indices self = None ->
  (exists n, In n (joint_names (base self)) /\ ~ In n (name js)) ->
  exists l n,
    gripper_joint_indices (snd (is_open self)) = Some l
    /\ (List.length l < List.length (joint_names (base self)))%nat
    /\ Forall2 (indexed_in js)
         (firstn (List.length l) (joint_names (base self))) l
    /\ nth_error (joint_names (base self)) (List.length l) = Some n
    /\ ~ In n (name js)
    /\ forall evs js', index_map (run evs (snd (is_open self))) js' = Some l.
Proof.
  intros J C M.
  destruct (find_joint_indices_missing _ js [] M) as [r F].
  destruct (find_joint_indices_prefix _ _ _ _ _ F) as (l & n & -> & Hl & HF & Hn & Hnot).
  assert (U := is_open_unfold self js J). unfold index_map in U.
  rewrite C, F in U. simpl in U.
  exists l, n. rewrite U. simpl.
  repeat split; try assumption.
  intros evs js'. unfold index_map.
  now rewrite (run_keeps_cache evs (set_gripper_joint_indices (Some l) self) l
                 eq_refl).
Qed.

Lemma failed_lookup_leaves_partial_cache_witness :
  exists l n,
    gripper_joint_indices
      (snd (is_open (with_snapshot snapshot_first_only two_joints))) = Some l
    /\ (List.length l < 2)%nat
    /\ Forall2 (indexed_in snapshot_first_only)
         (firstn (List.length l) ["j1"%string; "j2"%string]) l
    /\ nth_error ["j1"%string; "j2"%string] (List.length l) = Some n
    /\ ~ In n ["j1"%string]
    /\ forall evs js',
         index_map
           (run evs (snd (is_open (with_snapshot snapshot_first_only two_joints))))
           js' = Some l.
Proof.
  apply (failed_lookup_leaves_partial_cache
           (with_snapshot snapshot_first_only two_joints) snapshot_first_only).
  - reflexivity.
  - reflexivity.
  - exists "j2"%string. split; [right; left; reflexivity|].
    intros [H|[]]. discriminate.
Defined.

Lemma is_open_cached_no_value_error self l :
  gripper_joint_indices self = Some l ->
  fst (is_open self) <> Raise ValueError.
Proof.
  intros C. destruct (joint_state (base self)) as [js|] eqn:J.
  - rewrite (is_open_unfold _ _ J). unfold index_map. rewrite C. simpl.
    intros H. apply within_open_tolerance_raise in H. discriminate.
  - rewrite is_open_no_snapshot by assumption. discriminate.
Qed.

(** X3.  The lookup by name is attempted on one call only: once [is_open]
    has been evaluated with a snapshot present, whether it returned or
    raised, no later evaluation raises [ValueError], in any later state. *)
Theorem lookup_is_attempted_once self js evs :
  joint_state (base self) = Some js ->
  fst (is_open (run evs (snd (is_open self)))) <> Raise ValueError.
Proof.
  intros J. destruct (is_open_sets_cache self js J) as [l C].
  apply (is_open_cached_no_value_error _ l), run_keeps_cache, C.
Qed.

Lemma lookup_is_attempted_once_witness :
  fst (is_open (with_snapshot snapshot_first_only two_joints)) = Raise ValueError
  /\ fst (is_open (run [E_joint_state snapshot_other; E_toggle]
                     (snd (is_open (with_snapshot snapshot_first_only two_joints)))))
     <> Raise ValueError.
Proof.
  split; [reflexivity|].
  apply (lookup_is_attempted_once
           (with_snapshot snapshot_first_only two_joints) snapshot_first_only).
  reflexivity.
Defined.

(** X4.  The properties write to the instance on one occasion only, the
    first evaluation with a snapshot present, which fills the cache; with no
    snapshot, or with the cache filled, [is_open] and [is_closed] leave the
    instance exactly as it was. *)
Theorem classifier_writes_only_the_first_cache self :
  (snd (is_open self) = self
   <-> ~ (gripper_joint_indices self = None
          /\ exists js, joint_state (base self) = Some js))
  /\ snd (is_closed self) = snd (is_open self)
  /\ base (snd (is_open self)) = base self.
Proof.
  split; [|split; [now rewrite is_closed_eq|apply is_open_base]].
  split.
  - intros E [C [js J]]. destruct (is_open_sets_cache self js J) as [l Hl].
    rewrite E in Hl. congruence.
  - intros N. destruct (gripper_joint_indices self) as [l|] eqn:C.
    + now apply (is_open_cached self l).
    + destruct (joint_state (base self)) as [js|] eqn:J.
      * exfalso. apply N. eauto.
      * now rewrite is_open_no_snapshot.
Qed.

(** X5.  With the cache filled, the names in a snapshot play no part: two
    snapshots with the same positions are classified alike, however their
    names are arranged. *)
Theorem cached_lookup_ignores_names self l js js' :
  gripper_joint_indices self = Some l ->
  position js = position js' ->
  fst (is_open (with_snapshot js self)) = fst (is_open (with_snapshot js' self)).
Proof.
  intros C P.
  rewrite (is_open_unfold (with_snapshot js self) js eq_refl).
  rewrite (is_open_unfold (with_snapshot js' self) js' eq_refl).
  unfold index_map. cbn [with_snapshot on_joint_state update_base snd
    set_base gripper_joint_indices]. rewrite C. simpl. now rewrite P.
Qed.

Lemma cached_lookup_ignores_names_witness :
  fst (is_open (with_snapshot snapshot_both
                  (snd (is_open (with_snapshot snapshot_both two_joints)))))
  = fst (is_open (with_snapshot snapshot_swapped
                    (snd (is_open (with_snapshot snapshot_both two_joints))))).
Proof.
  apply (cached_lookup_ignores_names _ [0%nat; 1%nat]); reflexivity.
Defined.

(** ** The first joint that is not fine *)

Lemma within_not_out self js idxs i :
  joint_within_tolerance self js idxs i ->
  joint_out_of_tolerance self js idxs i -> False.
Proof.
  intros (k & p & o & t & H1 & H2 & H3 & H4 & H5)
         (k' & p' & o' & t' & G1 & G2 & G3 & G4 & G5).
  congruence.
Qed.

Lemma within_not_unreadable self js idxs i :
  joint_within_tolerance self js idxs i -> joint_unreadable js idxs i -> False.
Proof.
  intros (k & p & o & t & H1 & H2 & _) (k' & G1 & G2).
  assert (k' = k) by congruence. subst.
  apply nth_error_None in G2. congruence.
Qed.

Lemma out_not_unreadable self js idxs i :
  joint_out_of_tolerance self js idxs i -> joint_unreadable js idxs i -> False.
Proof.
  intros (k & p & o & t & H1 & H2 & _) (k' & G1 & G2).
  assert (k' = k) by congruence. subst.
  apply nth_error_None in G2. congruence.
Qed.

(** What the loop returns, read off the first joint that is out of
    tolerance or has no position. *)
Lemma within_open_tolerance_first self js idxs :
  (List.length idxs <= List.length (open_gripper_joint_positions self))%nat ->
  (List.length idxs <= List.length (open_tolerance self))%nat ->
  match within_open_tolerance 0 idxs (position js)
          (open_gripper_joint_positions self) (open_tolerance self) with
  | Ok true =>
      forall j, (j < List.length idxs)%nat -> joint_within_tolerance self js idxs j
  | Ok false =>
      exists j, joint_out_of_tolerance self js idxs j
                /\ forall i, (i < j)%nat -> joint_within_tolerance self js idxs i
  | Raise e =>
      e = IndexError
      /\ exists j, joint_unreadable js idxs j
                   /\ forall i, (i < j)%nat -> joint_within_tolerance self js idxs i
  end.
Proof.
  unfold joint_within_tolerance, joint_out_of_tolerance, joint_unreadable.
  generalize (position js) (open_gripper_joint_positions self) (open_tolerance self).
  intros positions opens tols.
  assert (G : forall i0,
    (i0 + List.length idxs <= List.length opens)%nat ->
    (i0 + List.length idxs <= List.length tols)%nat ->
    match within_open_tolerance i0 idxs positions opens tols with
    | Ok true =>
        forall j, (j < List.length idxs)%nat ->
          exists k p o t, nth_error idxs j = Some k /\ nth_error positions k = Some p
            /\ nth_error opens (i0 + j) = Some o /\ nth_error tols (i0 + j) = Some t
            /\ (t <? abs (p - o))%float = false
    | Ok false =>
        exists j,
          (exists k p o t, nth_error idxs j = Some k /\ nth_error positions k = Some p
             /\ nth_error opens (i0 + j) = Some o /\ nth_error tols (i0 + j) = Some t
             /\ (t <? abs (p - o))%float = true)
          /\ forall i, (i < j)%nat ->
               exists k p o t, nth_error idxs i = Some k /\ nth_error positions k = Some p
                 /\ nth_error opens (i0 + i) = Some o /\ nth_error tols (i0 + i) = Some t
                 /\ (t <? abs (p - o))%float = false
    | Raise e =>
        e = IndexError
        /\ exists j,
             (exists k, nth_error idxs j = Some k /\ (List.length positions <= k)%nat)
             /\ forall i, (i < j)%nat ->
                  exists k p o t, nth_error idxs i = Some k /\ nth_error positions k = Some p
                    /\ nth_error opens (i0 + i) = Some o /\ nth_error tols (i0 + i) = Some t
                    /\ (t <? abs (p - o))%float = false
    end).
  { induction idxs as [|k idxs IH]; intros i0 Ho Ht.
    - simpl. intros j Hj. inversion Hj.
    - simpl in Ho, Ht. cbn [within_open_tolerance].
      destruct (getitem_lt opens i0 ltac:(lia)) as (o & Go & No).
      destruct (getitem_lt tols i0 ltac:(lia)) as (t & Gt & Nt).
      destruct (nth_error positions k) as [p|] eqn:Np.
      + unfold getitem at 1. rewrite Np, Go, Gt.
        unfold out_of_tolerance.
        destruct (t <? abs (p - o))%float eqn:E.
        * exists 0%nat. rewrite Nat.add_0_r. split.
          -- exists k, p, o, t. auto.
          -- intros i Hi. inversion Hi.
        * assert (Here : exists k' p' o' t',
                    nth_error (k :: idxs) 0 = Some k' /\ nth_error positions k' = Some p'
                    /\ nth_error opens (i0 + 0) = Some o'
                    /\ nth_error tols (i0 + 0) = Some t'
                    /\ (t' <? abs (p' - o'))%float = false).
          { exists k, p, o, t. rewrite Nat.add_0_r. auto. }
          specialize (IH (S i0) ltac:(lia) ltac:(lia)).
          destruct (within_open_tolerance (S i0) idxs positions opens tols)
            as [[|]|e].
          -- intros [|j] Hj; [exact Here|].
             replace (i0 + S j)%nat with (S i0 + j)%nat by lia.
             apply IH. simpl in Hj. lia.
          -- destruct IH as (j & Hj & Hb). exists (S j).
             replace (i0 + S j)%nat with (S i0 + j)%nat by lia.
             split; [exact Hj|]. intros [|i] Hi; [exact Here|].
             replace (i0 + S i)%nat with (S i0 + i)%nat by lia.
             apply Hb. lia.
          -- destruct IH as (-> & j & Hj & Hb). split; [reflexivity|].
             exists (S j). split; [exact Hj|]. intros [|i] Hi; [exact Here|].
             replace (i0 + S i)%nat with (S i0 + i)%nat by lia.
             apply Hb. lia.
      + unfold getitem at 1. rewrite Np. split; [reflexivity|].
        exists 0%nat. split.
        * exists k. split; [reflexivity|]. now apply nth_error_None.
        * intros i Hi. inversion Hi. }
  intros Ho Ht. apply (G 0%nat); assumption.
Qed.

(** X6.  [is_open] is decided by the first joint, in configuration order,
    that is out of tolerance or whose cached index has no position in the
    snapshot: out of tolerance gives false, a missing position raises
    [IndexError], and joints after it are not looked at.  It returns true
    exactly when every joint can be read and is within tolerance. *)
Theorem first_offender_decides self js idxs :
  joint_state (base self) = Some js ->
  index_map self js = Some idxs ->
  (List.length idxs <= List.length (open_gripper_joint_positions self))%nat ->
  (List.length idxs <= List.length (open_tolerance self))%nat ->
  (fst (is_open self) = Ok false
   <-> exists j, joint_out_of_tolerance self js idxs j
                 /\ forall i, (i < j)%nat -> joint_within_tolerance self js idxs i)
  /\ (fst (is_open self) = Raise IndexError
      <-> exists j, joint_unreadable js idxs j
                    /\ forall i, (i < j)%nat -> joint_within_tolerance self js idxs i)
  /\ (fst (is_open self) = Ok true
      <-> forall j, (j < List.length idxs)%nat -> joint_within_tolerance self js idxs j).
Proof.
  intros J I Ho Ht. rewrite (is_open_unfold _ _ J), I. cbn [fst].
  assert (W := within_open_tolerance_first self js idxs Ho Ht).
  assert (Lt_idx : forall j, joint_out_of_tolerance self js idxs j ->
                             (j < List.length idxs)%nat).
  { intros j (k & _ & _ & _ & H & _). apply nth_error_Some. congruence. }
  assert (Lt_idx' : forall j, joint_unreadable js idxs j ->
                              (j < List.length idxs)%nat).
  { intros j (k & H & _). apply nth_error_Some. congruence. }
  destruct (within_open_tolerance 0 idxs (position js)
              (open_gripper_joint_positions self) (open_tolerance self))
    as [[|]|e].
  - (* true *)
    split; [|split].
    + split; [discriminate|]. intros (j & Hj & _). exfalso.
      eapply within_not_out; [apply W, Lt_idx|]; eassumption.
    + split; [discriminate|]. intros (j & Hj & _). exfalso.
      eapply within_not_unreadable; [apply W, Lt_idx'|]; eassumption.
    + split; [intros _; exact W|reflexivity].
  - (* false *)
    destruct W as (j & Hj & Hb). split; [|split].
    + split; [intros _; eauto|reflexivity].
    + split; [discriminate|]. intros (j' & Hj' & Hb'). exfalso.
      destruct (Nat.lt_trichotomy j j') as [L|[->|L]].
      * eapply within_not_out; [apply Hb'|]; eassumption.
      * eapply out_not_unreadable; eassumption.
      * eapply within_not_unreadable; [apply Hb|]; eassumption.
    + split; [discriminate|]. intros H. exfalso.
      eapply within_not_out; [apply H, Lt_idx|]; eassumption.
  - (* an exception *)
    destruct W as (-> & j & Hj & Hb). split; [|split].
    + split; [discriminate|]. intros (j' & Hj' & Hb'). exfalso.
      destruct (Nat.lt_trichotomy j j') as [L|[->|L]].
      * eapply within_not_unreadable; [apply Hb'|]; eassumption.
      * eapply out_not_unreadable; eassumption.
      * eapply within_not_out; [apply Hb|]; eassumption.
    + split; [intros _; eauto|reflexivity].
    + split; [discriminate|]. intros H. exfalso.
      eapply within_not_unreadable; [apply H, Lt_idx'|]; eassumption.
Qed.

Lemma first_offender_decides_witness :
  fst (is_open (with_snapshot snapshot_short
                  (snd (is_open (with_snapshot snapshot_both two_joints)))))
  = Ok false
  <-> exists j,
        joint_out_of_tolerance
          (with_snapshot snapshot_short
             (snd (is_open (with_snapshot snapshot_both two_joints))))
          snapshot_short [0%nat; 1%nat] j
        /\ forall i, (i < j)%nat ->
             joint_within_tolerance
               (with_snapshot snapshot_short
                  (snd (is_open (with_snapshot snapshot_both two_joints))))
               snapshot_short [0%nat; 1%nat] i.
Proof.
  apply (first_offender_decides
           (with_snapshot snapshot_short
              (snd (is_open (with_snapshot snapshot_both two_joints))))
           snapshot_short [0%nat; 1%nat]).
  - reflexivity.
  - reflexivity.
  - simpl. lia.
  - simpl. lia.
Defined.

(** The first joint is out of tolerance in the short snapshot, so the missing
    position of the second one goes unnoticed; with the first joint in place
    it raises. *)
Example short_snapshot :
  fst (is_open (with_snapshot snapshot_short
                  (snd (is_open (with_snapshot snapshot_both two_joints)))))
  = Ok false
  /\ fst (is_open (with_snapshot snapshot_first_only
                     (snd (is_open (with_snapshot snapshot_both two_joints)))))
     = Raise IndexError.
Proof. split; reflexivity. Qed.

(** ** Comparisons of binary64 numbers *)

Section Comparisons.

Local Open Scope Z_scope.

Lemma is_nan_spec x : is_nan x = true <-> Prim2SF x = S754_nan.
Proof.
  unfold is_nan. rewrite eqb_spec. unfold SFeqb.
  destruct (Prim2SF x) as [s|s| |s m e]; simpl.
  - split; discriminate.
  - destruct s; split; discriminate.
  - split; reflexivity.
  - destruct s; rewrite Z.compare_refl, Pos.compare_cont_refl; simpl;
      split; discriminate.
Qed.

Lemma SFltb_nan_r x : SFltb x S754_nan = false.
Proof. destruct x as [s|s| |s m e]; reflexivity. Qed.

Lemma SFltb_nan_l x : SFltb S754_nan x = false.
Proof. destruct x as [s|s| |s m e]; reflexivity. Qed.

Lemma SFsub_nan_l x : SFsub prec emax S754_nan x = S754_nan.
Proof. reflexivity. Qed.

Lemma SFsub_nan_r x : SFsub prec emax x S754_nan = S754_nan.
Proof. destruct x; reflexivity. Qed.

Lemma SFmul_nan_r x : SFmul prec emax x S754_nan = S754_nan.
Proof. destruct x; reflexivity. Qed.

(** A comparison with NaN on either side of the subtraction, or as the
    tolerance, is false. *)
Lemma out_of_tolerance_nan p o t :
  is_nan p = true \/ is_nan o = true \/ is_nan t = true ->
  out_of_tolerance p o t = false.
Proof.
  unfold out_of_tolerance. rewrite ltb_spec, abs_spec, sub_spec.
  intros [H|[H|H]]; apply is_nan_spec in H; rewrite H.
  - rewrite SFsub_nan_l. cbn [SFabs]. apply SFltb_nan_r.
  - rewrite SFsub_nan_r. cbn [SFabs]. apply SFltb_nan_r.
  - apply SFltb_nan_l.
Qed.

Lemma tolerance_of_nan o c :
  is_nan o = true \/ is_nan c = true -> is_nan (tolerance_of o c) = true.
Proof.
  intros H. apply is_nan_spec. unfold tolerance_of.
  rewrite mul_spec, abs_spec, sub_spec.
  destruct H as [H|H]; apply is_nan_spec in H; rewrite H.
  - rewrite SFsub_nan_l. cbn [SFabs]. apply SFmul_nan_r.
  - rewrite SFsub_nan_r. cbn [SFabs]. apply SFmul_nan_r.
Qed.


Lemma binary_round_aux_abs s m e l :
  SFabs (binary_round_aux prec emax s m e l) = binary_round_aux prec emax false m e l.
Proof.
  unfold binary_round_aux.
  destruct (shr_fexp prec emax m e l) as [mrs' e'].
  destruct (shr_fexp prec emax _ e' loc_Exact) as [mrs'' e''].
  destruct (shr_m mrs''); try reflexivity.
  destruct (e'' <=? emax - prec); reflexivity.
Qed.

Lemma binary_normalize_abs_opp g e :
  SFabs (binary_normalize prec emax (- g) e false)
  = SFabs (binary_normalize prec emax g e false).
Proof.
  destruct g as [|p|p]; cbn [Z.opp binary_normalize]; [reflexivity| |];
    unfold binary_round;
    destruct (shl_align p e _) as [mz ez];
    rewrite !binary_round_aux_abs; try reflexivity;
    symmetry; apply binary_round_aux_abs.
Qed.

(** The distance between two numbers does not depend on the order of the
    subtraction. *)
Lemma SFsub_abs_sym x y :
  SFabs (SF64sub x y) = SFabs (SF64sub y x).
Proof.
  unfold SF64sub.
  destruct x as [sx|sx| |sx mx ex], y as [sy|sy| |sy my ey];
    try reflexivity;
    try (destruct sx, sy; reflexivity);
    try (destruct sx; reflexivity);
    try (destruct sy; reflexivity).
  cbn [SFsub]. rewrite (Z.min_comm ey ex).
  rewrite <- binary_normalize_abs_opp. f_equal. f_equal. lia.
Qed.

Lemma abs_sub_sym a b : abs (a - b) = abs (b - a).
Proof.
  apply Prim2SF_inj. rewrite !abs_spec, !sub_spec. apply SFsub_abs_sym.
Qed.

(** A number minus itself is zero, or NaN when it is not finite. *)
Lemma SFsub_self x :
  SFabs (SF64sub x x) = S754_zero false \/ SFabs (SF64sub x x) = S754_nan.
Proof.
  unfold SF64sub. destruct x as [s|s| |s m e].
  - left. destruct s; reflexivity.
  - right. destruct s; reflexivity.
  - right. reflexivity.
  - left. cbn [SFsub]. rewrite Z.sub_diag. reflexivity.
Qed.

Lemma encode_false_not_below_zero r e1 :
  SFltb (encode false r e1) (S754_zero false) = false.
Proof.
  destruct r as [|p|p]; cbn [encode]; try reflexivity.
  destruct (Z.pos p <? 2 ^ 53);
    [destruct (e1 <=? 971)|destruct (e1 + 1 <=? 971)]; reflexivity.
Qed.

Lemma Prim2SF_tenth :
  Prim2SF 0.1 = S754_finite false 7205759403792794 (-56).
Proof. reflexivity. Qed.

(** A tolerance is never negative. *)
Lemma tolerance_not_below_zero o c :
  SFltb (Prim2SF (tolerance_of o c)) (S754_zero false) = false.
Proof.
  unfold tolerance_of. rewrite mul_spec, abs_spec, Prim2SF_tenth.
  destruct (Prim2SF (o - c)) as [s|s| |s m e]; try reflexivity.
  cbn [SFabs]. unfold SF64mul. cbn [SFmul xorb].
  destruct (binary_round_aux_spec false (7205759403792794 * m) (-56 + e))
    as (r & _ & _ & _ & _ & _ & E).
  rewrite E. apply encode_false_not_below_zero.
Qed.

(** A joint reported exactly at its open position is within tolerance,
    whatever the two reference positions are. *)
Lemma at_open_within o c : out_of_tolerance o o (tolerance_of o c) = false.
Proof.
  unfold out_of_tolerance. rewrite ltb_spec, abs_spec, sub_spec.
  destruct (SFsub_self (Prim2SF o)) as [E|E]; rewrite E.
  - apply tolerance_not_below_zero.
  - apply SFltb_nan_r.
Qed.

(** One tenth of a positive finite number is less than the number. *)
Lemma tenth_is_less mx ex :
  fexp64 (Zpos (digits2_pos mx) + ex) = ex -> ex <= 971 ->
  SFltb (SF64mul (S754_finite false 7205759403792794 (-56))
                 (S754_finite false mx ex))
        (S754_finite false mx ex) = true.
Proof.
  intros V1 V2. unfold SF64mul. cbn [SFmul xorb].
  set (m' := (7205759403792794 * mx)%positive).
  assert (Em : Zpos m' = 7205759403792794 * Zpos mx) by (unfold m'; lia).
  destruct (binary_round_aux_spec false m' (-56 + ex))
    as (r & R1 & _ & R3 & _ & Rb & E).
  rewrite E. clear E.
  destruct (digits2_bounds mx) as [Bx1 Bx2].
  set (dx := Zpos (digits2_pos mx)) in *.
  assert (Hdx : 0 < dx) by (unfold dx; lia).
  assert (Hd' : Zpos (digits2_pos m') <= dx + 53).
  { apply digits2_le. rewrite Em, Z.pow_add_r by lia.
    change (2 ^ 53) with 9007199254740992. nia. }
  set (d' := Zpos (digits2_pos m')) in *.
  set (e1 := Z.max (-56 + ex) (fexp64 (d' + (-56 + ex)))) in *.
  set (n := e1 - (-56 + ex)) in *.
  assert (He1lo : -1074 <= e1) by (unfold e1, fexp64; lia).
  assert (He1hi : e1 <= Z.max (ex - 3) (-1074)).
  { unfold e1, fexp64 in *. lia. }
  assert (Hex : -1074 <= ex) by (unfold fexp64 in V1; lia).
  destruct (Z_lt_le_dec (e1 + 1) ex) as [Far|Near].
  - (* the exponent alone decides *)
    destruct r as [|p|p]; cbn [encode]; [reflexivity| |lia].
    destruct (Z.pos p <? 2 ^ 53).
    + destruct (Z.leb_spec e1 971); [|lia].
      unfold SFltb. cbn [SFcompare].
      destruct (Z.compare_spec e1 ex); try lia; reflexivity.
    + destruct (Z.leb_spec (e1 + 1) 971); [|lia].
      unfold SFltb. cbn [SFcompare].
      destruct (Z.compare_spec (e1 + 1) ex); try lia; reflexivity.
  - (* both at the bottom of the range *)
    assert (He1 : e1 = -1074) by lia.
    assert (Hn : 55 <= n <= 56) by (unfold n; lia).
    assert (PA : 0 < 2 ^ n) by (apply Z.pow_pos_nonneg; lia).
    assert (P55 : 2 ^ 55 <= 2 ^ n) by (apply Z.pow_le_mono_r; lia).
    change (2 ^ 55) with 36028797018963968 in P55.
    assert (Hdiv : Zpos m' = 2 ^ n * (Zpos m' / 2 ^ n) + Zpos m' mod 2 ^ n)
      by (apply Z.div_mod; lia).
    assert (Hrem : 0 <= Zpos m' mod 2 ^ n < 2 ^ n) by (apply Z.mod_pos_bound; lia).
    assert (Hq0 : 0 <= Zpos m' / 2 ^ n) by (apply Z.div_pos; lia).
    fold n in R1, R3.
    set (q := Zpos m' / 2 ^ n) in *. set (rem := Zpos m' mod 2 ^ n) in *.
    assert (Hq : 4 * q < Zpos mx) by nia.
    assert (Hr : r < Zpos mx \/ (Zpos mx = 1 /\ r = 1)) by lia.
    assert (Hr' : r < Zpos mx).
    { destruct Hr as [L|[Hm1 Hr1]]; [exact L|exfalso].
      assert (q = 0) by lia.
      assert (Hup : r = q + 1) by lia. specialize (R3 Hup).
      assert (ex = -1074).
      { assert (dx = 1).
        { unfold dx. apply digits2_unique. simpl. lia. }
        unfold fexp64 in V1. lia. }
      assert (n = 56) by (unfold n; lia).
      assert (rem = 7205759403792794) by lia.
      replace n with 56 in R3 by lia.
      change (2 ^ 56) with 72057594037927936 in R3. lia. }
    assert (Hmx53 : Zpos mx < 2 ^ 53).
    { assert (2 ^ dx <= 2 ^ 53).
      { apply Z.pow_le_mono_r; [lia|]. unfold fexp64 in V1. lia. }
      lia. }
    destruct r as [|p|p]; cbn [encode]; [reflexivity| |lia].
    destruct (Z.ltb_spec (Z.pos p) (2 ^ 53)); [|lia].
    destruct (Z.leb_spec e1 971); [|lia].
    unfold SFltb. cbn [SFcompare].
    destruct (Z.compare_spec e1 ex) as [Heq|Hlt|Hgt]; [|reflexivity|lia].
    change (Pos.compare_cont Eq p mx) with (Pos.compare p mx).
    assert (L : (p < mx)%positive) by lia.
    apply Pos.compare_lt_iff in L. now rewrite L.
Qed.

(** A joint reported exactly at its closed position is out of tolerance
    when the two reference positions differ by a finite amount. *)
Lemma at_closed_out o c :
  (0 <? abs (o - c))%float = true ->
  (abs (o - c) <? infinity)%float = true ->
  out_of_tolerance c o (tolerance_of o c) = true.
Proof.
  intros H0 Hfin. unfold out_of_tolerance, tolerance_of.
  rewrite (abs_sub_sym c o).
  rewrite ltb_spec in H0, Hfin. rewrite ltb_spec, mul_spec, Prim2SF_tenth.
  change (Prim2SF 0) with (S754_zero false) in H0.
  change (Prim2SF infinity) with (S754_infinity false) in Hfin.
  assert (V := Prim2SF_valid (abs (o - c))).
  destruct (Prim2SF (abs (o - c))) as [s|s| |s m e] eqn:E.
  - destruct s; discriminate.
  - destruct s; discriminate.
  - discriminate.
  - destruct s; [discriminate|].
    cbn [SpecFloat.valid_binary] in V. unfold bounded, canonical_mantissa in V.
    apply andb_prop in V. destruct V as [V1 V2].
    apply Z.eqb_eq in V1. apply Z.leb_le in V2. rewrite fexp64_eq in V1.
    apply tenth_is_less; assumption.
Qed.

End Comparisons.

(** ** Positions that decide the classification *)

Lemma open_tolerance_of_nth_inv opens closeds : forall i t,
  nth_error (open_tolerance_of opens closeds) i = Some t ->
  exists o c, nth_error opens i = Some o /\ nth_error closeds i = Some c
              /\ t = tolerance_of o c.
Proof.
  unfold open_tolerance_of.
  revert closeds; induction opens as [|o opens IH]; intros [|c closeds] [|i] t H;
    simpl in *; try discriminate.
  - injection H as <-. eauto.
  - now apply IH.
Qed.

Lemma is_open_by_joints self js idxs :
  joint_state (base self) = Some js ->
  index_map self js = Some idxs ->
  lookups_in_range self js idxs ->
  (fst (is_open self) = Ok false /\ exists i, joint_out_of_tolerance self js idxs i)
  \/ (fst (is_open self) = Ok true /\ forall i, ~ joint_out_of_tolerance self js idxs i).
Proof.
  intros J I R. rewrite (is_open_unfold _ _ J), I. cbn [fst].
  destruct (within_open_tolerance_spec (position js)
              (open_gripper_joint_positions self) (open_tolerance self) idxs 0)
    as (b & Hb & Hiff).
  { intros j k Hj. simpl. exact (R j k Hj). }
  rewrite Hb. destruct b.
  - right. split; [reflexivity|]. intros i Hi.
    assert (true = false) by (apply Hiff; exists i; exact Hi). discriminate.
  - left. split; [reflexivity|]. destruct (proj1 Hiff eq_refl) as (j & Hj).
    exists j. exact Hj.
Qed.

(** X7.  A position that is NaN is never out of tolerance, since every
    comparison with NaN is false: a snapshot whose positions of the gripper
    joints are all NaN is classified open. *)
Theorem nan_positions_count_as_open self js idxs :
  joint_state (base self) = Some js ->
  index_map self js = Some idxs ->
  lookups_in_range self js idxs ->
  (forall i k p, nth_error idxs i = Some k ->
                 nth_error (position js) k = Some p -> is_nan p = true) ->
  fst (is_open self) = Ok true.
Proof.
  intros J I R N.
  destruct (is_open_by_joints self js idxs J I R) as [[_ (i & Hi)]|[H _]];
    [exfalso|exact H].
  destruct Hi as (k & p & o & t & H1 & H2 & _ & _ & H5).
  assert (F : out_of_tolerance p o t = false)
    by (apply out_of_tolerance_nan; left; eapply N; eassumption).
  unfold out_of_tolerance in F. congruence.
Qed.

Lemma nan_positions_count_as_open_witness :
  fst (is_open (with_snapshot snapshot_nan scenario)) = Ok true.
Proof.
  apply (nan_positions_count_as_open (with_snapshot snapshot_nan scenario)
           snapshot_nan [0%nat]).
  - reflexivity.
  - reflexivity.
  - intros i k H. destruct i as [|[|i]]; simpl in H; try discriminate.
    injection H as <-. simpl. lia.
  - intros i k p H1 H2. destruct i as [|[|i]]; simpl in H1; try discriminate.
    injection H1 as <-. simpl in H2. injection H2 as <-. reflexivity.
Defined.

(** X8.  A snapshot that reports every gripper joint exactly at its open
    position is classified open, for all reference positions whatsoever
    (a tolerance is never negative). *)
Theorem reported_open_positions_are_open self js idxs :
  well_formed self ->
  joint_state (base self) = Some js ->
  index_map self js = Some idxs ->
  (forall i k, nth_error idxs i = Some k ->
     exists o, nth_error (open_gripper_joint_positions self) i = Some o
               /\ nth_error (position js) k = Some o) ->
  fst (is_open self) = Ok true.
Proof.
  intros WF J I A.
  assert (Lt : List.length (open_tolerance self)
               = List.length (open_gripper_joint_positions self)).
  { rewrite (wf_tolerance WF). unfold open_tolerance_of.
    rewrite length_map, length_combine, (wf_open_length WF), (wf_closed_length WF).
    apply Nat.min_id. }
  assert (R : lookups_in_range self js idxs).
  { intros i k H. destruct (A i k H) as (o & Ho & Hp).
    assert ((k < List.length (position js))%nat) by (apply nth_error_Some; congruence).
    assert ((i < List.length (open_gripper_joint_positions self))%nat)
      by (apply nth_error_Some; congruence).
    lia. }
  destruct (is_open_by_joints self js idxs J I R) as [[_ (i & Hi)]|[H _]];
    [exfalso|exact H].
  destruct Hi as (k & p & o & t & H1 & H2 & H3 & H4 & H5).
  destruct (A i k H1) as (o' & Ho' & Hp').
  assert (o' = o) by congruence. assert (p = o) by congruence. subst.
  rewrite (wf_tolerance WF) in H4.
  destruct (open_tolerance_of_nth_inv _ _ _ _ H4) as (o2 & c & Ho2 & _ & ->).
  assert (o2 = o) by congruence. subst.
  assert (F := at_open_within o c). unfold out_of_tolerance in F. congruence.
Qed.

Lemma reported_open_positions_are_open_witness :
  fst (is_open (with_snapshot snapshot_first_only scenario)) = Ok true.
Proof.
  apply (reported_open_positions_are_open
           (with_snapshot snapshot_first_only scenario)
           snapshot_first_only [0%nat]).
  - apply with_snapshot_well_formed, scenario_well_formed.
  - reflexivity.
  - reflexivity.
  - intros i k H. destruct i as [|[|i]]; simpl in H; try discriminate.
    injection H as <-. exists 0%float. split; reflexivity.
Defined.

(** X9.  A snapshot that reports some joint exactly at its closed position
    is classified closed, provided that joint's open and closed positions
    differ by a finite amount and every lookup is in range: one tenth of
    the span is less than the span. *)
Theorem reported_closed_position_is_closed self js idxs i k o c :
  well_formed self ->
  joint_state (base self) = Some js ->
  index_map self js = Some idxs ->
  lookups_in_range self js idxs ->
  nth_error idxs i = Some k ->
  nth_error (open_gripper_joint_positions self) i = Some o ->
  nth_error (closed_gripper_joint_positions self) i = Some c ->
  nth_error (position js) k = Some c ->
  (0 <? abs (o - c))%float = true ->
  (abs (o - c) <? infinity)%float = true ->
  fst (is_open self) = Ok false /\ fst (is_closed self) = Ok true.
Proof.
  intros WF J I R Hk Ho Hc Hp H0 Hfin.
  assert (F : fst (is_open self) = Ok false).
  { destruct (is_open_by_joints self js idxs J I R) as [[H _]|[_ H]];
      [exact H|exfalso].
    apply (H i). exists k, c, o, (tolerance_of o c).
    repeat split; try assumption.
    - rewrite (wf_tolerance WF). now apply open_tolerance_of_nth.
    - apply (at_closed_out o c H0 Hfin). }
  split; [exact F|]. rewrite is_closed_eq. cbn [fst]. now rewrite F.
Qed.

Lemma reported_closed_position_is_closed_witness :
  fst (is_open (with_snapshot snapshot_closed scenario)) = Ok false
  /\ fst (is_closed (with_snapshot snapshot_closed scenario)) = Ok true.
Proof.
  apply (reported_closed_position_is_closed
           (with_snapshot snapshot_closed scenario) snapshot_closed
           [0%nat] 0%nat 0%nat 0%float 1%float).
  - apply with_snapshot_well_formed, scenario_well_formed.
  - reflexivity.
  - reflexivity.
  - intros j k H. destruct j as [|[|j]]; simpl in H; try discriminate.
    injection H as <-. simpl. lia.
  - reflexivity.
  - reflexivity.
  - reflexivity.
  - reflexivity.
  - reflexivity.
  - reflexivity.
Defined.

(** ** Commands and the classification *)

Lemma is_open_same_view self self' :
  same_view self self' -> fst (is_open self') = fst (is_open self).
Proof.
  intros (J & N & C & O & T). unfold is_open, bind, resolve_joint_indices.
  rewrite J. destruct (joint_state (base self)) as [js|]; [|reflexivity].
  rewrite C, N. destruct (gripper_joint_indices self) as [l|].
  - simpl. now rewrite O, T.
  - destruct (find_joint_indices (joint_names (base self)) js []) as [[u|e] acc];
      simpl; [now rewrite O, T|reflexivity].
Qed.

Lemma same_view_of_parts self self' :
  framed self self' ->
  joint_state (base self') = joint_state (base self) ->
  gripper_joint_indices self' = gripper_joint_indices self ->
  same_view self self'.
Proof.
  intros (N & _ & _ & _ & O & _ & _ & _ & _ & T) J C.
  unfold same_view. auto.
Qed.

Lemma open_action_same_view self : same_view self (snd (open_action self)).
Proof.
  apply same_view_of_parts;
    [apply open_action_framed|apply open_action_joint_state|apply open_action_cache].
Qed.

Lemma close_action_same_view self : same_view self (snd (close_action self)).
Proof.
  apply same_view_of_parts;
    [apply close_action_framed|apply close_action_joint_state|apply close_action_cache].
Qed.

Lemma is_open_again_fst self b :
  fst (is_open self) = Ok b -> fst (is_open (snd (is_open self))) = Ok b.
Proof.
  intros H. destruct (is_open self) as [r s'] eqn:E. simpl in *. subst r.
  now rewrite (is_open_again _ _ _ E).
Qed.

Lemma perform_keeps_classification ev self b :
  is_feedback ev = false ->
  fst (is_open self) = Ok b ->
  fst (is_open (snd (perform ev self))) = Ok b.
Proof.
  intros F H. assert (A := is_open_again_fst self b H).
  destruct (perform_shape ev self F) as [E|[E|[E|[E|[E|[E|(f & E & Jf)]]]]]];
    rewrite E.
  - exact H.
  - exact A.
  - now rewrite (is_open_same_view _ _ (open_action_same_view self)).
  - now rewrite (is_open_same_view _ _ (close_action_same_view self)).
  - now rewrite (is_open_same_view _ _ (open_action_same_view _)).
  - now rewrite (is_open_same_view _ _ (close_action_same_view _)).
  - rewrite (is_open_same_view self); [exact H|].
    apply same_view_of_parts.
    + rewrite <- E. apply perform_framed.
    + exact Jf.
    + reflexivity.
Qed.

(** X10.  Only the feedback callback changes what the classifier says: after
    any sequence of commands, resets, property reads and backend events,
    [is_open] returns what it returned before.  Sending a goal does not
    make the gripper count as moved. *)
Theorem only_feedback_changes_classification evs : forall self b,
  Forall (fun ev => is_feedback ev = false) evs ->
  fst (is_open self) = Ok b ->
  fst (is_open (run evs self)) = Ok b.
Proof.
  induction evs as [|ev evs IH]; intros self b HF H; simpl; [exact H|].
  inversion HF as [|? ? F HF']; subst.
  apply IH; [exact HF'|]. now apply perform_keeps_classification.
Qed.

Lemma only_feedback_changes_classification_witness :
  fst (is_open (with_snapshot snapshot_far scenario)) = Ok false
  /\ fst (is_open (run [E_open true; E_backend GoalAccepted;
                        E_backend GoalSucceeded; E_is_closed;
                        E_reset_open true; E_toggle; E_close false]
                       (with_snapshot snapshot_far scenario))) = Ok false
  /\ fst (is_open (run [E_close true; E_backend GoalAccepted; E_call;
                        E_reset_closed false]
                       (with_snapshot snapshot_near scenario_fixed))) = Ok true.
Proof.
  split; [reflexivity|]. split.
  - apply (only_feedback_changes_classification
             [E_open true; E_backend GoalAccepted; E_backend GoalSucceeded;
              E_is_closed; E_reset_open true; E_toggle; E_close false]
             (with_snapshot snapshot_far scenario) false).
    + repeat constructor.
    + reflexivity.
  - apply (only_feedback_changes_classification
             [E_close true; E_backend GoalAccepted; E_call; E_reset_closed false]
             (with_snapshot snapshot_near scenario_fixed) true).
    + repeat constructor.
    + reflexivity.
Defined.

Lemma toggle_target self b :
  well_formed self ->
  fst (is_open self) = Ok b ->
  fst (toggle self) = Ok tt
  /\ dispatches (if b then closed_gripper_joint_positions self
                 else open_gripper_joint_positions self)
       self (snd (toggle self)).
Proof.
  intros WF H.
  assert (WF' := is_open_well_formed self WF).
  assert (B := is_open_base self).
  destruct (is_open_private self) as (PO & PC & _).
  unfold toggle, bind. destruct (is_open self) as [[b'|e] s'];
    simpl in *; [|discriminate]. injection H as ->.
  destruct b.
  - rewrite <- PC. apply close_action_dispatches; [assumption|now symmetry].
  - rewrite <- PO. apply open_action_dispatches; [assumption|now symmetry].
Qed.

(** The inherited call an action makes is fixed by the configuration, which
    no event changes. *)
Lemma open_action_call self :
  well_formed self ->
  exists call goal,
    is_dispatch_call call = true
    /\ call_target call = open_gripper_joint_positions self
    /\ goal_target goal = open_gripper_joint_positions self
    /\ forall self', framed self self' ->
         open_action self'
         = (Ok tt, set_base (after_call call goal (base self')) self').
Proof.
  intros WF. destruct (skip_planning self) eqn:S.
  - destruct (wf_open_goal WF S) as (s & n & G).
    exists (Call_send_goal_async_follow_joint_trajectory
              (dummy_trajectory_goal (joint_names (base self))
                 (open_gripper_joint_positions self) s n) false),
           (FixedTrajectoryGoal
              (dummy_trajectory_goal (joint_names (base self))
                 (open_gripper_joint_positions self) s n)).
    refine (conj eq_refl (conj eq_refl (conj eq_refl _))).
    intros self' (N & Gr & _ & _ & O & _ & S' & OG & _).
    unfold open_action, open_without_planning, bind, getattr,
      _send_goal_async_follow_joint_trajectory, after_call.
    rewrite S', S, OG, G, gate_admits_log_call.
    destruct (gate_admits (base self')); reflexivity.
  - exists (Call_move_to_configuration (open_gripper_joint_positions self)),
           (PlannedGoal (open_gripper_joint_positions self) (group_name (base self))).
    refine (conj eq_refl (conj eq_refl (conj eq_refl _))).
    intros self' (N & Gr & _ & _ & O & _ & S' & _).
    unfold open_action, move_to_configuration, after_call.
    rewrite S', S, O, gate_admits_log_call.
    change (joint_names (log_call ?c ?b)) with (joint_names b).
    change (group_name (log_call ?c ?b)) with (group_name b).
    rewrite N, Gr, (wf_open_length WF), Nat.eqb_refl.
    destruct (gate_admits (base self')); reflexivity.
Qed.

Lemma close_action_call self :
  well_formed self ->
  exists call goal,
    is_dispatch_call call = true
    /\ call_target call = closed_gripper_joint_positions self
    /\ goal_target goal = closed_gripper_joint_positions self
    /\ forall self', framed self self' ->
         close_action self'
         = (Ok tt, set_base (after_call call goal (base self')) self').
Proof.
  intros WF. destruct (skip_planning self) eqn:S.
  - destruct (wf_close_goal WF S) as (s & n & G).
    exists (Call_send_goal_async_follow_joint_trajectory
              (dummy_trajectory_goal (joint_names (base self))
                 (closed_gripper_joint_positions self) s n) false),
           (FixedTrajectoryGoal
              (dummy_trajectory_goal (joint_names (base self))
                 (closed_gripper_joint_positions self) s n)).
    refine (conj eq_refl (conj eq_refl (conj eq_refl _))).
    intros self' (N & Gr & _ & _ & _ & Cl & S' & _ & CG & _).
    unfold close_action, close_without_planning, bind, getattr,
      _send_goal_async_follow_joint_trajectory, after_call.
    rewrite S', S, CG, G, gate_admits_log_call.
    destruct (gate_admits (base self')); reflexivity.
  - exists (Call_move_to_configuration (closed_gripper_joint_positions self)),
           (PlannedGoal (closed_gripper_joint_positions self)
              (group_name (base self))).
    refine (conj eq_refl (conj eq_refl (conj eq_refl _))).
    intros self' (N & Gr & _ & _ & _ & Cl & S' & _).
    unfold close_action, move_to_configuration, after_call.
    rewrite S', S, Cl, gate_admits_log_call.
    change (joint_names (log_call ?c ?b)) with (joint_names b).
    change (group_name (log_call ?c ?b)) with (group_name b).
    rewrite N, Gr, (wf_closed_length WF), Nat.eqb_refl.
    destruct (gate_admits (base self')); reflexivity.
Qed.

(** Two inherited execution calls in a row: both are on record; the backend
    gets both goals without the flag, the first one only with the flag on an
    idle dispatcher, and none with the flag on a busy one. *)
Lemma after_call_twice call goal b :
  let b2 := after_call call goal (after_call call goal b) in
  requested b2 = call :: call :: requested b
  /\ (ignore_new_calls_while_executing b = false ->
      dispatched b2 = goal :: goal :: dispatched b)
  /\ (ignore_new_calls_while_executing b = true ->
      busy (execution_state b) = false ->
      dispatched b2 = goal :: dispatched b /\ execution_state b2 = Dispatching)
  /\ (ignore_new_calls_while_executing b = true ->
      busy (execution_state b) = true ->
      dispatched b2 = dispatched b /\ execution_state b2 = execution_state b).
Proof.
  destruct b as [n g v i js e d r p]. unfold after_call, gate_admits. cbn.
  destruct i, e; cbn; repeat split; intros; try discriminate; reflexivity.
Qed.

Lemma toggle_unfold self b :
  fst (is_open self) = Ok b ->
  toggle self = (if b then close_action else open_action) (snd (is_open self)).
Proof.
  intros H. unfold toggle, bind.
  destruct (is_open self) as [[b'|e] s']; cbn [fst snd] in *; [|discriminate].
  injection H as ->. destruct b; reflexivity.
Qed.

(** X11.  [toggle] keeps no state of its own: called twice with no feedback
    in between, both calls return normally and make the same inherited call
    for the same target (the closed positions if the snapshot says open, the
    open positions otherwise).  The backend receives that goal twice when
    [ignore_new_calls_while_executing] is off; when it is on, the backend
    receives it once if nothing was in flight (the second call finds the
    first one in flight and is dropped), and not at all otherwise. *)
Theorem toggle_twice_repeats_the_call self b :
  well_formed self ->
  fst (is_open self) = Ok b ->
  let target := if b then closed_gripper_joint_positions self
                else open_gripper_joint_positions self in
  let twice := snd (toggle (snd (toggle self))) in
  fst (toggle self) = Ok tt
  /\ fst (toggle (snd (toggle self))) = Ok tt
  /\ exists call goal,
       is_dispatch_call call = true
       /\ call_target call = target
       /\ goal_target goal = target
       /\ requested (base twice) = call :: call :: requested (base self)
       /\ (ignore_new_calls_while_executing (base self) = false ->
           dispatched (base twice) = goal :: goal :: dispatched (base self))
       /\ (ignore_new_calls_while_executing (base self) = true ->
           busy (execution_state (base self)) = false ->
           dispatched (base twice) = goal :: dispatched (base self)
           /\ execution_state (base twice) = Dispatching)
       /\ (ignore_new_calls_while_executing (base self) = true ->
           busy (execution_state (base self)) = true ->
           dispatched (base twice) = dispatched (base self)
           /\ execution_state (base twice) = execution_state (base self)).
Proof.
  intros WF H target twice.
  assert (H1 : fst (is_open (snd (toggle self))) = Ok b)
    by (apply (perform_keeps_classification E_toggle); [reflexivity|exact H]).
  assert (F1 : framed self (snd (is_open self))) by apply is_open_framed.
  assert (F2 : framed self (snd (is_open (snd (toggle self)))))
    by (eapply framed_trans; [apply toggle_framed|apply is_open_framed]).
  assert (B1 := is_open_base self).
  assert (B2 := is_open_base (snd (toggle self))).
  assert (K : exists call goal,
             is_dispatch_call call = true
             /\ call_target call = target
             /\ goal_target goal = target
             /\ forall self', framed self self' ->
                  (if b then close_action else open_action) self'
                  = (Ok tt, set_base (after_call call goal (base self')) self')).
  { subst target. destruct b;
      [apply close_action_call|apply open_action_call]; exact WF. }
  destruct K as (call & goal & K1 & K2 & K3 & K4).
  assert (T1 := toggle_unfold self b H). rewrite (K4 _ F1), B1 in T1.
  assert (T2 := toggle_unfold (snd (toggle self)) b H1).
  rewrite (K4 _ F2), B2 in T2.
  assert (E : base twice = after_call call goal (after_call call goal (base self))).
  { subst twice. rewrite T2. cbn [snd base set_base]. rewrite T1. reflexivity. }
  split; [now rewrite T1|]. split; [now rewrite T2|].
  exists call, goal. rewrite E.
  refine (conj K1 (conj K2 (conj K3 _))).
  exact (after_call_twice call goal (base self)).
Qed.

Lemma toggle_twice_repeats_the_call_witness :
  (exists goal,
     goal_target goal = [0%float]
     /\ dispatched (base (snd (toggle (snd (toggle
                      (with_snapshot snapshot_far scenario))))))
        = [goal; goal])
  /\ (exists goal,
        goal_target goal = [0%float]
        /\ dispatched (base (snd (toggle (snd (toggle
                         (with_snapshot snapshot_far scenario_fixed))))))
           = [goal]
        /\ execution_state (base (snd (toggle (snd (toggle
                              (with_snapshot snapshot_far scenario_fixed))))))
           = Dispatching).
Proof.
  split.
  - destruct (toggle_twice_repeats_the_call
                (with_snapshot snapshot_far scenario) false
                (with_snapshot_well_formed _ _ scenario_well_formed) eq_refl)
      as (_ & _ & call & goal & _ & _ & G & _ & D & _).
    exists goal. split; [exact G|]. apply D. reflexivity.
  - destruct (toggle_twice_repeats_the_call
                (with_snapshot snapshot_far scenario_fixed) false
                (with_snapshot_well_formed _ _ scenario_fixed_well_formed) eq_refl)
      as (_ & _ & call & goal & _ & _ & G & _ & _ & D & _).
    exists goal. split; [exact G|]. apply D; reflexivity.
Defined.

(** With the flag set, two toggles in a row send one goal. *)
Example second_toggle_is_dropped :
  List.length (dispatched (base (run [E_toggle; E_toggle]
                                   (with_snapshot snapshot_far scenario_fixed))))
  = 1%nat
  /\ List.length (requested (base (run [E_toggle; E_toggle]
                                     (with_snapshot snapshot_far scenario_fixed))))
     = 2%nat
  /\ List.length (dispatched (base (run [E_toggle; E_toggle]
                                      (with_snapshot snapshot_far scenario))))
     = 2%nat.
Proof. repeat split; reflexivity. Qed.

(** X12.  Before the first snapshot arrives a constructed gripper counts as
    open: [open()] does nothing at all, while [close()] and [toggle()] both
    dispatch the closed goal. *)
Theorem fresh_instance_counts_as_open a self :
  __init__ a = Ok self ->
  is_open self = (Ok true, self)
  /\ open true self = (Ok tt, self)
  /\ fst (close true self) = Ok tt
  /\ dispatches (arg_closed_gripper_joint_positions a) self (snd (close true self))
  /\ fst (toggle self) = Ok tt
  /\ dispatches (arg_closed_gripper_joint_positions a) self (snd (toggle self)).
Proof.
  intros H. assert (WF := init_well_formed _ _ H).
  destruct (init_ok_inv _ _ H) as (_ & _ & B & _ & C & _).
  assert (J : joint_state (base self) = None) by (rewrite B; reflexivity).
  assert (I := is_open_no_snapshot self J).
  split; [exact I|]. split.
  { cbn [open]. unfold bind. rewrite I. reflexivity. }
  assert (CL : close true self = close_action self).
  { cbn [close]. unfold bind. rewrite is_closed_eq, I. reflexivity. }
  rewrite CL, <- C.
  destruct (close_action_dispatches self self WF eq_refl) as [R D].
  split; [exact R|]. split; [exact D|].
  apply (toggle_target self true WF). now rewrite I.
Qed.

Lemma fresh_instance_counts_as_open_witness :
  is_open scenario = (Ok true, scenario)
  /\ open true scenario = (Ok tt, scenario)
  /\ fst (close true scenario) = Ok tt
  /\ dispatches [1%float] scenario (snd (close true scenario))
  /\ fst (toggle scenario) = Ok tt
  /\ dispatches [1%float] scenario (snd (toggle scenario)).
Proof.
  apply (fresh_instance_counts_as_open scenario_args scenario). reflexivity.
Defined.

(** ** What construction fixes *)

Lemma open_false_call self call :
  (if skip_planning self
   then exists g, open_dummy_trajectory_goal self = Some g
                  /\ call = Call_send_goal_async_follow_joint_trajectory g false
   else call = Call_move_to_configuration (open_gripper_joint_positions self)) ->
  List.length (open_gripper_joint_positions self)
  = List.length (joint_names (base self)) ->
  fst (open false self) = Ok tt
  /\ requested (base (snd (open false self))) = call :: requested (base self).
Proof.
  intros H L. cbn [open]. unfold open_action, open_without_planning, bind, getattr,
    _send_goal_async_follow_joint_trajectory, move_to_configuration.
  destruct (skip_planning self).
  - destruct H as (g & -> & ->). destruct (gate_admits _); split; reflexivity.
  - subst call. rewrite gate_admits_log_call.
    change (joint_names (log_call _ ?b)) with (joint_names b).
    rewrite L, Nat.eqb_refl. destruct (gate_admits _); split; reflexivity.
Qed.

Lemma close_false_call self call :
  (if skip_planning self
   then exists g, close_dummy_trajectory_goal self = Some g
                  /\ call = Call_send_goal_async_follow_joint_trajectory g false
   else call = Call_move_to_configuration (closed_gripper_joint_positions self)) ->
  List.length (closed_gripper_joint_positions self)
  = List.length (joint_names (base self)) ->
  fst (close false self) = Ok tt
  /\ requested (base (snd (close false self))) = call :: requested (base self).
Proof.
  intros H L. cbn [close]. unfold close_action, close_without_planning, bind, getattr,
    _send_goal_async_follow_joint_trajectory, move_to_configuration.
  destruct (skip_planning self).
  - destruct H as (g & -> & ->). destruct (gate_admits _); split; reflexivity.
  - subst call. rewrite gate_admits_log_call.
    change (joint_names (log_call _ ?b)) with (joint_names b).
    rewrite L, Nat.eqb_refl. destruct (gate_admits _); split; reflexivity.
Qed.

(** X13.  The way a goal is sent is fixed by the construction arguments for
    the whole life of the instance: with [skip_planning] every [open] and
    [close] that acts calls [_send_goal_async_follow_joint_trajectory] with
    the goal precomputed at construction and [wait_until_response=False];
    without it they call [move_to_configuration] with the configured
    positions.  No event changes which call is made or its argument. *)
Theorem sending_mode_is_fixed_at_construction a self evs :
  __init__ a = Ok self ->
  exists call_open call_close,
    planned_call a (arg_open_gripper_joint_positions a) = Ok call_open
    /\ planned_call a (arg_closed_gripper_joint_positions a) = Ok call_close
    /\ fst (open false (run evs self)) = Ok tt
    /\ requested (base (snd (open false (run evs self))))
       = call_open :: requested (base (run evs self))
    /\ fst (close false (run evs self)) = Ok tt
    /\ requested (base (snd (close false (run evs self))))
       = call_close :: requested (base (run evs self)).
Proof.
  intros H. assert (WF := run_well_formed a self evs H).
  destruct (run_framed evs self) as (N & _ & _ & _ & O & C & S & OG & CG & _).
  destruct (init_ok_inv _ _ H) as (_ & _ & B & O0 & C0 & S0 & _ & _ & G).
  assert (N0 : joint_names (base self) = arg_gripper_joint_names a)
    by (rewrite B; reflexivity).
  unfold planned_call.
  destruct (arg_skip_planning a) eqn:SK.
  - destruct (G eq_refl) as (s & n & D & Go & Gc). rewrite D.
    eexists. eexists. split; [reflexivity|]. split; [reflexivity|].
    assert (Ho := open_false_call (run evs self)
                    (Call_send_goal_async_follow_joint_trajectory
                       (dummy_trajectory_goal (arg_gripper_joint_names a)
                          (arg_open_gripper_joint_positions a) s n) false)).
    assert (Hc := close_false_call (run evs self)
                    (Call_send_goal_async_follow_joint_trajectory
                       (dummy_trajectory_goal (arg_gripper_joint_names a)
                          (arg_closed_gripper_joint_positions a) s n) false)).
    rewrite S, S0 in Ho, Hc.
    destruct Ho as [Ho1 Ho2];
      [exists (dummy_trajectory_goal (arg_gripper_joint_names a)
                 (arg_open_gripper_joint_positions a) s n);
       split; [now rewrite OG|reflexivity]
      |apply (wf_open_length WF)|].
    destruct Hc as [Hc1 Hc2];
      [exists (dummy_trajectory_goal (arg_gripper_joint_names a)
                 (arg_closed_gripper_joint_positions a) s n);
       split; [now rewrite CG|reflexivity]
      |apply (wf_closed_length WF)|].
    auto.
  - eexists. eexists. split; [reflexivity|]. split; [reflexivity|].
    assert (Ho := open_false_call (run evs self)
                    (Call_move_to_configuration (arg_open_gripper_joint_positions a))).
    assert (Hc := close_false_call (run evs self)
                    (Call_move_to_configuration (arg_closed_gripper_joint_positions a))).
    rewrite S, S0 in Ho, Hc.
    destruct Ho as [Ho1 Ho2];
      [now rewrite O, O0|apply (wf_open_length WF)|].
    destruct Hc as [Hc1 Hc2];
      [now rewrite C, C0|apply (wf_closed_length WF)|].
    auto.
Qed.

Lemma sending_mode_is_fixed_at_construction_witness :
  exists call_open call_close,
    planned_call scenario_fixed_args [0%float] = Ok call_open
    /\ planned_call scenario_fixed_args [1%float] = Ok call_close
    /\ fst (open false (run [E_joint_state snapshot_far; E_toggle] scenario_fixed))
       = Ok tt
    /\ requested (base (snd (open false
                               (run [E_joint_state snapshot_far; E_toggle]
                                    scenario_fixed))))
       = call_open
         :: requested (base (run [E_joint_state snapshot_far; E_toggle]
                                 scenario_fixed))
    /\ fst (close false (run [E_joint_state snapshot_far; E_toggle] scenario_fixed))
       = Ok tt
    /\ requested (base (snd (close false
                               (run [E_joint_state snapshot_far; E_toggle]
                                    scenario_fixed))))
       = call_close
         :: requested (base (run [E_joint_state snapshot_far; E_toggle]
                                 scenario_fixed)).
Proof.
  apply (sending_mode_is_fixed_at_construction scenario_fixed_args scenario_fixed).
  reflexivity.
Defined.

(** X14.  What construction stored is what every later state holds: the
    joint names, the open and closed positions, the tolerances derived from
    them, the planning mode and the admission flag are never modified by an
    operation, a property or a callback. *)
Theorem configuration_is_immutable a self evs :
  __init__ a = Ok self ->
  joint_names (base (run evs self)) = arg_gripper_joint_names a
  /\ open_gripper_joint_positions (run evs self)
     = arg_open_gripper_joint_positions a
  /\ closed_gripper_joint_positions (run evs self)
     = arg_closed_gripper_joint_positions a
  /\ open_tolerance (run evs self)
     = open_tolerance_of (arg_open_gripper_joint_positions a)
                         (arg_closed_gripper_joint_positions a)
  /\ skip_planning (run evs self) = arg_skip_planning a
  /\ ignore_new_calls_while_executing (base (run evs self))
     = arg_ignore_new_calls_while_executing a
  /\ open_dummy_trajectory_goal (run evs self) = open_dummy_trajectory_goal self
  /\ close_dummy_trajectory_goal (run evs self) = close_dummy_trajectory_goal self.
Proof.
  intros H.
  destruct (run_framed evs self) as (N & _ & I & _ & O & C & S & OG & CG & T).
  destruct (init_ok_inv _ _ H) as (_ & _ & B & O0 & C0 & S0 & T0 & _).
  rewrite N, I, O, C, S, OG, CG, T, B, O0, C0, S0, T0. repeat split.
Qed.

Lemma configuration_is_immutable_witness :
  joint_names (base (run [E_joint_state snapshot_far; E_toggle; E_reset_open true]
                         scenario)) = ["j1"%string]
  /\ open_tolerance (run [E_joint_state snapshot_far; E_toggle; E_reset_open true]
                         scenario) = open_tolerance_of [0%float] [1%float].
Proof.
  destruct (configuration_is_immutable scenario_args scenario
              [E_joint_state snapshot_far; E_toggle; E_reset_open true] eq_refl)
    as (N & _ & _ & T & _).
  split; [exact N|exact T].
Defined.

(** ** Corner cases of the lookup *)

Lemma is_open_cache_bounded self :
  (forall l, gripper_joint_indices self = Some l ->
             (List.length l <= List.length (joint_names (base self)))%nat) ->
  forall l, gripper_joint_indices (snd (is_open self)) = Some l ->
            (List.length l <= List.length (joint_names (base self)))%nat.
Proof.
  intros Inv l. destruct (joint_state (base self)) as [js|] eqn:J.
  - rewrite (is_open_unfold _ _ J). unfold index_map.
    destruct (gripper_joint_indices self) as [c|] eqn:C.
    + simpl. intros E. injection E as <-. now apply Inv.
    + destruct (find_joint_indices (joint_names (base self)) js [])
        as [[u|e] r] eqn:F; simpl; intros E; injection E as <-.
      * destruct (find_joint_indices_ok _ _ _ _ _ F) as (idxs & -> & HF).
        destruct (Forall2_indexed_in_nth _ _ _ HF) as [Hl _]. simpl. lia.
      * destruct (find_joint_indices_prefix _ _ _ _ _ F)
          as (idxs & n & -> & Hl & _). simpl. lia.
  - rewrite is_open_no_snapshot by assumption. apply Inv.
Qed.

Lemma perform_cache_bounded ev self :
  (forall l, gripper_joint_indices self = Some l ->
             (List.length l <= List.length (joint_names (base self)))%nat) ->
  forall l, gripper_joint_indices (snd (perform ev self)) = Some l ->
            (List.length l
             <= List.length (joint_names (base (snd (perform ev self)))))%nat.
Proof.
  intros Inv l.
  destruct (perform_framed ev self) as (N & _). rewrite N.
  assert (I := is_open_cache_bounded self Inv).
  destruct (is_feedback ev) eqn:F.
  - destruct ev; try discriminate. apply Inv.
  - destruct (perform_shape ev self F) as [H|[H|[H|[H|[H|[H|(f & H & _)]]]]]];
      rewrite H, ?open_action_cache, ?close_action_cache; auto.
Qed.

Lemma run_cache_bounded evs : forall self,
  (forall l, gripper_joint_indices self = Some l ->
             (List.length l <= List.length (joint_names (base self)))%nat) ->
  forall l, gripper_joint_indices (run evs self) = Some l ->
            (List.length l <= List.length (joint_names (base (run evs self))))%nat.
Proof.
  induction evs as [|ev evs IH]; intros self Inv; simpl; [exact Inv|].
  apply IH. now apply perform_cache_bounded.
Qed.

(** X15.  Construction accepts a gripper with no joints, and such a gripper
    is open in every state: [is_open] is true and [is_closed] false whatever
    snapshots arrive, so [open()] never acts. *)
Theorem gripper_without_joints_is_always_open a self evs :
  __init__ a = Ok self ->
  arg_gripper_joint_names a = [] ->
  fst (is_open (run evs self)) = Ok true
  /\ fst (is_closed (run evs self)) = Ok false
  /\ fst (open true (run evs self)) = Ok tt
  /\ base (snd (open true (run evs self))) = base (run evs self).
Proof.
  intros H E.
  destruct (init_ok_inv _ _ H) as (_ & _ & B & _ & _ & _ & _ & C0 & _).
  destruct (run_framed evs self) as (N & _).
  assert (Nil : joint_names (base (run evs self)) = []).
  { rewrite N, B. exact E. }
  assert (Cb := run_cache_bounded evs self).
  assert (Inv : forall l, gripper_joint_indices (run evs self) = Some l -> l = []).
  { intros l Hl. specialize (Cb ltac:(intros l0 El0; congruence) l Hl).
    rewrite Nil in Cb. destruct l; [reflexivity|simpl in Cb; lia]. }
  assert (T : fst (is_open (run evs self)) = Ok true).
  { destruct (joint_state (base (run evs self))) as [js|] eqn:J.
    - rewrite (is_open_unfold _ _ J). unfold index_map. rewrite Nil.
      destruct (gripper_joint_indices (run evs self)) as [l|] eqn:C.
      + rewrite (Inv l eq_refl). reflexivity.
      + reflexivity.
    - now rewrite is_open_no_snapshot. }
  split; [exact T|]. split; [rewrite is_closed_eq; cbn [fst]; now rewrite T|].
  cbn [open]. unfold bind. destruct (is_open (run evs self)) as [r s'] eqn:I.
  simpl in T. subst r. simpl.
  split; [reflexivity|]. change s' with (snd (Ok true, s')). rewrite <- I.
  apply is_open_base.
Qed.

Lemma gripper_without_joints_is_always_open_witness :
  fst (is_open (run [E_joint_state snapshot_far; E_toggle]
                    (constructed no_joints_args))) = Ok true
  /\ fst (is_closed (run [E_joint_state snapshot_far; E_toggle]
                         (constructed no_joints_args))) = Ok false
  /\ fst (open true (run [E_joint_state snapshot_far; E_toggle]
                         (constructed no_joints_args))) = Ok tt
  /\ base (snd (open true (run [E_joint_state snapshot_far; E_toggle]
                               (constructed no_joints_args))))
     = base (run [E_joint_state snapshot_far; E_toggle]
                 (constructed no_joints_args)).
Proof.
  apply (gripper_without_joints_is_always_open no_joints_args
           (constructed no_joints_args)); reflexivity.
Defined.

(** X16.  The index cached for a joint is the earliest place of its name in
    the snapshot seen by the first lookup: when a name occurs more than once
    there, the later occurrences are never read. *)
Theorem cached_index_is_first_occurrence self js idxs i n k :
  gripper_joint_indices self = None ->
  index_map self js = Some idxs ->
  nth_error (joint_names (base self)) i = Some n ->
  nth_error idxs i = Some k ->
  nth_error (name js) k = Some n
  /\ forall j, (j < k)%nat -> nth_error (name js) j <> Some n.
Proof.
  intros C I Hn Hk. unfold index_map in I. rewrite C in I.
  destruct (find_joint_indices (joint_names (base self)) js [])
    as [[u|e] r] eqn:F; [|discriminate].
  injection I as <-.
  destruct (find_joint_indices_ok _ _ _ _ _ F) as (l & -> & HF). simpl in Hk.
  assert (Hi : indexed_in js n k).
  { clear F. revert i Hn Hk. induction HF as [|n0 k0 ns ks H0 HF IH];
      intros [|i] Hn Hk; simpl in *; try discriminate.
    - injection Hn as <-. injection Hk as <-. exact H0.
    - eapply IH; eassumption. }
  unfold indexed_in in Hi. split.
  - apply (index_Some _ _ _ Hi).
  - apply (index_first _ _ _ Hi).
Qed.

Lemma cached_index_is_first_occurrence_witness :
  nth_error (name snapshot_duplicated) 1 = Some "j1"%string
  /\ forall j, (j < 1)%nat -> nth_error (name snapshot_duplicated) j <> Some "j1"%string.
Proof.
  apply (cached_index_is_first_occurrence
           (with_snapshot snapshot_duplicated two_joints) snapshot_duplicated
           [1%nat; 0%nat] 0%nat "j1"%string 1%nat); reflexivity.
Defined.

(** ** Durations of either sign *)

Section AnyDuration.

Local Open Scope Z_scope.

Lemma is_infinity_spec x :
  is_infinity x = true <-> exists s, Prim2SF x = S754_infinity s.
Proof.
  unfold is_infinity. rewrite eqb_spec, abs_spec.
  change (Prim2SF infinity) with (S754_infinity false).
  destruct (Prim2SF x) as [s|s| |s m e]; cbn [SFabs]; unfold SFeqb; cbn [SFcompare].
  - split; [discriminate|intros [? ?]; discriminate].
  - split; [eauto|reflexivity].
  - split; [discriminate|intros [? ?]; discriminate].
  - split; [discriminate|intros [? ?]; discriminate].
Qed.

Lemma is_finite_spec x :
  is_finite x = true
  <-> (exists s, Prim2SF x = S754_zero s)
      \/ (exists s m e, Prim2SF x = S754_finite s m e).
Proof.
  unfold is_finite. rewrite negb_true_iff, orb_false_iff.
  assert (N := is_nan_spec x). assert (I := is_infinity_spec x).
  destruct (Prim2SF x) as [s|s| |s m e] eqn:E.
  - split; [eauto|]. intros _. split.
    + destruct (is_nan x); [|reflexivity]. destruct N as [N _].
      specialize (N eq_refl). discriminate.
    + destruct (is_infinity x); [|reflexivity]. destruct I as [I _].
      destruct (I eq_refl). discriminate.
  - split.
    + intros [_ H]. destruct I as [_ I]. rewrite I in H by eauto. discriminate.
    + intros [[? ?]|(? & ? & ? & ?)]; discriminate.
  - split.
    + intros [H _]. destruct N as [_ N]. rewrite N in H by reflexivity. discriminate.
    + intros [[? ?]|(? & ? & ? & ?)]; discriminate.
  - split; [eauto 6|]. intros _. split.
    + destruct (is_nan x); [|reflexivity]. destruct N as [N _].
      specialize (N eq_refl). discriminate.
    + destruct (is_infinity x); [|reflexivity]. destruct I as [I _].
      destruct (I eq_refl). discriminate.
Qed.

Lemma shl_align_value m e ez :
  ez <= e ->
  Zpos (fst (shl_align m e ez)) = Zpos m * 2 ^ (e - ez).
Proof.
  intros H. unfold shl_align. destruct (ez - e) as [|j|j] eqn:E; try lia.
  - replace (e - ez) with 0 by lia. cbn [fst]. lia.
  - cbn [fst]. rewrite iter_xO. f_equal. f_equal. lia.
Qed.

Lemma shl_align_sum m e et :
  let '(mz, ez) := shl_align m e et in
  Zpos (digits2_pos mz) + ez = Zpos (digits2_pos m) + e /\ ez <= e.
Proof.
  unfold shl_align. destruct (et - e) as [|j|j] eqn:E; try (split; lia).
  assert (Hm : Pos.iter xO m j = Z.to_pos (Zpos m * 2 ^ Zpos j)).
  { apply Pos2Z.inj. rewrite iter_xO, Z2Pos.id; [reflexivity|].
    assert (0 < 2 ^ Zpos j) by (apply Z.pow_pos_nonneg; lia). lia. }
  rewrite Hm, digits2_shift by lia. split; lia.
Qed.

(** Rounding never moves the exponent above the one the format or the
    operand dictates. *)
Lemma binary_round_encode s p e :
  exists r e1,
    binary_round prec emax s p e = encode s r e1
    /\ 0 <= r <= 2 ^ 53
    /\ e1 <= Z.max e (fexp64 (Zpos (digits2_pos p) + e)).
Proof.
  unfold binary_round.
  assert (A := shl_align_sum p e (fexp prec emax (Zpos (digits2_pos p) + e))).
  destruct (shl_align p e _) as [mz ez]. destruct A as [A1 A2].
  destruct (binary_round_aux_spec s mz ez) as (r & _ & _ & _ & _ & Rb & E).
  exists r, (Z.max ez (fexp64 (Zpos (digits2_pos mz) + ez))).
  split; [exact E|]. split; [exact Rb|]. rewrite A1. lia.
Qed.

Lemma encode_cases s r e1 :
  0 <= r <= 2 ^ 53 -> e1 + 1 <= 971 ->
  (exists s', encode s r e1 = S754_zero s')
  \/ (exists mf ef, encode s r e1 = S754_finite s mf ef /\ ef <= e1 + 1).
Proof.
  intros Hr He. destruct r as [|p|p]; cbn [encode]; [left; eauto| |lia].
  right. destruct (Z.pos p <? 2 ^ 53).
  - destruct (Z.leb_spec e1 971); [|lia]. eexists. eexists. split; [reflexivity|lia].
  - destruct (Z.leb_spec (e1 + 1) 971); [|lia].
    eexists. eexists. split; [reflexivity|lia].
Qed.

(** The product with [10e8] of a number that is not huge, truncated. *)
Lemma nanosec_total (frac : float) s mf ef :
  Prim2SF frac = S754_finite s mf ef -> ef <= 900 ->
  exists ns, int_of_float (10e8 * frac) = Ok ns.
Proof.
  intros E Hef. destruct (finite_valid _ _ _ _ E) as [V _].
  unfold int_of_float. rewrite mul_spec, E, Prim2SF_1e9.
  unfold SF64mul. cbn [SFmul].
  set (m' := (8388608000000000 * mf)%positive).
  destruct (binary_round_aux_spec (xorb false s) m' (-23 + ef))
    as (r & _ & _ & _ & _ & Rb & Er).
  rewrite Er. clear Er.
  assert (Hd : Zpos (digits2_pos m') <= 106).
  { apply digits2_le. unfold m'. rewrite Pos2Z.inj_mul.
    destruct (digits2_bounds mf) as [_ B].
    assert (2 ^ Zpos (digits2_pos mf) <= 2 ^ 53).
    { apply Z.pow_le_mono_r; [lia|]. unfold fexp64 in V. lia. }
    change (2 ^ 106) with (2 ^ 53 * 2 ^ 53).
    assert (Z.pos 8388608000000000 < 2 ^ 53) by reflexivity. nia. }
  set (e1 := Z.max (-23 + ef) (fexp64 (Zpos (digits2_pos m') + (-23 + ef)))).
  assert (He1 : e1 + 1 <= 971) by (unfold e1, fexp64; lia).
  destruct (encode_cases (xorb false s) r e1 Rb He1) as [[s' Z0]|(m2 & e2 & F & _)].
  - rewrite Z0. eexists. reflexivity.
  - rewrite F. eexists. reflexivity.
Qed.

(** An integer of at most 53 bits converts exactly, to a float whose
    exponent is not positive. *)
Lemma binary_round_small s p :
  Zpos p <= 2 ^ 53 - 1 ->
  exists mc ec,
    binary_round prec emax s p 0 = S754_finite s mc ec
    /\ ec <= 0
    /\ Zpos mc < 2 ^ 53
    /\ valid_binary (S754_finite s mc ec) = true.
Proof.
  intros Hp.
  assert (Hd : Zpos (digits2_pos p) <= 53) by (apply digits2_le; lia).
  assert (Hd0 : 0 < Zpos (digits2_pos p)) by lia.
  destruct (Z_lt_le_dec (Zpos (digits2_pos p)) 53) as [L|G].
  - set (et := Zpos (digits2_pos p) - 53).
    assert (Het : fexp64 (Zpos (digits2_pos p) + 0) = et) by (unfold fexp64, et; lia).
    rewrite (binary_round_shl s p 0 et Het) by (unfold et; lia).
    assert (P : 0 < 2 ^ (0 - et)) by (apply Z.pow_pos_nonneg; unfold et; lia).
    eexists. eexists. split; [reflexivity|]. split; [unfold et; lia|].
    assert (D : Zpos (digits2_pos (Z.to_pos (Zpos p * 2 ^ (0 - et)))) = 53).
    { rewrite digits2_shift by (unfold et; lia). unfold et. lia. }
    split.
    + destruct (digits2_bounds (Z.to_pos (Zpos p * 2 ^ (0 - et)))) as [_ B].
      rewrite D in B. exact B.
    + cbn [SpecFloat.valid_binary]. unfold bounded, canonical_mantissa.
      rewrite fexp64_eq, D. apply andb_true_intro.
      split; [apply Z.eqb_eq|apply Z.leb_le]; unfold fexp64, et; try lia.
      change (emax - prec) with 971. lia.
  - assert (D : Zpos (digits2_pos p) = 53) by lia.
    unfold binary_round, shl_align. rewrite fexp64_eq, D.
    change (fexp64 (53 + 0) - 0) with 0. cbv beta iota.
    rewrite binary_round_aux_exact by (rewrite ?D; unfold fexp64; lia).
    exists p, 0. split; [reflexivity|]. split; [lia|]. split; [lia|].
    cbn [SpecFloat.valid_binary]. unfold bounded, canonical_mantissa.
    rewrite fexp64_eq, D. reflexivity.
Qed.

Lemma binary_round_integral s m e :
  fexp64 (Zpos (digits2_pos m) + e) = e -> 0 <= e <= 971 ->
  binary_round prec emax s (Z.to_pos (Zpos m * 2 ^ e)) 0 = S754_finite s m e.
Proof.
  intros V1 [He V2].
  assert (P : 0 < 2 ^ e) by (apply Z.pow_pos_nonneg; lia).
  set (p' := Z.to_pos (Zpos m * 2 ^ e)).
  assert (Ep : Zpos m * 2 ^ e = Zpos p') by (unfold p'; rewrite Z2Pos.id; lia).
  assert (Dp : Zpos (digits2_pos p') = Zpos (digits2_pos m) + e)
    by (apply digits2_shift; lia).
  unfold binary_round, shl_align. rewrite fexp64_eq, Dp, Z.add_0_r, V1, Z.sub_0_r.
  replace (match e with Z.neg d0 => (Pos.iter xO p' d0, e) | _ => (p', 0) end)
    with (p', 0) by (destruct e; [reflexivity|reflexivity|lia]).
  destruct (binary_round_aux_spec s p' 0) as (r & _ & Hr & _ & _ & _ & Er).
  rewrite Er. clear Er. rewrite Dp, Z.add_0_r, V1 in *.
  replace (Z.max 0 e) with e in * by lia. rewrite Z.sub_0_r in Hr.
  rewrite <- Ep in Hr. rewrite Z.mod_mul, Z.div_mul in Hr by lia.
  rewrite (Hr eq_refl). apply encode_small; [|assumption].
  destruct (digits2_bounds m) as [_ B].
  assert (2 ^ Zpos (digits2_pos m) <= 2 ^ 53).
  { apply Z.pow_le_mono_r; [lia|]. unfold fexp64 in V1. lia. }
  lia.
Qed.

(** The difference of two floats below [2^53] in magnitude is zero or a
    float with a small exponent. *)
Lemma SF64sub_small s1 m1 e1 s2 m2 e2 :
  e1 <= 0 -> e2 <= 0 -> Zpos m1 < 2 ^ 53 -> Zpos m2 < 2 ^ 53 ->
  (exists s', SF64sub (S754_finite s1 m1 e1) (S754_finite s2 m2 e2) = S754_zero s')
  \/ (exists s' mf ef,
        SF64sub (S754_finite s1 m1 e1) (S754_finite s2 m2 e2)
        = S754_finite s' mf ef /\ ef <= 3).
Proof.
  intros H1 H2 B1 B2. unfold SF64sub. cbn [SFsub].
  set (ez := Z.min e1 e2).
  assert (A1 := shl_align_value m1 e1 ez ltac:(unfold ez; lia)).
  assert (A2 := shl_align_value m2 e2 ez ltac:(unfold ez; lia)).
  set (a1 := Zpos (fst (shl_align m1 e1 ez))) in *.
  set (a2 := Zpos (fst (shl_align m2 e2 ez))) in *.
  assert (Pz : 0 < 2 ^ (- ez)) by (apply Z.pow_pos_nonneg; unfold ez; lia).
  assert (Q1 : 0 < a1 < 2 ^ 53 * 2 ^ (- ez)).
  { rewrite A1. split; [unfold a1; lia|].
    assert (2 ^ (e1 - ez) <= 2 ^ (- ez)) by (apply Z.pow_le_mono_r; unfold ez; lia).
    assert (0 < 2 ^ (e1 - ez)) by (apply Z.pow_pos_nonneg; unfold ez; lia). nia. }
  assert (Q2 : 0 < a2 < 2 ^ 53 * 2 ^ (- ez)).
  { rewrite A2. split; [unfold a2; lia|].
    assert (2 ^ (e2 - ez) <= 2 ^ (- ez)) by (apply Z.pow_le_mono_r; unfold ez; lia).
    assert (0 < 2 ^ (e2 - ez)) by (apply Z.pow_pos_nonneg; unfold ez; lia). nia. }
  set (G := cond_Zopp s1 a1 - cond_Zopp s2 a2).
  assert (HG : Z.abs G < 2 ^ (54 - ez)).
  { replace (54 - ez) with (1 + 53 + - ez) by lia.
    rewrite !Z.pow_add_r by (unfold ez; lia). change (2 ^ 1) with 2.
    unfold G. destruct s1, s2; cbn [cond_Zopp]; lia. }
  assert (Step : forall s p, Zpos p < 2 ^ (54 - ez) ->
            (exists s', binary_round prec emax s p ez = S754_zero s')
            \/ (exists s' mf ef, binary_round prec emax s p ez = S754_finite s' mf ef
                                 /\ ef <= 3)).
  { intros s p Hp.
    destruct (binary_round_encode s p ez) as (r & e' & E & Rb & He').
    assert (Hd : Zpos (digits2_pos p) <= 54 - ez) by (apply digits2_le; assumption).
    assert (He2 : e' <= 2) by (unfold fexp64, ez in *; lia).
    rewrite E.
    destruct (encode_cases s r e' Rb ltac:(lia)) as [[s' Z0]|(mf & ef & F & Hf)].
    - left. eauto.
    - right. exists s, mf, ef. split; [exact F|lia]. }
  destruct G as [|p|p] eqn:EG; cbn [binary_normalize].
  - left. eauto.
  - apply Step. simpl in HG. exact HG.
  - apply Step. simpl in HG. exact HG.
Qed.

Lemma SF64sub_self_finite s m e :
  SF64sub (S754_finite s m e) (S754_finite s m e) = S754_zero false.
Proof. unfold SF64sub. cbn [SFsub]. rewrite Z.sub_diag. reflexivity. Qed.

(** A negative finite duration splits too: the whole part is its floor, a
    negative integer. *)
Lemma split_duration_negative d m e :
  Prim2SF d = S754_finite true m e ->
  exists s n, split_duration d = Ok (s, n) /\ s < 0.
Proof.
  intros E. destruct (finite_valid _ _ _ _ E) as [V1 V2].
  unfold split_duration, math_floor. rewrite E. cbn [SF_floor cond_Zopp].
  change (- Z.pos m) with (Z.neg m).
  destruct (Z_le_gt_dec 0 e) as [He|He].
  - assert (P : 0 < 2 ^ e) by (apply Z.pow_pos_nonneg; lia).
    rewrite shiftl_nonneg_exp by assumption.
    assert (F : float_of_int (Z.neg m * 2 ^ e) = Ok d).
    { unfold float_of_int.
      replace (Z.neg m * 2 ^ e) with (Z.neg (Z.to_pos (Zpos m * 2 ^ e)))
        by (rewrite <- Pos2Z.opp_pos, Z2Pos.id; lia).
      cbn [binary_normalize].
      rewrite (binary_round_integral true m e V1 ltac:(lia)).
      rewrite <- E, SF2Prim_Prim2SF. reflexivity. }
    rewrite F.
    rewrite (nanosec_step_zero (d - d) false)
      by (rewrite sub_spec, E; apply SF64sub_self_finite).
    exists (Z.neg m * 2 ^ e), 0. split; [reflexivity|lia].
  - rewrite shiftl_neg by lia.
    set (k := - e) in *. assert (Hk : 0 < k) by (unfold k; lia).
    assert (PK : 0 < 2 ^ k) by (apply Z.pow_pos_nonneg; lia).
    assert (Hdiv : Z.neg m = 2 ^ k * (Z.neg m / 2 ^ k) + Z.neg m mod 2 ^ k)
      by (apply Z.div_mod; lia).
    assert (Hrem : 0 <= Z.neg m mod 2 ^ k < 2 ^ k) by (apply Z.mod_pos_bound; lia).
    assert (Hm53 : Zpos m < 2 ^ 53).
    { destruct (digits2_bounds m) as [_ B].
      assert (2 ^ Zpos (digits2_pos m) <= 2 ^ 53).
      { apply Z.pow_le_mono_r; [lia|]. unfold fexp64 in V1. lia. }
      lia. }
    assert (P2 : 2 <= 2 ^ k).
    { change 2 with (2 ^ 1) at 1. apply Z.pow_le_mono_r; lia. }
    assert (Hneg : Z.neg m / 2 ^ k < 0) by nia.
    assert (Hlow : - (2 ^ 53 - 1) <= Z.neg m / 2 ^ k) by nia.
    destruct (Z.neg m / 2 ^ k) as [|p|p] eqn:Q; try lia.
    unfold float_of_int. cbn [binary_normalize].
    destruct (binary_round_small true p ltac:(lia)) as (mc & ec & Rc & Hec & Hmc & Vc).
    rewrite Rc.
    assert (Ef : Prim2SF (SF2Prim (S754_finite true mc ec)) = S754_finite true mc ec)
      by (apply Prim2SF_SF2Prim; exact Vc).
    set (fsec := SF2Prim (S754_finite true mc ec)) in *.
    destruct (SF64sub_small true m e true mc ec ltac:(lia) Hec Hm53 Hmc)
      as [[s' Z0]|(s' & mf & ef & F & Hef)].
    + rewrite (nanosec_step_zero (d - fsec) s') by (rewrite sub_spec, E, Ef; exact Z0).
      exists (Z.neg p), 0. split; [reflexivity|lia].
    + destruct (nanosec_total (d - fsec) s' mf ef) as [ns Hns];
        [rewrite sub_spec, E, Ef; exact F|lia|].
      rewrite Hns. exists (Z.neg p), ns. split; [reflexivity|lia].
Qed.

(** Every finite duration splits. *)
Lemma split_duration_total d :
  is_finite d = true -> exists s n, split_duration d = Ok (s, n).
Proof.
  intros H. apply is_finite_spec in H.
  destruct H as [[s E]|(s & m & e & E)].
  - rewrite (split_duration_zero d s E). eauto.
  - destruct s.
    + destruct (split_duration_negative d m e E) as (s & n & H & _). eauto.
    + destruct (split_duration_finite d m e E) as (s & n & H & _). eauto.
Qed.

Lemma split_duration_nan d :
  is_nan d = true -> split_duration d = Raise ValueError.
Proof.
  intros H. apply is_nan_spec in H. unfold split_duration, math_floor.
  now rewrite H.
Qed.

Lemma split_duration_infinite d :
  is_infinity d = true -> split_duration d = Raise OverflowError.
Proof.
  intros H. apply is_infinity_spec in H. destruct H as [s H].
  unfold split_duration, math_floor. now rewrite H.
Qed.

End AnyDuration.

(** ** Which constructions fail *)

Example split_duration_negative_half :
  split_duration (-0.5) = Ok ((-1)%Z, 500000000%Z).
Proof. reflexivity. Qed.

(** A tiny negative duration: the fraction rounds to one whole second. *)
Example split_duration_negative_tiny :
  split_duration (-1e-20) = Ok ((-1)%Z, 1000000000%Z).
Proof. reflexivity. Qed.

Lemma init_with_skip_planning a :
  List.length (arg_gripper_joint_names a)
  = List.length (arg_open_gripper_joint_positions a) ->
  List.length (arg_gripper_joint_names a)
  = List.length (arg_closed_gripper_joint_positions a) ->
  arg_skip_planning a = true ->
  __init__ a
  = match split_duration (arg_skip_planning_fixed_motion_duration a) with
    | Ok (s, n) =>
        Ok (mkMoveIt2Gripper
              (del_redundant_attributes
                 (MoveIt2_init (arg_gripper_joint_names a)
                    (arg_gripper_group_name a) (arg_execute_via_moveit a)
                    (arg_ignore_new_calls_while_executing a)))
              (arg_open_gripper_joint_positions a)
              (arg_closed_gripper_joint_positions a) true
              (Some (dummy_trajectory_goal (arg_gripper_joint_names a)
                       (arg_open_gripper_joint_positions a) s n))
              (Some (dummy_trajectory_goal (arg_gripper_joint_names a)
                       (arg_closed_gripper_joint_positions a) s n))
              (open_tolerance_of (arg_open_gripper_joint_positions a)
                 (arg_closed_gripper_joint_positions a)) None)
    | Raise e => Raise e
    end.
Proof.
  intros L1 L2 S. unfold __init__.
  rewrite <- L1, <- L2, !Nat.eqb_refl, S. cbn [negb orb].
  destruct (split_duration _) as [[s n]|e]; reflexivity.
Qed.

(** X17.  Construction returns an instance exactly when the three lists
    have the same length and, if [skip_planning] is set, the fixed duration
    is finite (of either sign).  With equal lengths and [skip_planning], a
    NaN duration raises [ValueError] and an infinite one [OverflowError]
    (both from [math.floor]); without [skip_planning] the duration is never
    looked at. *)
Theorem construction_succeeds_exactly_when a :
  (is_ok (__init__ a) = true
   <-> List.length (arg_gripper_joint_names a)
       = List.length (arg_open_gripper_joint_positions a)
       /\ List.length (arg_gripper_joint_names a)
          = List.length (arg_closed_gripper_joint_positions a)
       /\ (arg_skip_planning a = false
           \/ is_finite (arg_skip_planning_fixed_motion_duration a) = true))
  /\ (List.length (arg_gripper_joint_names a)
      = List.length (arg_open_gripper_joint_positions a) ->
      List.length (arg_gripper_joint_names a)
      = List.length (arg_closed_gripper_joint_positions a) ->
      arg_skip_planning a = true ->
      (is_nan (arg_skip_planning_fixed_motion_duration a) = true ->
       __init__ a = Raise ValueError)
      /\ (is_infinity (arg_skip_planning_fixed_motion_duration a) = true ->
          __init__ a = Raise OverflowError)).
Proof.
  split.
  - split.
    + intros H. destruct (__init__ a) as [self|e] eqn:I; [|discriminate].
      destruct (init_ok_inv _ _ I) as (L1 & L2 & _).
      split; [exact L1|]. split; [exact L2|].
      destruct (arg_skip_planning a) eqn:S; [right|now left].
      rewrite (init_with_skip_planning a L1 L2 S) in I.
      set (d := arg_skip_planning_fixed_motion_duration a) in *.
      unfold is_finite. rewrite negb_true_iff, orb_false_iff. split.
      * destruct (is_nan d) eqn:N; [|reflexivity].
        rewrite (split_duration_nan d N) in I. discriminate.
      * destruct (is_infinity d) eqn:N; [|reflexivity].
        rewrite (split_duration_infinite d N) in I. discriminate.
    + intros (L1 & L2 & [S|F]).
      * unfold __init__. rewrite <- L1, <- L2, !Nat.eqb_refl, S. reflexivity.
      * destruct (arg_skip_planning a) eqn:S.
        -- rewrite (init_with_skip_planning a L1 L2 S).
           destruct (split_duration_total _ F) as (s & n & D). now rewrite D.
        -- unfold __init__. rewrite <- L1, <- L2, !Nat.eqb_refl, S. reflexivity.
  - intros L1 L2 S. rewrite (init_with_skip_planning a L1 L2 S). split; intros N.
    + now rewrite (split_duration_nan _ N).
    + now rewrite (split_duration_infinite _ N).
Qed.

Lemma construction_succeeds_exactly_when_witness :
  __init__ (mkInitArgs ["j1"%string] [0%float] [1%float] "LHand"
              false false true nan) = Raise ValueError
  /\ __init__ (mkInitArgs ["j1"%string] [0%float] [1%float] "LHand"
                 false false true infinity) = Raise OverflowError.
Proof.
  split.
  - apply (proj2 (construction_succeeds_exactly_when
             (mkInitArgs ["j1"%string] [0%float] [1%float] "LHand"
                false false true nan))); reflexivity.
  - apply (proj2 (construction_succeeds_exactly_when
             (mkInitArgs ["j1"%string] [0%float] [1%float] "LHand"
                false false true infinity))); reflexivity.
Defined.

(** ** More on tolerances, resets and exceptions *)

(** X18.  A tolerance depends only on the distance between the open and the
    closed position: exchanging the two position lists leaves every
    tolerance as it was. *)
Theorem tolerance_ignores_which_end_is_open opens closeds :
  open_tolerance_of opens closeds = open_tolerance_of closeds opens.
Proof.
  unfold open_tolerance_of.
  revert closeds. induction opens as [|o opens IH]; intros [|c closeds];
    simpl; try reflexivity.
  f_equal; [|apply IH]. unfold tolerance_of. now rewrite abs_sub_sym.
Qed.

Lemma reset_open_unfold sync self :
  reset_open sync self
  = (Ok tt, set_base (log_call (Call_reset_controller
                                  (open_gripper_joint_positions self) sync)
                               (base self)) self).
Proof. reflexivity. Qed.

Lemma reset_closed_unfold sync self :
  reset_closed sync self
  = (Ok tt, set_base (log_call (Call_reset_controller
                                  (closed_gripper_joint_positions self) sync)
                               (base self)) self).
Proof. reflexivity. Qed.

(** X19.  In every state of a constructed instance, [reset_open(sync)] and
    [reset_closed(sync)] return normally and call [reset_controller] with
    the open, respectively closed, positions given at construction and the
    caller's [sync]; they do not read the snapshot or the classifier, so the
    index cache and the classification are as before. *)
Theorem resets_pass_the_configured_positions a self evs sync :
  __init__ a = Ok self ->
  let s := run evs self in
  fst (reset_open sync s) = Ok tt
  /\ requested (base (snd (reset_open sync s)))
     = Call_reset_controller (arg_open_gripper_joint_positions a) sync
       :: requested (base s)
  /\ fst (reset_closed sync s) = Ok tt
  /\ requested (base (snd (reset_closed sync s)))
     = Call_reset_controller (arg_closed_gripper_joint_positions a) sync
       :: requested (base s)
  /\ gripper_joint_indices (snd (reset_open sync s)) = gripper_joint_indices s
  /\ gripper_joint_indices (snd (reset_closed sync s)) = gripper_joint_indices s
  /\ fst (is_open (snd (reset_open sync s))) = fst (is_open s)
  /\ fst (is_open (snd (reset_closed sync s))) = fst (is_open s).
Proof.
  intros H s.
  destruct (run_framed evs self) as (_ & _ & _ & _ & O & C & _).
  destruct (init_ok_inv _ _ H) as (_ & _ & _ & O0 & C0 & _).
  fold s in O, C.
  rewrite reset_open_unfold, reset_closed_unfold, O, C, O0, C0. cbn [fst snd].
  repeat split.
  - apply is_open_same_view. unfold same_view. simpl. repeat split.
  - apply is_open_same_view. unfold same_view. simpl. repeat split.
Qed.

Lemma resets_pass_the_configured_positions_witness :
  requested (base (snd (reset_open false
                          (run [E_joint_state snapshot_far; E_toggle] scenario))))
  = Call_reset_controller [0%float] false
    :: requested (base (run [E_joint_state snapshot_far; E_toggle] scenario)).
Proof.
  apply (resets_pass_the_configured_positions scenario_args scenario
           [E_joint_state snapshot_far; E_toggle] false).
  reflexivity.
Defined.

Lemma is_open_raises self e :
  fst (is_open self) = Raise e ->
  (e = ValueError /\ gripper_joint_indices self = None) \/ e = IndexError.
Proof.
  destruct (joint_state (base self)) as [js|] eqn:J.
  - rewrite (is_open_unfold _ _ J). unfold index_map.
    destruct (gripper_joint_indices self) as [l|].
    + simpl. intros H. right. eapply within_open_tolerance_raise; eassumption.
    + destruct (find_joint_indices _ js []) as [[u|e'] r]; simpl; intros H.
      * right. eapply within_open_tolerance_raise; eassumption.
      * injection H as <-. now left.
  - rewrite is_open_no_snapshot by assumption. discriminate.
Qed.

(** X20.  A command on a constructed instance raises nothing of its own:
    [open], [close], [toggle] and the call either return normally or pass on
    the exception of the [is_open] they evaluated, which is the lookup's
    [ValueError] (first lookup only) or an [IndexError]; in particular the
    precomputed goals are always there when [skip_planning] asks for them.
    With [skip_if_noop=False], [open] and [close] cannot raise at all. *)
Theorem commands_raise_only_what_is_open_raises self ev :
  well_formed self ->
  is_command ev = true ->
  (fst (perform ev self) = Ok tt
   \/ exists e, fst (perform ev self) = Raise e
                /\ fst (is_open self) = Raise e
                /\ ((e = ValueError /\ gripper_joint_indices self = None)
                    \/ e = IndexError))
  /\ fst (open false self) = Ok tt
  /\ fst (close false self) = Ok tt.
Proof.
  intros WF C.
  assert (WF' := is_open_well_formed self WF).
  destruct (open_action_spec self WF) as (c1 & g1 & _ & _ & _ & E1).
  destruct (close_action_spec self WF) as (c2 & g2 & _ & _ & _ & E2).
  destruct (open_action_spec _ WF') as (c3 & g3 & _ & _ & _ & E3).
  destruct (close_action_spec _ WF') as (c4 & g4 & _ & _ & _ & E4).
  split; [|split; [cbn [open]; now rewrite E1|cbn [close]; now rewrite E2]].
  destruct (command_shape ev self C)
    as [E|[E|[(e & I & E)|(b & I & [E|[E|E]])]]]; rewrite E.
  - left. now rewrite E1.
  - left. now rewrite E2.
  - right. exists e. split; [reflexivity|].
    assert (F : fst (is_open self) = Raise e) by (rewrite I; reflexivity).
    split; [exact F|]. now apply is_open_raises.
  - left. reflexivity.
  - left. now rewrite E3.
  - left. now rewrite E4.
Qed.

Lemma commands_raise_only_what_is_open_raises_witness :
  (fst (perform E_toggle (with_snapshot snapshot_other scenario_fixed)) = Ok tt
   \/ exists e,
        fst (perform E_toggle (with_snapshot snapshot_other scenario_fixed)) = Raise e
        /\ fst (is_open (with_snapshot snapshot_other scenario_fixed)) = Raise e
        /\ ((e = ValueError
             /\ gripper_joint_indices (with_snapshot snapshot_other scenario_fixed)
                = None)
            \/ e = IndexError))
  /\ fst (open false (with_snapshot snapshot_other scenario_fixed)) = Ok tt
  /\ fst (close false (with_snapshot snapshot_other scenario_fixed)) = Ok tt.
Proof.
  apply (commands_raise_only_what_is_open_raises
           (with_snapshot snapshot_other scenario_fixed) E_toggle).
  - apply with_snapshot_well_formed, scenario_fixed_well_formed.
  - reflexivity.
Defined.
